(** * Workflow runner: step-execution engine

    A shallow embedding of the Playwright workflow runner
    ([appCourser2.py], with the older [appPesi.py] click helper) and the
    properties its specification states about it.

    Conventions of the embedding.
    - A workflow document is a JSON value.  JSON numbers are integers;
      strings are byte strings and case folding is the ASCII one.
    - A Python [dict] is an association list in insertion order.
    - The browser, the random generator and the file system are an
      environment answering calls as a function of the calls made so
      far; a run is a function from the history of calls and outputs to
      an outcome and the extended history.
    - Python floats are kept symbolic: the float of an integer, or the
      float parsed from a string.
    - Log lines and error messages are kept as their text up to the
      first interpolated field (without quotes and pictograms) and the
      list of the interpolated values.
    - The recursion of the interpreter (alternate clicks, nested group
      actions) is bounded by a budget; [run] gives it the nesting depth
      of the workflow, which is enough ([run_loop_budget]). *)

From Stdlib Require Import String Ascii List ZArith Bool Arith Lia DecimalString.
Import ListNotations.
Open Scope string_scope.
Open Scope Z_scope.

Set Implicit Arguments.

(* ================================================================== *)
(** ** Python strings *)

Module PyStr.

(** [str.isspace] on the ASCII range: TAB..CR, FS..US and the blank. *)
Definition is_space (c : ascii) : bool :=
  let n := nat_of_ascii c in
  ((9 <=? n)%nat && (n <=? 13)%nat) || ((28 <=? n)%nat && (n <=? 32)%nat).

Definition is_empty (s : string) : bool :=
  match s with EmptyString => true | _ => false end.

Fixpoint lstrip (s : string) : string :=
  match s with
  | EmptyString => EmptyString
  | String c r => if is_space c then lstrip r else s
  end.

Fixpoint rstrip (s : string) : string :=
  match s with
  | EmptyString => EmptyString
  | String c r =>
      let r' := rstrip r in
      if is_empty r' && is_space c then EmptyString else String c r'
  end.

(** [s.strip()] *)
Definition strip (s : string) : string := rstrip (lstrip s).

Definition lower_char (c : ascii) : ascii :=
  let n := nat_of_ascii c in
  if ((65 <=? n)%nat && (n <=? 90)%nat) then ascii_of_nat (n + 32) else c.

(** [s.lower()] *)
Fixpoint lower (s : string) : string :=
  match s with
  | EmptyString => EmptyString
  | String c r => String (lower_char c) (lower r)
  end.

(** [s.startswith(p)] *)
Fixpoint startswith (p s : string) : bool :=
  match p, s with
  | EmptyString, _ => true
  | String a p', String b s' => Ascii.eqb a b && startswith p' s'
  | String _ _, EmptyString => false
  end.

(** [p in s] on strings *)
Fixpoint contains (p s : string) : bool :=
  startswith p s ||
  match s with
  | EmptyString => false
  | String _ s' => contains p s'
  end.

(** [s.endswith(p)] *)
Fixpoint endswith (p s : string) : bool :=
  String.eqb p s ||
  match s with
  | EmptyString => false
  | String _ s' => endswith p s'
  end.

(** [s.split()]: maximal runs of non-blank characters. *)
Fixpoint split_go (cur s : string) : list string :=
  match s with
  | EmptyString => if is_empty cur then [] else [cur]
  | String c r =>
      if is_space c
      then (if is_empty cur then split_go EmptyString r
            else cur :: split_go EmptyString r)
      else split_go (cur ++ String c EmptyString) r
  end.

Definition split (s : string) : list string := split_go EmptyString s.

(** [sep.join(parts)] *)
Fixpoint join (sep : string) (parts : list string) : string :=
  match parts with
  | [] => EmptyString
  | [p] => p
  | p :: rest => p ++ sep ++ join sep rest
  end.

(** [s.split(':')[0]] *)
Fixpoint before_colon (s : string) : string :=
  match s with
  | EmptyString => EmptyString
  | String c r => if Ascii.eqb c ":" then EmptyString else String c (before_colon r)
  end.

Definition digit_val (c : ascii) : option Z :=
  let n := nat_of_ascii c in
  if ((48 <=? n)%nat && (n <=? 57)%nat) then Some (Z.of_nat (n - 48)) else None.

(** Decimal digits with single underscores between digits, as [int(str)]
    reads them. *)
Fixpoint parse_digits (s : string) (acc : Z) (prev_digit : bool) : option Z :=
  match s with
  | EmptyString => if prev_digit then Some acc else None
  | String c r =>
      match digit_val c with
      | Some d => parse_digits r (10 * acc + d) true
      | None =>
          if Ascii.eqb c "_" && prev_digit then parse_digits r acc false else None
      end
  end.

(** [int(s)] for a string [s]; [None] stands for [ValueError]. *)
Definition int_of_string (s : string) : option Z :=
  match strip s with
  | String "+" r => parse_digits r 0 false
  | String "-" r => option_map Z.opp (parse_digits r 0 false)
  | t => parse_digits t 0 false
  end.

End PyStr.

(* ================================================================== *)
(** ** JSON documents and Python values *)

#[warnings="-register-all"]
Inductive json : Type :=
| JNull
| JBool (b : bool)
| JNum (n : Z)
| JStr (s : string)
| JList (l : list json)
| JObj (d : list (string * json)).

Definition dict := list (string * json).

(** Python truth value of a JSON value ([if x:], [not x], [x or y]). *)
Definition truthy (j : json) : bool :=
  match j with
  | JNull => false
  | JBool b => b
  | JNum n => negb (n =? 0)
  | JStr s => negb (PyStr.is_empty s)
  | JList l => match l with [] => false | _ => true end
  | JObj d => match d with [] => false | _ => true end
  end.

(** Nesting depth, the measure that bounds the interpreter's recursion. *)
Fixpoint json_depth (j : json) : nat :=
  match j with
  | JList l =>
      S ((fix go (l : list json) : nat :=
            match l with
            | [] => O
            | x :: r => Nat.max (json_depth x) (go r)
            end) l)
  | JObj d =>
      S ((fix go (d : list (string * json)) : nat :=
            match d with
            | [] => O
            | (_, v) :: r => Nat.max (json_depth v) (go r)
            end) d)
  | _ => O
  end.

(** *** Tolerant key lookup *)

(** [d[key]] when [key in d]. *)
Fixpoint dict_get (d : dict) (key : string) : option json :=
  match d with
  | [] => None
  | (k, v) :: r => if String.eqb k key then Some v else dict_get r key
  end.

(** [for a in alts: if a in d: return d[a]] *)
Fixpoint get_alts (d : dict) (alts : list string) : option json :=
  match alts with
  | [] => None
  | a :: r =>
      match dict_get d a with
      | Some v => Some v
      | None => get_alts d r
      end
  end.

(** [for k in d.keys(): if k.lower() == key.lower(): return d[k]] *)
Fixpoint get_nocase (d : dict) (key : string) : option json :=
  match d with
  | [] => None
  | (k, v) :: r =>
      if String.eqb (PyStr.lower k) (PyStr.lower key) then Some v
      else get_nocase r key
  end.

Definition get_key (d : dict) (key : string) (alts : list string)
    (default : json) : json :=
  match dict_get d key with
  | Some v => v
  | None =>
      match get_alts d alts with
      | Some v => v
      | None =>
          match get_nocase d key with
          | Some v => v
          | None => default
          end
      end
  end.

(** The resolution order in the specification's words: the primary key,
    then the first alias present, then the first key equal up to case,
    else the default. *)
Definition get_key_spec (d : dict) (key : string) (alts : list string)
    (default : json) : json :=
  let exact k := find (fun kv => String.eqb (fst kv) k) d in
  let first_alias := find (fun a => existsb (fun kv => String.eqb (fst kv) a) d) alts in
  let nocase := find (fun kv => String.eqb (PyStr.lower (fst kv)) (PyStr.lower key)) d in
  match exact key with
  | Some kv => snd kv
  | None =>
      match first_alias with
      | Some a => match exact a with Some kv => snd kv | None => default end
      | None =>
          match nocase with
          | Some kv => snd kv
          | None => default
          end
      end
  end.

(** [int(x)]; [None] stands for the exception. *)
Definition py_int (x : json) : option Z :=
  match x with
  | JNum n => Some n
  | JBool b => Some (if b then 1 else 0)
  | JStr s => PyStr.int_of_string s
  | _ => None
  end.

Definition to_int_or_none (x : json) : option Z :=
  match x with
  | JNull => None
  | _ => py_int x
  end.

(** A Python float, kept symbolic. *)
Inductive pyfloat : Type :=
| FInt (z : Z)
| FStr (s : string).

(** The integers [float] converts are those below [2^1024 - 2^970] in
    absolute value: beyond, the nearest double is infinite. *)
Definition float_int_bound : Z := Z.shiftl (2 ^ 54 - 1) 970.

(** The durations the clock of [time.sleep] cannot hold: [2^63]
    nanoseconds or more.  Of the float of a string nothing is decided
    here; the platform answers for it. *)
Definition clock_overflow (f : pyfloat) : bool :=
  match f with
  | FInt z => 9223372036 <? z
  | FStr _ => false
  end.

(** The double-quote character. *)
Definition dquote : string := String "034"%char EmptyString.

(** [make_safe_filename]: replace the characters a file name cannot hold
    and make sure of the extension. *)
Definition unsafe_char (c : ascii) : bool :=
  existsb (Ascii.eqb c)
    ["\"%char; "/"%char; "*"%char; "?"%char; ":"%char; "034"%char;
     "<"%char; ">"%char; "|"%char].

Fixpoint sanitize (s : string) : string :=
  match s with
  | EmptyString => EmptyString
  | String c r => String (if unsafe_char c then "_"%char else c) (sanitize r)
  end.

Definition make_safe_filename (name : option string) (default ext : string)
    : string :=
  let stripped := PyStr.strip (match name with Some n => n | None => "" end) in
  let base := if PyStr.is_empty stripped then default else stripped in
  let base := sanitize base in
  if negb (PyStr.is_empty ext)
     && negb (PyStr.endswith (PyStr.lower ext) (PyStr.lower base))
  then base ++ ext else base.

(* ================================================================== *)
(** ** The automation surface *)

(** A frame of the page, as [page.frames] lists it. *)
Record frame : Type := mkFrame {
  frame_id : nat;
  frame_name : string;
  frame_url : string
}.

(** What a [frame] step yields: a deferred frame locator
    ([page.frame_locator]) or a frame object. *)
Inductive frame_ref : Type :=
| FrameLocator (selector : json)
| FrameObj (f : frame).

(** Locators are descriptions; nothing is looked up until they are
    counted or acted on.  [Page] and [InFrame] are the roots. *)
Inductive locator : Type :=
| Page
| InFrame (f : frame_ref)
| Locate (root : locator) (selector : string)
| Filter (l : locator) (has_text : json)
| Nth (l : locator) (index : Z).

(** An open tab of the browser context. *)
Record tab : Type := mkTab {
  tab_id : nat;
  tab_url : string
}.

(** What the surface can raise: Playwright's [TimeoutError] or any other
    error. *)
Inductive fault : Type :=
| Timeout (msg : string)
| Failure (msg : string).

(** Exceptions.  [RuntimeError] carries the message up to its first
    interpolated field and the interpolated values. *)
Inductive exn : Type :=
| RuntimeError (msg : string) (args : list json)
| PWTimeout (msg : string)
| PWError (msg : string)
| PyError (cls : string)
| RecursionError.

Definition exn_of_fault (f : fault) : exn :=
  match f with
  | Timeout m => PWTimeout m
  | Failure m => PWError m
  end.

(** [str(e)] *)
Definition exn_text (e : exn) : string :=
  match e with
  | RuntimeError m _ => m
  | PWTimeout m => m
  | PWError m => m
  | PyError c => c
  | RecursionError => "maximum recursion depth exceeded"
  end.

(** Calls answered by the environment, indexed by the type of the
    answer. *)
Inductive call : Type -> Type :=
| PageGoto (url : json) : call unit
| Count (l : locator) : call nat
| WaitVisible (l : locator) (timeout : pyfloat) : call unit
| ScrollIntoView (l : locator) : call unit
| GetAttribute (l : locator) (name : string) : call json
| Click (l : locator) (timeout : option pyfloat) : call unit
| WaitLoadState (state : string) (timeout_ms : Z) : call unit
| ClearField (l : locator) : call unit
| TypeKey (l : locator) (ch : json) : call unit
| RandInt (lo hi : Z) : call Z
| FrameByName (name : json) : call (option frame)
| Frames : call (list frame)
| Tabs : call (list tab)
| BringToFront (t : tab) : call unit
| ScrollTo (x y : Z) : call unit
| Getcwd : call string
| Makedirs (dir : json) : call unit
| ClickExpectingDownload (l : locator) (timeout : pyfloat) : call string
| SaveDownload (dir : json) (name : string) : call unit
| PageUrlBasename : call string
| PageContent : call string
| InnerText (selector : string) : call string
| WriteFile (dir : json) (name : string) (content : string) : call unit.

Inductive level : Type := LInfo | LWarning | LError.

(** Effects that cannot fail: a log line (message up to its first
    interpolated field, and the interpolated values), a line on the
    console, a pause, a wait for the operator. *)
Inductive output : Type :=
| Log (lvl : level) (msg : string) (args : list json)
| Print (msg : string) (args : list json)
| Sleep (seconds : pyfloat)
| SleepMs (ms : Z)
| Input (prompt : string).

Inductive event : Type :=
| Called : forall R : Type, call R -> event
| Emitted : output -> event.

Definition history := list event.

(** The environment: the answers of the surface, and the parts of the
    Python runtime the embedding does not compute. *)
Record runtime : Type := mkRuntime {
  respond : forall R : Type, history -> call R -> fault + R;
  float_parses : string -> bool;
  float_positive : string -> bool;
  py_repr : json -> string;
  (* [time.sleep(s)] failing on the platform at hand: the class of the
     exception, if any. *)
  sleep_error : history -> pyfloat -> option string
}.

(* ================================================================== *)
(** ** The interpreter monad *)

Inductive outcome (A : Type) : Type :=
| Ret (a : A)
| Raise (e : exn).

Arguments Raise {A} e.

Definition M (A : Type) : Type := history -> outcome A * history.

Definition ret {A : Type} (a : A) : M A := fun h => (Ret a, h).

Definition raise {A : Type} (e : exn) : M A := fun h => (Raise e, h).

Definition bind {A B : Type} (m : M A) (k : A -> M B) : M B :=
  fun h =>
    match m h with
    | (Ret a, h') => k a h'
    | (Raise e, h') => (Raise e, h')
    end.

(** [try: body / except Exception as e: handler] *)
Definition try_except {A : Type} (body : M A) (handler : exn -> M A) : M A :=
  fun h =>
    match body h with
    | (Ret a, h') => (Ret a, h')
    | (Raise e, h') => handler e h'
    end.

(** [try: body / except PWTimeout as e: handler] *)
Definition try_except_timeout {A : Type} (body : M A) (handler : exn -> M A)
    : M A :=
  try_except body
    (fun e => match e with PWTimeout _ => handler e | _ => raise e end).

Definition emit (o : output) : M unit :=
  fun h => (Ret tt, (h ++ [Emitted o])%list).

Definition lift {A : Type} (o : outcome A) : M A := fun h => (o, h).

Declare Scope monad_scope.
Delimit Scope monad_scope with monad.
Notation "x <- c1 ;; c2" := (bind c1 (fun x => c2))
  (at level 61, c1 at next level, right associativity) : monad_scope.
Notation "c1 ;; c2" := (bind c1 (fun _ => c2))
  (at level 61, right associativity) : monad_scope.
Open Scope monad_scope.

Definition info (msg : string) (args : list json) : M unit :=
  emit (Log LInfo msg args).
Definition warning (msg : string) (args : list json) : M unit :=
  emit (Log LWarning msg args).
Definition error (msg : string) (args : list json) : M unit :=
  emit (Log LError msg args).

Definition string_of_Z (z : Z) : string :=
  DecimalString.NilZero.string_of_int (Z.to_int z).

(* ================================================================== *)
(** ** The interpreter *)

Section Interpreter.

Variable env : runtime.

(** Ask the environment; the call is recorded, the answer depends on the
    calls made before it. *)
Definition call_env {R : Type} (c : call R) : M R :=
  fun h =>
    match respond env h c with
    | inl f => (Raise (exn_of_fault f), (h ++ [Called c])%list)
    | inr r => (Ret r, (h ++ [Called c])%list)
    end.

(** [str(x)], as an f-string renders a value. *)
Definition py_str (j : json) : string :=
  match j with
  | JNull => "None"
  | JBool true => "True"
  | JBool false => "False"
  | JNum n => string_of_Z n
  | JStr s => s
  | _ => py_repr env j
  end.

(** [float(x)]; an integer beyond the range of a double raises
    [OverflowError]. *)
Definition py_float (x : json) : outcome pyfloat :=
  match x with
  | JNum n =>
      if Z.abs n <? float_int_bound then Ret (FInt n)
      else Raise (PyError "OverflowError")
  | JBool b => Ret (FInt (if b then 1 else 0))
  | JStr s =>
      if float_parses env s then Ret (FStr s) else Raise (PyError "ValueError")
  | _ => Raise (PyError "TypeError")
  end.

Definition float_gt_zero (f : pyfloat) : bool :=
  match f with
  | FInt z => 0 <? z
  | FStr s => float_positive env s
  end.

(** [time.sleep(s)] for [s > 0]: it raises [OverflowError] when the
    duration does not fit the clock, and whatever the platform makes it
    raise; else the pause is made. *)
Definition time_sleep (s : pyfloat) : M unit :=
  fun h =>
    if clock_overflow s then (Raise (PyError "OverflowError"), h)
    else
      match sleep_error env h s with
      | Some cls => (Raise (PyError cls), h)
      | None => (Ret tt, (h ++ [Emitted (Sleep s)])%list)
      end.

Definition step_sleep (seconds : json) : M unit :=
  match seconds with
  | JNull => ret tt
  | _ =>
      let s := match py_float seconds with Ret f => f | Raise _ => FInt 0 end in
      if float_gt_zero s then time_sleep s else ret tt
  end.

(** *** Selector builder *)

(** [normalize_class_selector]: the class part, [".c1.c2"], or nothing. *)
Definition normalize_class_selector (cls_value : json) : outcome string :=
  if negb (truthy cls_value) then Ret ""
  else
    match cls_value with
    | JStr v =>
        let s := PyStr.strip v in
        if PyStr.startswith "." s then Ret s
        else
          let parts := filter (fun p => negb (PyStr.is_empty p)) (PyStr.split s) in
          match parts with
          | [] => Ret ""
          | _ => Ret ("." ++ PyStr.join "." parts)
          end
    | _ => Raise (PyError "AttributeError")
    end.

(** [(tag or "*").strip()] *)
Definition tag_clause (tag : json) : outcome string :=
  if negb (truthy tag) then Ret (PyStr.strip "*")
  else
    match tag with
    | JStr t => Ret (PyStr.strip t)
    | _ => Raise (PyError "AttributeError")
    end.

(** The attribute part: exact match, presence, or nothing. *)
Definition attribute_clause (attr value : json) : string :=
  if truthy attr then
    match value with
    | JNull => "[" ++ py_str attr ++ "]"
    | _ => "[" ++ py_str attr ++ "=" ++ dquote ++ py_str value ++ dquote ++ "]"
    end
  else "".

Definition build_css_selector (tag cls attr value : json) : outcome string :=
  match tag_clause tag with
  | Raise e => Raise e
  | Ret t =>
      match normalize_class_selector cls with
      | Raise e => Raise e
      | Ret c => Ret (t ++ c ++ attribute_clause attr value)
      end
  end.

(** [(name or "").strip()] of [make_safe_filename] on a JSON value. *)
Definition safe_filename_of (name : json) (default ext : string)
    : outcome string :=
  if negb (truthy name) then Ret (make_safe_filename None default ext)
  else
    match name with
    | JStr n => Ret (make_safe_filename (Some n) default ext)
    | _ => Raise (PyError "AttributeError")
    end.

(** *** Typing *)

(** The items [for ch in text] runs over. *)
Fixpoint chars_of (s : string) : list json :=
  match s with
  | EmptyString => []
  | String c r => JStr (String c EmptyString) :: chars_of r
  end.

Definition iter_items (text : json) : outcome (list json) :=
  match text with
  | JStr s => Ret (chars_of s)
  | JList l => Ret l
  | JObj d => Ret (map (fun kv => JStr (fst kv)) d)
  | _ => Raise (PyError "TypeError")
  end.

Definition is_blank (ch : json) : bool :=
  match ch with
  | JStr s => String.eqb s " "
  | _ => false
  end.

Fixpoint type_items (element : locator) (items : list json) : M unit :=
  match items with
  | [] => ret tt
  | ch :: rest =>
      call_env (TypeKey element ch);;
      extra <- (if is_blank ch then call_env (RandInt 200 600) else ret 0);;
      base <- call_env (RandInt 50 250);;
      emit (SleepMs (base + extra));;
      type_items element rest
  end.

Definition human_type (element : locator) (text : json) : M unit :=
  items <- lift (iter_items text);;
  type_items element items.

(** *** Clicking *)

Definition out_of_range (index : Z) (count : nat) : bool :=
  (index <? 0) || (index >=? Z.of_nat count).

Definition wait_and_click (loc : locator) (index : Z) (timeout : pyfloat)
    (ignore_error : bool) : M bool :=
  try_except
    (count <- call_env (Count loc);;
     if Nat.eqb count 0 then
       if ignore_error then
         warning "No matching elements found, but ignoring error." [];;
         ret false
       else raise (RuntimeError "No matching elements found." [])
     else if out_of_range index count then
       if ignore_error then
         warning "array_select_one index" [JNum index; JNum (Z.of_nat count)];;
         ret false
       else
         raise (RuntimeError "array_select_one index"
                  [JNum index; JNum (Z.of_nat count)])
     else
       let target := Nth loc index in
       call_env (WaitVisible target timeout);;
       call_env (ScrollIntoView target);;
       is_link <- try_except
                    (href <- call_env (GetAttribute target "href");;
                     ret (truthy href))
                    (fun _ => ret false);;
       call_env (Click target (Some timeout));;
       (if is_link then
          try_except (call_env (WaitLoadState "networkidle" 20000))
                     (fun _ => emit (Sleep (FInt 2)))
        else ret tt);;
       ret true)
    (fun e =>
       if ignore_error then
         warning "Click failed but ignoring:" [JStr (PyStr.before_colon (exn_text e))];;
         ret false
       else
         raise (RuntimeError "Element interaction failed:"
                  [JStr (PyStr.before_colon (exn_text e))])).

(** The click helper of the oldest variant ([appPesi.py]): no tolerance;
    on an empty match it waits for the operator and then fails on the
    index check. *)
Definition pesi_wait_and_click (loc : locator) (index : Z) (timeout : pyfloat)
    : M unit :=
  count <- call_env (Count loc);;
  (if Nat.eqb count 0 then
     emit (Print "No matching elements found." []);;
     emit (Input "Enter to exit")
   else ret tt);;
  if out_of_range index count then
    raise (RuntimeError "array_select_one index"
             [JNum index; JNum (Z.of_nat count)])
  else
    let target := Nth loc index in
    call_env (WaitVisible target timeout);;
    call_env (Click target None).

(** *** Scope *)

Definition get_locator_root (current_frame : option frame_ref)
    (parent : option locator) : locator :=
  match parent with
  | Some p => p
  | None =>
      match current_frame with
      | Some f => InFrame f
      | None => Page
      end
  end.

(** [root.locator(selector)], filtered by text when one is given. *)
Definition locate (root : locator) (selector : string) (text : json)
    : locator :=
  let loc := Locate root selector in
  if truthy text then Filter loc text else loc.

(** The log suffix [' | has_text=' + text if text else '']: string
    concatenation fails on a text that is not a string. *)
Definition has_text_suffix (text : json) : outcome (list json) :=
  if truthy text then
    match text with
    | JStr _ => Ret [text]
    | _ => Raise (PyError "TypeError")
    end
  else Ret [].

(** *** Conditions *)

Definition check_condition (condition : json)
    (current_frame : option frame_ref) (parent : option locator) : M bool :=
  match condition with
  | JObj c =>
      let status := get_key c "status" [] JNull in
      let tag := get_key c "tag" [] JNull in
      let attr := get_key c "attr" ["arrt"; "attribute"] JNull in
      let value := get_key c "value" [] JNull in
      let cls := get_key c "class" [] JNull in
      let text := get_key c "text" [] JNull in
      if negb (truthy status) then
        raise (RuntimeError "Condition missing status (found/not_found)" [])
      else
        selector <- lift (build_css_selector tag cls attr value);;
        let root := get_locator_root current_frame parent in
        let loc := locate root selector text in
        count <- call_env (Count loc);;
        info "Condition check:" [JStr selector; status; JNum (Z.of_nat count)];;
        match status with
        | JStr s =>
            if String.eqb s "found" then ret (negb (Nat.eqb count 0))
            else if String.eqb s "not_found" then ret (Nat.eqb count 0)
            else raise (RuntimeError "Unknown condition status:" [status])
        | _ => raise (RuntimeError "Unknown condition status:" [status])
        end
  | _ => raise (PyError "TypeError")
  end.

(** *** Frames *)

(** [for frame in page.frames: if frame_url in frame.url: return frame] *)
Fixpoint first_frame_with_url (url : json) (frames : list frame)
    : outcome (option frame) :=
  match frames with
  | [] => Ret None
  | f :: rest =>
      match url with
      | JStr u =>
          if PyStr.contains u (frame_url f) then Ret (Some f)
          else first_frame_with_url url rest
      | _ => Raise (PyError "TypeError")
      end
  end.

Definition switch_to_frame (step : dict) : M frame_ref :=
  let frame_selector := get_key step "selector" [] JNull in
  let name := get_key step "name" [] JNull in
  let url := get_key step "url" [] JNull in
  let frame_index := to_int_or_none (get_key step "index" [] JNull) in
  if truthy frame_selector then
    info "Switching to frame by selector:" [frame_selector];;
    ret (FrameLocator frame_selector)
  else if truthy name then
    info "Switching to frame by name:" [name];;
    found <- call_env (FrameByName name);;
    match found with
    | Some f => ret (FrameObj f)
    | None => raise (RuntimeError "Frame with name" [name])
    end
  else if truthy url then
    info "Switching to frame by URL:" [url];;
    frames <- call_env Frames;;
    found <- lift (first_frame_with_url url frames);;
    match found with
    | Some f => ret (FrameObj f)
    | None => raise (RuntimeError "Frame with URL containing" [url])
    end
  else
    match frame_index with
    | Some i =>
        info "Switching to frame by index:" [JNum i];;
        frames <- call_env Frames;;
        if out_of_range i (length frames) then
          raise (RuntimeError "Frame index" [JNum i; JNum (Z.of_nat (length frames) - 1)])
        else
          match nth_error frames (Z.to_nat i) with
          | Some f => ret (FrameObj f)
          | None => raise (PyError "IndexError")
          end
    | None =>
        raise (RuntimeError "Frame step requires one of: selector, name, url, or index" [])
    end.

Definition switch_to_main_frame : M (option frame_ref) :=
  info "Switching back to main frame" [];;
  ret None.

(** *** Step executors *)

Definition exec_step_goto (step : dict) : M unit :=
  let url := get_key step "value" ["url"] JNull in
  if negb (truthy url) then
    raise (RuntimeError "Missing value or url for goto step." [])
  else
    info "Navigating to:" [url];;
    call_env (PageGoto url);;
    step_sleep (get_key step "sleep" [] JNull).

(** The primary click of a click step: what [exec_step_click] does when
    no condition diverts it. *)
Definition primary_click (step : dict) (current_frame : option frame_ref)
    (parent : option locator) : M unit :=
  let tag := get_key step "tag" [] JNull in
  let attr := get_key step "attr" ["arrt"; "attribute"] JNull in
  let value := get_key step "value" [] JNull in
  let cls := get_key step "class" [] JNull in
  let text := get_key step "text" [] JNull in
  let idx := to_int_or_none (get_key step "array_select_one" [] JNull) in
  let ignore_error := truthy (get_key step "ignore" [] (JBool false)) in
  selector <- lift (build_css_selector tag cls attr value);;
  let root := get_locator_root current_frame parent in
  let loc := locate root selector text in
  suffix <- lift (has_text_suffix text);;
  info "Click selector:" (JStr selector :: suffix);;
  proceed <- try_except_timeout
    (let idx := match idx with Some i => i | None => 0 end in
     timeout <- lift (py_float (get_key step "timeout" [] (JNum 45000)));;
     success <- wait_and_click loc idx timeout ignore_error;;
     ret (negb (negb success && ignore_error)))
    (fun e =>
       if ignore_error then
         warning "Timeout waiting for element but ignoring:" [JStr selector];;
         ret false
       else raise (RuntimeError "Timeout waiting for element:" [JStr selector]));;
  if proceed then step_sleep (get_key step "sleep" [] JNull) else ret tt.

(** [alt_clicks] as a list: [if not isinstance(alt_clicks, list):
    alt_clicks = [alt_clicks]]. *)
Definition as_list (j : json) : list json :=
  match j with
  | JList l => l
  | _ => [j]
  end.

Section ClickBody.

(** The recursive call, at the remaining recursion budget. *)
Variable exec_click : dict -> option frame_ref -> option locator -> M unit.

Fixpoint alt_clicks_loop (alt_clicks : list json)
    (current_frame : option frame_ref) (parent : option locator) : M unit :=
  match alt_clicks with
  | [] => ret tt
  | alt_click :: rest =>
      match alt_click with
      | JObj a =>
          info "Executing alternative click due to condition" [];;
          exec_click a current_frame parent;;
          alt_clicks_loop rest current_frame parent
      | _ => alt_clicks_loop rest current_frame parent
      end
  end.

(** The alternate click list of a condition. *)
Definition alternate_clicks (condition : json) : list json :=
  match condition with
  | JObj c => as_list (get_key c "click" [] (JList []))
  | _ => []
  end.

Definition click_body (step : dict) (current_frame : option frame_ref)
    (parent : option locator) : M unit :=
  let condition := get_key step "if" [] JNull in
  if truthy condition then
    condition_met <- check_condition condition current_frame parent;;
    info "Condition check result:" [JBool condition_met];;
    if condition_met then
      alt_clicks_loop (alternate_clicks condition) current_frame parent
    else primary_click step current_frame parent
  else primary_click step current_frame parent.

End ClickBody.

Fixpoint exec_step_click (fuel : nat) (step : dict)
    (current_frame : option frame_ref) (parent : option locator) : M unit :=
  match fuel with
  | O => raise RecursionError
  | S n => click_body (exec_step_click n) step current_frame parent
  end.

Definition exec_step_write (step : dict) (current_frame : option frame_ref)
    (parent : option locator) : M unit :=
  let text := get_key step "write" ["value"; "text"] JNull in
  if negb (truthy text) then
    raise (RuntimeError "Missing write or value for write step." [])
  else
    let tag := get_key step "tag" [] JNull in
    let attr := get_key step "attr" ["arrt"; "attribute"] JNull in
    let value := get_key step "value" [] JNull in
    let cls := get_key step "class" [] JNull in
    let text_filter := get_key step "text" [] JNull in
    let idx := to_int_or_none (get_key step "array_select_one" [] JNull) in
    let ignore_error := truthy (get_key step "ignore" [] (JBool false)) in
    selector <- lift (build_css_selector tag cls attr value);;
    let root := get_locator_root current_frame parent in
    let loc := locate root selector text_filter in
    info "Writing" [text; JStr selector];;
    try_except
      (let idx := match idx with Some i => i | None => 0 end in
       count <- call_env (Count loc);;
       if Nat.eqb count 0 then
         if ignore_error then
           warning "No elements found for writing but ignoring:" [JStr selector]
         else raise (RuntimeError "No elements found for writing:" [JStr selector])
       else if out_of_range idx count then
         if ignore_error then
           warning "array_select_one index" [JNum idx; JNum (Z.of_nat count)]
         else
           raise (RuntimeError "array_select_one index"
                    [JNum idx; JNum (Z.of_nat count)])
       else
         let target := Nth loc idx in
         timeout <- lift (py_float (get_key step "timeout" [] (JNum 35000)));;
         call_env (WaitVisible target timeout);;
         call_env (ScrollIntoView target);;
         call_env (Click target None);;
         (if truthy (get_key step "clear" [] (JBool true))
          then call_env (ClearField target) else ret tt);;
         human_type target text)
      (fun e =>
         if ignore_error then
           warning "Write failed but ignoring:" [JStr (exn_text e)]
         else raise e).

(** One entry of the child click list of an array step, under parent
    [p]. *)
Definition array_child_click (step : dict) (p : locator) (j : Z)
    (child : json) : M unit :=
  match child with
  | JObj c =>
      let ctag := get_key c "tag" [] JNull in
      let ctext := get_key c "text" [] JNull in
      let cattr := get_key c "attr" ["arrt"; "attribute"] JNull in
      let cvalue := get_key c "value" [] JNull in
      let ccls := get_key c "class" [] JNull in
      let csleep := get_key c "sleep" [] JNull in
      let cignore := truthy (get_key c "ignore" [] (JBool false)) in
      child_selector <- lift (build_css_selector ctag ccls cattr cvalue);;
      let child_loc := locate p child_selector ctext in
      suffix <- lift (has_text_suffix ctext);;
      info "Child click" (JNum j :: JStr child_selector :: suffix);;
      proceed <- try_except_timeout
        (timeout <- lift (py_float (get_key step "timeout" [] (JNum 35000)));;
         success <- wait_and_click child_loc 0 timeout cignore;;
         ret (negb (negb success && cignore)))
        (fun e =>
           if cignore then
             warning "Timeout waiting for child element but ignoring:"
               [JStr child_selector];;
             ret false
           else
             raise (RuntimeError "Timeout waiting for child element:"
                      [JStr child_selector]));;
      if proceed then step_sleep csleep else ret tt
  | _ => raise (PyError "TypeError")
  end.

Fixpoint array_children_loop (step : dict) (p : locator) (j : Z)
    (clicks : list json) : M unit :=
  match clicks with
  | [] => ret tt
  | child :: rest =>
      array_child_click step p j child;;
      array_children_loop step p (j + 1) rest
  end.

Fixpoint array_parents_loop (step : dict) (parents : locator)
    (clicks : list json) (parent_indices : list Z) : M unit :=
  match parent_indices with
  | [] => ret tt
  | i :: rest =>
      let p := Nth parents i in
      info "Processing parent index" [JNum i];;
      array_children_loop step p 1 clicks;;
      array_parents_loop step parents clicks rest
  end.

(** [list(range(total))] *)
Definition range (total : nat) : list Z := map Z.of_nat (seq 0 total).

(** The parents a group or array step works on: [Ret None] when the
    step is given up under tolerance, else the indices selected. *)
Definition select_parents (what : string) (ignore_error : bool)
    (parent_idx : option Z) (total : nat) : M (option (list Z)) :=
  match parent_idx with
  | Some i =>
      if out_of_range i total then
        if ignore_error then
          warning (what ++ "array_select_one index") [JNum i; JNum (Z.of_nat total)];;
          ret None
        else
          raise (RuntimeError (what ++ "array_select_one index")
                   [JNum i; JNum (Z.of_nat total)])
      else ret (Some [i])
  | None => ret (Some (range total))
  end.

(** The text appended to the "no parent" error: concatenation fails on
    a filter that is not a string. *)
Definition no_parents_error (msg : string) (selector : string)
    (filter_text : json) : exn :=
  if truthy filter_text then
    match filter_text with
    | JStr _ => RuntimeError msg [JStr selector; filter_text]
    | _ => PyError "TypeError"
    end
  else RuntimeError msg [JStr selector].

Definition exec_step_array (step : dict) (current_frame : option frame_ref)
    (parent : option locator) : M unit :=
  let tag := get_key step "tag" [] JNull in
  let attr := get_key step "attr" ["arrt"; "attribute"] JNull in
  let value := get_key step "value" [] JNull in
  let cls := get_key step "class" [] JNull in
  let filter_text := get_key step "if_find_text_inside" [] JNull in
  let parent_idx := to_int_or_none (get_key step "array_select_one" [] JNull) in
  let ignore_error := truthy (get_key step "ignore" [] (JBool false)) in
  parent_selector <- lift (build_css_selector tag cls attr value);;
  let root := get_locator_root current_frame parent in
  let parents := locate root parent_selector filter_text in
  total <- call_env (Count parents);;
  if Nat.eqb total 0 then
    if ignore_error then
      warning "No parent elements found but ignoring:" [JStr parent_selector]
    else
      raise (no_parents_error "No parent elements found for selector:"
               parent_selector filter_text)
  else
    info "Found parent element(s) for:" [JNum (Z.of_nat total); JStr parent_selector];;
    selected <- select_parents "" ignore_error parent_idx total;;
    match selected with
    | None => ret tt
    | Some parent_indices =>
        match get_key step "click" [] (JList []) with
        | JList (c :: cs) =>
            array_parents_loop step parents (c :: cs) parent_indices;;
            step_sleep (get_key step "sleep" [] JNull)
        | _ => raise (RuntimeError "Missing non-empty click array for array step." [])
        end
    end.

Definition exec_step_frame (step : dict) : M frame_ref :=
  switch_to_frame step.

Definition exec_step_main_frame : M (option frame_ref) :=
  switch_to_main_frame.

Definition exec_step_use_last_tab (step : dict) : M unit :=
  tabs <- call_env Tabs;;
  (match tabs with
   | _ :: _ :: _ =>
       let last_tab := last tabs (mkTab 0 "") in
       call_env (BringToFront last_tab);;
       info "Switched to last tab:" [JStr (tab_url last_tab)]
   | _ => info "Only one tab open, no switch needed." []
   end);;
  step_sleep (get_key step "sleep" [] JNull).

(** [int(x) if x is not None else 0] *)
Definition int_or_zero (x : json) : outcome Z :=
  match x with
  | JNull => Ret 0
  | _ =>
      match py_int x with
      | Some n => Ret n
      | None => Raise (PyError "ValueError")
      end
  end.

Definition is_none (x : json) : bool :=
  match x with
  | JNull => true
  | _ => false
  end.

Definition exec_step_scroll (step : dict) (current_frame : option frame_ref)
    (parent : option locator) : M unit :=
  let tag := get_key step "tag" [] JNull in
  let attr := get_key step "attr" ["arrt"; "attribute"] JNull in
  let value := get_key step "value" [] JNull in
  let cls := get_key step "class" [] JNull in
  let text := get_key step "text" [] JNull in
  let idx := to_int_or_none (get_key step "array_select_one" [] JNull) in
  let ignore_error := truthy (get_key step "ignore" [] (JBool false)) in
  let x := get_key step "x" [] JNull in
  let y := get_key step "y" [] JNull in
  if negb (is_none x) || negb (is_none y) then
    x_pos <- lift (int_or_zero x);;
    y_pos <- lift (int_or_zero y);;
    info "Scrolling to position:" [JNum x_pos; JNum y_pos];;
    call_env (ScrollTo x_pos y_pos)
  else if negb (existsb truthy [tag; attr; value; cls; text]) then
    raise (RuntimeError "Scroll step requires either position (x,y) or element selector" [])
  else
    selector <- lift (build_css_selector tag cls attr value);;
    let root := get_locator_root current_frame parent in
    let loc := locate root selector text in
    info "Scroll to selector:" [JStr selector];;
    try_except
      (let idx := match idx with Some i => i | None => 0 end in
       count <- call_env (Count loc);;
       if Nat.eqb count 0 then
         if ignore_error then
           warning "No elements found for scrolling but ignoring:" [JStr selector]
         else raise (RuntimeError "No elements found for scrolling:" [JStr selector])
       else if out_of_range idx count then
         if ignore_error then
           warning "array_select_one index" [JNum idx; JNum (Z.of_nat count)]
         else
           raise (RuntimeError "array_select_one index"
                    [JNum idx; JNum (Z.of_nat count)])
       else
         let target := Nth loc idx in
         timeout <- lift (py_float (get_key step "timeout" [] (JNum 35000)));;
         call_env (WaitVisible target timeout);;
         call_env (ScrollIntoView target);;
         info "Scrolled to element successfully" [])
      (fun e =>
         if ignore_error then
           warning "Scroll failed but ignoring:" [JStr (exn_text e)]
         else raise e).

Definition exec_step_download_from_link (step : dict)
    (current_frame : option frame_ref) (parent : option locator) : M unit :=
  let tag := get_key step "tag" [] JNull in
  let attr := get_key step "attr" ["arrt"; "attribute"] JNull in
  let value := get_key step "value" [] JNull in
  let cls := get_key step "class" [] JNull in
  let text := get_key step "text" [] JNull in
  let idx := to_int_or_none (get_key step "array_select_one" [] JNull) in
  let ignore_error := truthy (get_key step "ignore" [] (JBool false)) in
  cwd <- call_env Getcwd;;
  let download_dir := get_key step "download_dir" ["dir"] (JStr cwd) in
  let filename := get_key step "filename" ["file_name"; "file"] JNull in
  timeout <- lift (py_float (get_key step "timeout" [] (JNum 70000)));;
  selector <- lift (build_css_selector tag cls attr value);;
  let root := get_locator_root current_frame parent in
  let loc := locate root selector text in
  suffix <- lift (has_text_suffix text);;
  info "Download-from-link selector:" (JStr selector :: suffix);;
  proceed <- try_except
    (let idx := match idx with Some i => i | None => 0 end in
     count <- call_env (Count loc);;
     if Nat.eqb count 0 then
       if ignore_error then
         warning "No elements found for download_from_link but ignoring:" [JStr selector];;
         ret false
       else
         raise (RuntimeError "No elements found for download_from_link:" [JStr selector])
     else if out_of_range idx count then
       if ignore_error then
         warning "array_select_one index" [JNum idx; JNum (Z.of_nat count)];;
         ret false
       else
         raise (RuntimeError "array_select_one index"
                  [JNum idx; JNum (Z.of_nat count)])
     else
       let target := Nth loc idx in
       call_env (WaitVisible target timeout);;
       call_env (ScrollIntoView target);;
       call_env (Makedirs download_dir);;
       info "Waiting for download to start..." [];;
       suggested <- call_env (ClickExpectingDownload target timeout);;
       safe_name <- lift (if truthy filename
                          then safe_filename_of filename "download" ""
                          else safe_filename_of (JStr suggested) "download" "");;
       call_env (SaveDownload download_dir safe_name);;
       info "Download saved to:" [download_dir; JStr safe_name];;
       ret true)
    (fun e =>
       match e with
       | PWTimeout _ =>
           if ignore_error then
             warning "Timeout waiting for download_from_link but ignoring:" [JStr selector];;
             ret true
           else
             raise (RuntimeError "Timeout waiting for download for selector:" [JStr selector])
       | _ =>
           if ignore_error then
             warning "download_from_link failed but ignoring:" [JStr (exn_text e)];;
             ret true
           else raise e
       end);;
  if proceed then step_sleep (get_key step "sleep" [] JNull) else ret tt.

Definition exec_step_download_page (step : dict) : M unit :=
  let mode := PyStr.lower (py_str (get_key step "mode" ["format"; "as"] (JStr "html"))) in
  cwd <- call_env Getcwd;;
  let download_dir := get_key step "download_dir" ["dir"] (JStr cwd) in
  let filename := get_key step "filename" ["file_name"; "file"] JNull in
  call_env (Makedirs download_dir);;
  if negb (existsb (String.eqb mode) ["html"; "text"; "txt"]) then
    raise (RuntimeError "download_page mode must be html or text/txt." [])
  else
    let ext := if String.eqb mode "html" then ".html" else ".txt" in
    name <- (if negb (truthy filename) then
               base <- call_env PageUrlBasename;;
               ret (make_safe_filename
                      (Some (if PyStr.is_empty base then "page" else base))
                      "page" ext)
             else lift (safe_filename_of filename "page" ext));;
    content <- (if String.eqb mode "html" then
                  info "Saving page as HTML..." [];;
                  call_env PageContent
                else
                  info "Saving page as plain text..." [];;
                  try_except (call_env (InnerText "body"))
                    (fun _ =>
                       warning "inner_text('body') failed, falling back to HTML." [];;
                       call_env PageContent));;
    call_env (WriteFile download_dir name content);;
    info "Page saved to:" [download_dir; JStr name];;
    step_sleep (get_key step "sleep" [] JNull).

(** *** Step kinds *)

Inductive kind : Type :=
| KGoto | KClick | KArray | KGroupAction | KFrame | KMainFrame | KWrite
| KUseLastTab | KScroll | KDownloadFromLink | KDownloadPage | KUnsupported.

(** The kind named by [str(stype).strip().lower()], in the order of the
    dispatch chain.  The rendering of a value that is not a string (a
    number, [True], a bracketed list or dict) names no kind. *)
Definition kind_of (stype : json) : kind :=
  match stype with
  | JStr s =>
      let stype_l := PyStr.lower (PyStr.strip s) in
      if String.eqb stype_l "goto" then KGoto
      else if String.eqb stype_l "click" then KClick
      else if String.eqb stype_l "array" then KArray
      else if String.eqb stype_l "group_action" then KGroupAction
      else if String.eqb stype_l "frame" then KFrame
      else if String.eqb stype_l "main_frame" then KMainFrame
      else if String.eqb stype_l "write" then KWrite
      else if String.eqb stype_l "use_last_tab" then KUseLastTab
      else if String.eqb stype_l "scroll" then KScroll
      else if String.eqb stype_l "download_from_link" then KDownloadFromLink
      else if String.eqb stype_l "download_page" then KDownloadPage
      else if String.eqb stype_l "save_page" then KDownloadPage
      else KUnsupported
  | _ => KUnsupported
  end.

(** *** Group actions *)

Section GroupBody.

(** The recursion budget left for nested click and group steps. *)
Variable budget : nat.
Variable exec_group : dict -> option frame_ref -> option locator -> M unit.

(** What one nested action does to the group's local frame: the body of
    the [try] in the action loop. *)
Definition group_dispatch (tolerated : bool) (action : dict) (a_type : json)
    (local_frame : option frame_ref) (p : locator) : M (option frame_ref) :=
  match kind_of a_type with
  | KClick => exec_step_click budget action local_frame (Some p);; ret local_frame
  | KWrite => exec_step_write action local_frame (Some p);; ret local_frame
  | KScroll => exec_step_scroll action local_frame (Some p);; ret local_frame
  | KArray => exec_step_array action local_frame (Some p);; ret local_frame
  | KGroupAction => exec_group action local_frame (Some p);; ret local_frame
  | KDownloadFromLink =>
      exec_step_download_from_link action local_frame (Some p);; ret local_frame
  | KDownloadPage => exec_step_download_page action;; ret local_frame
  | KUseLastTab => exec_step_use_last_tab action;; ret local_frame
  | KGoto => exec_step_goto action;; ret None
  | KFrame => f <- exec_step_frame action;; ret (Some f)
  | KMainFrame => exec_step_main_frame
  | KUnsupported =>
      if tolerated then
        warning "[group_action] Unsupported nested action type but ignoring:" [a_type];;
        ret local_frame
      else
        raise (RuntimeError "[group_action] Unsupported nested action type:" [a_type])
  end.

(** One nested action of the list, for parent [p] of index [i]: the body
    of the action loop.  It yields the local frame for the next action. *)
Definition group_nested_action (ignore_error : bool) (p : locator) (i j : Z)
    (action : json) (local_frame : option frame_ref) : M (option frame_ref) :=
  match action with
  | JObj a =>
      let a_title := get_key a "title" ["Title"]
                       (JStr ("group_action action #" ++ string_of_Z j)) in
      let a_type := get_key a "type" [] JNull in
      if negb (truthy a_type) then
        warning "[group_action] Missing 'type' in nested action, skipping." [];;
        ret local_frame
      else
        info "[group_action] Parent - Action" [JNum i; JNum j; a_title; a_type];;
        let action_ignore := truthy (get_key a "ignore" [] (JBool false)) in
        try_except
          (group_dispatch (action_ignore || ignore_error) a a_type local_frame p)
          (fun e =>
             if action_ignore || ignore_error then
               warning "[group_action] Nested action failed but ignoring:"
                 [a_title; JStr (exn_text e)];;
               ret local_frame
             else raise e)
  | _ => raise (PyError "TypeError")
  end.

Fixpoint group_actions_loop (ignore_error : bool) (p : locator) (i j : Z)
    (actions : list json) (local_frame : option frame_ref)
    : M (option frame_ref) :=
  match actions with
  | [] => ret local_frame
  | action :: rest =>
      local_frame' <- group_nested_action ignore_error p i j action local_frame;;
      group_actions_loop ignore_error p i (j + 1) rest local_frame'
  end.

(** A parent is waited for and scrolled to; neither can fail the step. *)
Definition group_visit (p : locator) (i : Z) (timeout : pyfloat) : M unit :=
  info "[group_action] Processing parent index" [JNum i];;
  try_except (call_env (WaitVisible p timeout)) (fun _ => ret tt);;
  try_except (call_env (ScrollIntoView p)) (fun _ => ret tt).

Fixpoint group_parents_loop (ignore_error : bool) (timeout : pyfloat)
    (parents : locator) (current_frame : option frame_ref)
    (actions : list json) (parent_indices : list Z) : M unit :=
  match parent_indices with
  | [] => ret tt
  | i :: rest =>
      let p := Nth parents i in
      group_visit p i timeout;;
      (* local_frame = current_frame *)
      group_actions_loop ignore_error p i 1 actions current_frame;;
      group_parents_loop ignore_error timeout parents current_frame actions rest
  end.

Definition group_body (step : dict) (current_frame : option frame_ref)
    (parent : option locator) : M unit :=
  let tag := get_key step "tag" [] JNull in
  let attr := get_key step "attr" ["arrt"; "attribute"] JNull in
  let value := get_key step "value" [] JNull in
  let cls := get_key step "class" [] JNull in
  let filter_text := get_key step "if_find_text_inside" [] JNull in
  let parent_idx := to_int_or_none (get_key step "array_select_one" [] JNull) in
  let ignore_error := truthy (get_key step "ignore" [] (JBool false)) in
  timeout <- lift (py_float (get_key step "timeout" [] (JNum 35000)));;
  parent_selector <- lift (build_css_selector tag cls attr value);;
  let root := get_locator_root current_frame parent in
  let parents := locate root parent_selector filter_text in
  total <- call_env (Count parents);;
  if Nat.eqb total 0 then
    if ignore_error then
      warning "No parent elements found for group_action but ignoring:"
        [JStr parent_selector]
    else
      raise (no_parents_error "No parent elements found for group_action selector:"
               parent_selector filter_text)
  else
    info "group_action: found parent element(s) for:"
      [JNum (Z.of_nat total); JStr parent_selector];;
    selected <- select_parents "group_action " ignore_error parent_idx total;;
    match selected with
    | None => ret tt
    | Some parent_indices =>
        match get_key step "actions" ["steps"] (JList []) with
        | JList (a :: rest) =>
            group_parents_loop ignore_error timeout parents current_frame
              (a :: rest) parent_indices;;
            step_sleep (get_key step "sleep" [] JNull)
        | _ => raise (RuntimeError "group_action requires non-empty actions array." [])
        end
    end.

End GroupBody.

Fixpoint exec_step_group_action (fuel : nat) (step : dict)
    (current_frame : option frame_ref) (parent : option locator) : M unit :=
  match fuel with
  | O => raise RecursionError
  | S n => group_body n (exec_step_group_action n) step current_frame parent
  end.

(** *** Run loop *)

(** The dispatch of the run loop: the body of its [try].  It yields the
    frame carried to the next step. *)
Definition run_dispatch (fuel : nat) (ignore_error : bool) (step : dict)
    (stype : json) (current_frame : option frame_ref) : M (option frame_ref) :=
  match kind_of stype with
  | KGoto => exec_step_goto step;; ret None
  | KClick => exec_step_click fuel step current_frame None;; ret current_frame
  | KArray => exec_step_array step current_frame None;; ret current_frame
  | KGroupAction =>
      exec_step_group_action fuel step current_frame None;; ret current_frame
  | KFrame => f <- exec_step_frame step;; ret (Some f)
  | KMainFrame => exec_step_main_frame
  | KWrite => exec_step_write step current_frame None;; ret current_frame
  | KUseLastTab => exec_step_use_last_tab step;; ret current_frame
  | KScroll => exec_step_scroll step current_frame None;; ret current_frame
  | KDownloadFromLink =>
      exec_step_download_from_link step current_frame None;; ret current_frame
  | KDownloadPage => exec_step_download_page step;; ret current_frame
  | KUnsupported =>
      if ignore_error then
        warning "Unsupported step type but ignoring:" [stype];;
        ret current_frame
      else raise (RuntimeError "Unsupported step type:" [stype])
  end.

(** One turn of the run loop. *)
Definition run_step (fuel : nat) (idx : Z) (current_frame : option frame_ref)
    (step : json) : M (option frame_ref) :=
  match step with
  | JObj d =>
      let title := get_key d "title" ["Title"] (JStr ("Step #" ++ string_of_Z idx)) in
      let stype := get_key d "type" [] JNull in
      let ignore_error := truthy (get_key d "ignore" [] (JBool false)) in
      info "--- Step" [JNum idx; title];;
      emit (Print "[Step" [JNum idx; title]);;
      if negb (truthy stype) then
        if ignore_error then
          warning "Missing 'type' in step, but ignoring error." [];;
          ret current_frame
        else raise (RuntimeError "Missing type in step." [])
      else
        try_except
          (run_dispatch fuel ignore_error d stype current_frame)
          (fun e =>
             if ignore_error then
               warning "Step failed but ignoring:" [title; JStr (exn_text e)];;
               emit (Print "[WARNING]" [title; JStr (exn_text e)]);;
               ret current_frame
             else
               error "Step failed:" [title; JStr (exn_text e)];;
               emit (Print "[ERROR]" [title; JStr (exn_text e)]);;
               raise e)
  | _ => raise (PyError "TypeError")
  end.

(** The loop over the workflow; it yields the frame it ends with. *)
Fixpoint run_loop (fuel : nat) (idx : Z) (current_frame : option frame_ref)
    (workflow : list json) : M (option frame_ref) :=
  match workflow with
  | [] => ret current_frame
  | step :: rest =>
      current_frame' <- run_step fuel idx current_frame step;;
      run_loop fuel (idx + 1) current_frame' rest
  end.

(** [try: body / finally: cleanup] *)
Definition try_finally {A : Type} (body : M A) (cleanup : M unit) : M A :=
  fun h =>
    match body h with
    | (Ret a, h') =>
        match cleanup h' with
        | (Ret _, h'') => (Ret a, h'')
        | (Raise e, h'') => (Raise e, h'')
        end
    | (Raise e, h') =>
        match cleanup h' with
        | (Ret _, h'') => (Raise e, h'')
        | (Raise e', h'') => (Raise e', h'')
        end
    end.

(** The optional initial navigation of [run]. *)
Definition initial_goto (start_url : json) : M unit :=
  if truthy start_url then
    info "Initial goto:" [start_url];;
    call_env (PageGoto start_url)
  else ret tt.

(** [run], from the point where the browser is up and the page is
    open.  The recursion budget is the nesting depth of the workflow. *)
Definition run (workflow : list json) (start_url : json) : M unit :=
  try_finally
    (initial_goto start_url;;
     run_loop (S (json_depth (JList workflow))) 1 None workflow;;
     info "=== Workflow completed successfully ===" [];;
     emit (Print "Workflow completed successfully." []))
    (emit (Input "Press Enter to close the browser...")).

(** [main], from the parsed workflow document; it yields the exit code of
    the process. *)
Definition main (wf : json) (url : json) : M Z :=
  match wf with
  | JList workflow =>
      try_except
        (run workflow url;; ret 0)
        (fun e =>
           error "Run aborted:" [JStr (exn_text e)];;
           emit (Print "[FATAL] Run aborted:" [JStr (exn_text e)]);;
           ret 1)
  | _ =>
      error "Failed to load workflow JSON:" [];;
      emit (Print "[ERROR] Failed to load workflow JSON:" []);;
      ret 1
  end.

End Interpreter.

Arguments call_env env {R} c h.

(* ================================================================== *)
(** ** Scenarios *)

(** A surface on which every action succeeds: selectors match as [count]
    says, the page has the frames [frames]. *)
Definition plain_answers (count : history -> locator -> nat)
    (frames : list frame) (R : Type) (h : history) (c : call R) : fault + R :=
  match c in call R return fault + R with
  | PageGoto _ => inr tt
  | Count l => inr (count h l)
  | WaitVisible _ _ => inr tt
  | ScrollIntoView _ => inr tt
  | GetAttribute _ _ => inr JNull
  | Click _ _ => inr tt
  | WaitLoadState _ _ => inr tt
  | ClearField _ => inr tt
  | TypeKey _ _ => inr tt
  | RandInt lo _ => inr lo
  | FrameByName _ => inr None
  | Frames => inr frames
  | Tabs => inr []
  | BringToFront _ => inr tt
  | ScrollTo _ _ => inr tt
  | Getcwd => inr "."
  | Makedirs _ => inr tt
  | ClickExpectingDownload _ _ => inr "download.bin"
  | SaveDownload _ _ => inr tt
  | PageUrlBasename => inr "page"
  | PageContent => inr "<html></html>"
  | InnerText _ => inr ""
  | WriteFile _ _ _ => inr tt
  end.

Definition plain_env (count : history -> locator -> nat) (frames : list frame)
    : runtime :=
  mkRuntime (plain_answers count frames)
    (fun _ => false) (fun _ => false) (fun _ => "") (fun _ _ => None).

(** The selector [sel] matches nothing on the page; any other selector
    matches one element. *)
Definition only_missing (sel : string) : history -> locator -> nat :=
  fun _ l =>
    match l with
    | Locate Page s => if String.eqb s sel then 0%nat else 1%nat
    | _ => 1%nat
    end.

(** A tolerant click on a link that is not there, then a click on a
    button that is. *)
Definition tolerant_click_workflow : list json :=
  [JObj [("type", JStr "click"); ("tag", JStr "a"); ("ignore", JBool true)];
   JObj [("type", JStr "click"); ("tag", JStr "button")]].

(** Every selector matches [n] elements. *)
Definition always (n : nat) : history -> locator -> nat := fun _ _ => n.

(** The JSON value of an optional string. *)
Definition of_option (o : option string) : json :=
  match o with
  | Some s => JStr s
  | None => JNull
  end.

(** How many of the four frame locator fields a frame step holds. *)
Definition frame_fields_present (step : dict) : nat :=
  length (filter (fun k => match dict_get step k with Some _ => true | None => false end)
            ["selector"; "name"; "url"; "index"]).

(** Scenario C: a page with two frames. *)
Definition checkout_frames : list frame :=
  [mkFrame 0 "" "https://a/x"; mkFrame 1 "" "https://b/checkout/y"].

(** The clicks a stretch of history holds: target and timeout. *)
Fixpoint clicks_of (tr : history) : list (locator * option pyfloat) :=
  match tr with
  | [] => []
  | Called (Click l t) :: r => (l, t) :: clicks_of r
  | _ :: r => clicks_of r
  end.

(** The fields a child entry of an array step may carry without the
    array step reading them. *)
Definition unread_child_fields : list string :=
  ["array_select_one"; "index"; "timeout"].

(** A click step with a condition and one alternate click. *)
Definition click_with_alternate : dict :=
  [("type", JStr "click"); ("tag", JStr "button");
   ("if", JObj [("status", JStr "found"); ("tag", JStr "div");
                ("click", JList [JObj [("tag", JStr "a")]])])].

(** What the run loop logs before it dispatches step [idx] of record
    [d], and after the step failed. *)
Definition step_title (idx : Z) (d : dict) : json :=
  get_key d "title" ["Title"] (JStr ("Step #" ++ string_of_Z idx)).

Definition step_header (idx : Z) (d : dict) : history :=
  [Emitted (Log LInfo "--- Step" [JNum idx; step_title idx d]);
   Emitted (Print "[Step" [JNum idx; step_title idx d])].

Definition step_failed (idx : Z) (d : dict) (e : exn) : history :=
  [Emitted (Log LError "Step failed:" [step_title idx d; JStr (exn_text e)]);
   Emitted (Print "[ERROR]" [step_title idx d; JStr (exn_text e)])].

Definition step_ignored (idx : Z) (d : dict) (e : exn) : history :=
  [Emitted (Log LWarning "Step failed but ignoring:"
              [step_title idx d; JStr (exn_text e)]);
   Emitted (Print "[WARNING]" [step_title idx d; JStr (exn_text e)])].

(** How an aborted run ends: the operator is waited for, the failure is
    reported. *)
Definition run_aborted (e : exn) : history :=
  [Emitted (Input "Press Enter to close the browser...");
   Emitted (Log LError "Run aborted:" [JStr (exn_text e)]);
   Emitted (Print "[FATAL] Run aborted:" [JStr (exn_text e)])].

(** How a completed run ends. *)
Definition run_completed : history :=
  [Emitted (Log LInfo "=== Workflow completed successfully ===" []);
   Emitted (Print "Workflow completed successfully." []);
   Emitted (Input "Press Enter to close the browser...")].

(** A workflow whose first step is a tolerant goto without a URL. *)
Definition tolerant_goto_workflow : list json :=
  [JObj [("type", JStr "goto"); ("ignore", JBool true)];
   JObj [("type", JStr "click"); ("tag", JStr "button")]].

(** The same with the default tolerance. *)
Definition strict_goto_workflow : list json :=
  [JObj [("type", JStr "goto")];
   JObj [("type", JStr "click"); ("tag", JStr "button")]].

(** The error of a goto step that names no URL. *)
Definition missing_url : exn :=
  RuntimeError "Missing value or url for goto step." [].

(** What a group logs before it dispatches nested action [j] of record
    [a] under the parent of index [i]. *)
Definition action_title (j : Z) (a : dict) : json :=
  get_key a "title" ["Title"] (JStr ("group_action action #" ++ string_of_Z j)).

Definition action_header (i j : Z) (a : dict) : history :=
  [Emitted (Log LInfo "[group_action] Parent - Action"
              [JNum i; JNum j; action_title j a; get_key a "type" [] JNull])].

Definition action_ignored (j : Z) (a : dict) (e : exn) : history :=
  [Emitted (Log LWarning "[group_action] Nested action failed but ignoring:"
              [action_title j a; JStr (exn_text e)])].

(** The parents of a group step, from the root it is resolved in. *)
Definition group_parents (env : runtime) (g : dict) (root : locator)
    : outcome locator :=
  match build_css_selector env (get_key g "tag" [] JNull)
          (get_key g "class" [] JNull)
          (get_key g "attr" ["arrt"; "attribute"] JNull)
          (get_key g "value" [] JNull) with
  | Ret sel => Ret (locate root sel (get_key g "if_find_text_inside" [] JNull))
  | Raise e => Raise e
  end.

(** What a group logs once its parents are counted. *)
Definition group_found (env : runtime) (g : dict) (total : nat) : history :=
  match build_css_selector env (get_key g "tag" [] JNull)
          (get_key g "class" [] JNull)
          (get_key g "attr" ["arrt"; "attribute"] JNull)
          (get_key g "value" [] JNull) with
  | Ret sel =>
      [Emitted (Log LInfo "group_action: found parent element(s) for:"
                  [JNum (Z.of_nat total); JStr sel])]
  | Raise _ => []
  end.

(** Scenario B: one link on the page, a click at index 2. *)
Definition index_out_of_range_workflow : list json :=
  [JObj [("type", JStr "click"); ("tag", JStr "a"); ("array_select_one", JNum 2)];
   JObj [("type", JStr "click"); ("tag", JStr "button")]].

(** Events that leave the page as it is: log and console lines, and the
    two reads (an element count, the working directory). *)
Definition passive (ev : event) : bool :=
  match ev with
  | Emitted (Log _ _ _) => true
  | Emitted (Print _ _) => true
  | Called (Count _) => true
  | Called Getcwd => true
  | _ => false
  end.

Definition is_warning (ev : event) : bool :=
  match ev with
  | Emitted (Log LWarning _ _) => true
  | _ => false
  end.

(** The steps that act on what their own selector matches: a click
    without a condition, a scroll without coordinates, and the write,
    array, group and download-from-link steps. *)
Definition resolves_by_selector (d : dict) : bool :=
  match kind_of (get_key d "type" [] JNull) with
  | KClick => negb (truthy (get_key d "if" [] JNull))
  | KScroll => is_none (get_key d "x" [] JNull) && is_none (get_key d "y" [] JNull)
  | KWrite | KArray | KGroupAction | KDownloadFromLink => true
  | _ => false
  end.

(** The locator such a step counts: its selector, in the scope given,
    filtered by its text field. *)
Definition step_locator (env : runtime) (d : dict) (cf : option frame_ref)
    (parent : option locator) : outcome locator :=
  let text :=
    match kind_of (get_key d "type" [] JNull) with
    | KArray | KGroupAction => get_key d "if_find_text_inside" [] JNull
    | _ => get_key d "text" [] JNull
    end in
  match build_css_selector env (get_key d "tag" [] JNull)
          (get_key d "class" [] JNull)
          (get_key d "attr" ["arrt"; "attribute"] JNull)
          (get_key d "value" [] JNull) with
  | Ret sel => Ret (locate (get_locator_root cf parent) sel text)
  | Raise e => Raise e
  end.

(** A stretch of a run that did nothing to the page, and that logged a
    warning if it ended normally. *)
Definition quiet {A : Type} (r : outcome A * history) (h : history) : Prop :=
  exists tr : history,
    snd r = (h ++ tr)%list
    /\ forallb passive tr = true
    /\ (forall a, fst r = Ret a -> existsb is_warning tr = true).

(** A group whose nested actions switch to a frame and then click. *)
Definition frame_then_click_actions : list json :=
  [JObj [("type", JStr "frame"); ("selector", JStr "#pay")];
   JObj [("type", JStr "click"); ("tag", JStr "button")]].

(** Three group steps, one inside the other, around a click. *)
Definition innermost_click : dict :=
  [("type", JStr "click"); ("tag", JStr "b")].

Definition level3 : dict :=
  [("type", JStr "group_action"); ("tag", JStr "l3");
   ("actions", JList [JObj innermost_click])].

Definition level2 : dict :=
  [("type", JStr "group_action"); ("tag", JStr "l2");
   ("actions", JList [JObj level3])].

Definition level1 : dict :=
  [("type", JStr "group_action"); ("tag", JStr "l1");
   ("actions", JList [JObj level2])].

(** The element the innermost click acts on under parents [i1], [i2],
    [i3] of the three levels. *)
Definition innermost_target (i1 i2 i3 : Z) : locator :=
  Nth (Locate (Nth (Locate (Nth (Locate (Nth (Locate Page "l1") i1) "l2") i2)
                      "l3") i3) "b") 0.

(** The parents of three levels of two, in parent-major order. *)
Definition parent_major_order : list (Z * Z * Z) :=
  [(0, 0, 0); (0, 0, 1); (0, 1, 0); (0, 1, 1);
   (1, 0, 0); (1, 0, 1); (1, 1, 0); (1, 1, 1)].

(* ================================================================== *)
(** ** Notions used by the further properties *)

(** No character of [s] is white space. *)
Fixpoint no_blank (s : string) : bool :=
  match s with
  | EmptyString => true
  | String c r => negb (PyStr.is_space c) && no_blank r
  end.

(** No character of [s] is one a file name cannot hold. *)
Fixpoint clean_name (s : string) : bool :=
  match s with
  | EmptyString => true
  | String c r => negb (unsafe_char c) && clean_name r
  end.

(** What [.strip()] can be called on: a string, or a value the guard
    before it replaces ([None], [0], [False], an empty list or dict). *)
Definition strippable (j : json) : bool :=
  negb (truthy j) || match j with JStr _ => true | _ => false end.

(** Events that only write to the log. *)
Definition is_log (ev : event) : bool :=
  match ev with
  | Emitted (Log _ _ _) => true
  | _ => false
  end.

(** The keys sent to the page in a stretch of history: element and key. *)
Fixpoint keys_sent (tr : history) : list (locator * json) :=
  match tr with
  | [] => []
  | Called (TypeKey l ch) :: r => (l, ch) :: keys_sent r
  | _ :: r => keys_sent r
  end.

(** The text a sequence of one-character keys spells. *)
Fixpoint text_of_keys (keys : list json) : string :=
  match keys with
  | [] => ""
  | JStr s :: r => (s ++ text_of_keys r)%string
  | _ :: r => text_of_keys r
  end.

(** A condition record whose [status] field, after the fields [c1] and
    before the fields [c2], holds the given status. *)
Definition with_status (status : string) (c1 c2 : dict) : json :=
  JObj (c1 ++ ("status", JStr status) :: c2)%list.

(** A workflow entry that is a record. *)
Definition is_record (j : json) : bool :=
  match j with
  | JObj _ => true
  | _ => false
  end.

(** A step record whose tolerance flag is true. *)
Definition tolerant_step (j : json) : bool :=
  match j with
  | JObj d => truthy (get_key d "ignore" [] (JBool false))
  | _ => false
  end.

(** What [main] reports when the workflow document is not a list. *)
Definition load_failed : history :=
  [Emitted (Log LError "Failed to load workflow JSON:" []);
   Emitted (Print "[ERROR] Failed to load workflow JSON:" [])].

(** The element an event acts on: waits for, scrolls to, reads, clicks,
    clears or types into. *)
Definition element_of (ev : event) : option locator :=
  match ev with
  | Called (WaitVisible l _) => Some l
  | Called (ScrollIntoView l) => Some l
  | Called (GetAttribute l _) => Some l
  | Called (Click l _) => Some l
  | Called (ClearField l) => Some l
  | Called (TypeKey l _) => Some l
  | Called (ClickExpectingDownload l _) => Some l
  | _ => None
  end.

(** A single element, picked from what a locator matches by an index
    that is not negative. *)
Definition indexed (l : locator) : bool :=
  match l with
  | Nth _ i => 0 <=? i
  | _ => false
  end.

(** The name of the file an event writes. *)
Definition file_written (ev : event) : option string :=
  match ev with
  | Called (SaveDownload _ name) => Some name
  | Called (WriteFile _ name _) => Some name
  | _ => None
  end.

(** The event waits for the operator. *)
Definition is_prompt (ev : event) : bool :=
  match ev with
  | Emitted (Input _) => true
  | _ => false
  end.

(** The messages of the [except PWTimeout] handlers of the click and
    array steps. *)
Definition click_timeout_message (msg : string) : bool :=
  existsb (String.eqb msg)
    ["Timeout waiting for element but ignoring:";
     "Timeout waiting for element:";
     "Timeout waiting for child element but ignoring:";
     "Timeout waiting for child element:"].

(** The event is a log line of one of these handlers. *)
Definition reports_click_timeout (ev : event) : bool :=
  match ev with
  | Emitted (Log _ msg _) => click_timeout_message msg
  | _ => false
  end.

(** The exception is the error of one of these handlers. *)
Definition is_click_timeout_error (e : exn) : bool :=
  match e with
  | RuntimeError msg _ => click_timeout_message msg
  | _ => false
  end.

(** The event acts on no element, or on an indexed one. *)
Definition acts_on_indexed (ev : event) : bool :=
  match element_of ev with
  | Some l => indexed l
  | None => true
  end.

(** The event writes no file, or one whose name is not empty and holds
    none of the characters a file name cannot hold. *)
Definition named_safely (ev : event) : bool :=
  match file_written ev with
  | Some name => clean_name name && negb (PyStr.is_empty name)
  | None => true
  end.

(** The event saves no page, or saves it under a name that ends in
    [.html] or [.txt], in any case. *)
Definition page_named (ev : event) : bool :=
  match ev with
  | Called (WriteFile _ name _) =>
      PyStr.endswith ".html" (PyStr.lower name)
      || PyStr.endswith ".txt" (PyStr.lower name)
  | _ => true
  end.

(** What holds of every event of the step loop. *)
Definition orderly (ev : event) : bool :=
  acts_on_indexed ev && named_safely ev && page_named ev
  && negb (is_prompt ev) && negb (reports_click_timeout ev).

(** A computation whose events are all orderly and that does not raise
    the error of a click timeout handler. *)
Definition keeps {A : Type} (m : M A) : Prop :=
  forall h : history,
    exists tr : history,
      snd (m h) = (h ++ tr)%list
      /\ forallb orderly tr = true
      /\ (forall e : exn, fst (m h) = Raise e -> is_click_timeout_error e = false).

(** An outcome that, when an exception, is a Python built-in one. *)
Definition builtin_error {A : Type} (o : outcome A) : Prop :=
  forall e : exn, o = Raise e -> exists cls : string, e = PyError cls.

(** The name a page is saved under: clean, not empty, and with the
    extension of the mode. *)
Definition page_name_ok (ext name : string) : Prop :=
  clean_name name && negb (PyStr.is_empty name) = true
  /\ PyStr.endswith (PyStr.lower ext) (PyStr.lower name) = true.

(** The prompt [run] ends with. *)
Definition closing_prompt : event :=
  Emitted (Input "Press Enter to close the browser...").

(** A page on which nothing fails and every locator matches something. *)
Definition obliging (env : runtime) : Prop :=
  (forall (R : Type) (h : history) (c : call R),
      exists r : R, respond env h c = inr r)
  /\ (forall (h : history) (l : locator), respond env h (Count l) <> inr 0%nat).

(** The selector of a record: what the builder makes of its tag, class,
    attribute and value fields. *)
Definition selector_of (env : runtime) (c : dict) : outcome string :=
  build_css_selector env (get_key c "tag" [] JNull) (get_key c "class" [] JNull)
    (get_key c "attr" ["arrt"; "attribute"] JNull) (get_key c "value" [] JNull).

(** A child entry of an array step that can be resolved: a record whose
    selector builds and whose text filter, if any, is a string. *)
Definition resolvable_child (env : runtime) (child : json) : bool :=
  match child with
  | JObj c =>
      match selector_of env c, has_text_suffix (get_key c "text" [] JNull) with
      | Ret _, Ret _ => true
      | _, _ => false
      end
  | _ => false
  end.

(** The element a child entry stands for under parent [p]. *)
Definition child_target (env : runtime) (p : locator) (child : json) : locator :=
  match child with
  | JObj c =>
      match selector_of env c with
      | Ret sel => Nth (locate p sel (get_key c "text" [] JNull)) 0
      | Raise _ => p
      end
  | _ => p
  end.

(** The clicks of an array step over the parents of the given indices:
    for each parent in turn, each child entry in turn. *)
Definition array_schedule (env : runtime) (parents : locator)
    (clicks : list json) (timeout : pyfloat) (parent_indices : list Z)
    : list (locator * option pyfloat) :=
  flat_map
    (fun i => map (fun child => (child_target env (Nth parents i) child,
                                 Some timeout)) clicks)
    parent_indices.

(** The pause a record asks for can be made: whenever it is asked
    for, [step_sleep] on the duration returns. *)
Definition pauses (env : runtime) (seconds : json) : Prop :=
  forall h : history, fst (step_sleep env seconds h) = Ret tt.

(** The same, of the [sleep] of a child entry. *)
Definition child_pauses (env : runtime) (child : json) : Prop :=
  match child with
  | JObj c => pauses env (get_key c "sleep" [] JNull)
  | _ => True
  end.

(** An array step over list items, with two child clicks and pauses. *)
Definition two_clicks_per_item : dict :=
  [("type", JStr "array"); ("tag", JStr "li"); ("sleep", JNum 1);
   ("click", JList [JObj [("tag", JStr "a")];
                    JObj [("tag", JStr "button"); ("text", JStr "Ok");
                          ("sleep", JNum 2)]])].

(** An array step whose first child entry asks for a pause the clock
    cannot hold. *)
Definition overlong_pause_per_item : dict :=
  [("type", JStr "array"); ("tag", JStr "li");
   ("click", JList [JObj [("tag", JStr "a"); ("sleep", JNum 10000000000)];
                    JObj [("tag", JStr "button")]])].

(** A write step. *)
Definition write_hello : dict :=
  [("type", JStr "write"); ("tag", JStr "input"); ("write", JStr "hi there")].

(* ================================================================== *)
(** ** Notions of conditional clicks, group frames and nested groups *)

(** The entries of a list that are records. *)
Fixpoint records_of (l : list json) : list dict :=
  match l with
  | [] => []
  | JObj a :: rest => a :: records_of rest
  | _ :: rest => records_of rest
  end.

(** The alternates of a condition that can be run: the records of its
    [click] list. *)
Definition alternate_records (condition : json) : list dict :=
  records_of (alternate_clicks condition).

(** The alternate path in the specification's words: each alternate in
    turn, announced and run as a click step of its own. *)
Fixpoint run_alternates
    (exec_click : dict -> option frame_ref -> option locator -> M unit)
    (records : list dict) (current_frame : option frame_ref)
    (parent : option locator) : M unit :=
  match records with
  | [] => ret tt
  | a :: rest =>
      info "Executing alternative click due to condition" [];;
      exec_click a current_frame parent;;
      run_alternates exec_click rest current_frame parent
  end.

(** Two click steps whose primary clicks read the same values. *)
Definition same_primary_fields (s s' : dict) : Prop :=
  get_key s "tag" [] JNull = get_key s' "tag" [] JNull
  /\ get_key s "attr" ["arrt"; "attribute"] JNull
     = get_key s' "attr" ["arrt"; "attribute"] JNull
  /\ get_key s "value" [] JNull = get_key s' "value" [] JNull
  /\ get_key s "class" [] JNull = get_key s' "class" [] JNull
  /\ get_key s "text" [] JNull = get_key s' "text" [] JNull
  /\ get_key s "array_select_one" [] JNull = get_key s' "array_select_one" [] JNull
  /\ get_key s "ignore" [] (JBool false) = get_key s' "ignore" [] (JBool false)
  /\ get_key s "timeout" [] (JNum 45000) = get_key s' "timeout" [] (JNum 45000)
  /\ get_key s "sleep" [] JNull = get_key s' "sleep" [] JNull.

(** The log line of a condition's result. *)
Definition condition_result (met : bool) : event :=
  Emitted (Log LInfo "Condition check result:" [JBool met]).

(** A click step whose condition holds on a page with a [div], with the
    given alternates, if any. *)
Definition click_if_div_found (alternates : option json) : dict :=
  [("type", JStr "click"); ("tag", JStr "button");
   ("if", JObj ([("status", JStr "found"); ("tag", JStr "div")]
                ++ match alternates with
                   | Some x => [("click", x)]
                   | None => []
                   end)%list)].

(** Two results of a nested action that differ at most in the frame they
    hand on: the same history, and the same error if any. *)
Definition same_but_frame (r r' : outcome (option frame_ref) * history) : Prop :=
  snd r = snd r'
  /\ match fst r, fst r' with
     | Ret _, Ret _ => True
     | Raise e, Raise e' => e = e'
     | _, _ => False
     end.

(** A click on a button, as a nested action and as a step. *)
Definition click_button : dict :=
  [("type", JStr "click"); ("tag", JStr "button")].

(** A list item of the page, as the parent of nested actions. *)
Definition first_item : locator := Nth (Locate Page "li") 0.

(** A page on which nothing fails, and on which a locator matches as
    many elements as [count] says, whenever it is counted: at least
    one. *)
Definition steady (env : runtime) (count : locator -> nat) : Prop :=
  obliging env
  /\ forall (h : history) (l : locator), respond env h (Count l) = inr (count l).

(** The timeout a click step gives its click. *)
Definition click_timeout (env : runtime) (a : dict) : option pyfloat :=
  match py_float env (get_key a "timeout" [] (JNum 45000)) with
  | Ret t => Some t
  | Raise _ => None
  end.

(** A click that needs no more than a page that answers: it has no
    condition and no index, its selector builds, its text filter, if
    any, is a string, its timeout is a number and its pause can be
    made. *)
Definition plain_click (env : runtime) (a : dict) : Prop :=
  truthy (get_key a "if" [] JNull) = false
  /\ resolvable_child env (JObj a) = true
  /\ to_int_or_none (get_key a "array_select_one" [] JNull) = None
  /\ click_timeout env a <> None
  /\ pauses env (get_key a "sleep" [] JNull).

(** A nested action of a plain group: a plain click, for which one
    level of recursion is left, or a group that is plain in turn. *)
Definition plain_action (env : runtime) (nested : dict -> Prop) (budget : nat)
    (action : json) : Prop :=
  match action with
  | JObj a =>
      match kind_of (get_key a "type" [] JNull) with
      | KClick => budget <> 0%nat /\ plain_click env a
      | KGroupAction => nested a
      | _ => False
      end
  | _ => False
  end.

(** A group of clicks and groups, to any depth within the recursion
    budget: at each level the selector builds, the timeout is a number,
    no parent is singled out, the pause can be made and the action list
    is not empty. *)
Fixpoint plain_group (env : runtime) (fuel : nat) (g : dict) {struct fuel}
    : Prop :=
  match fuel with
  | O => False
  | S n =>
      (exists sel : string, selector_of env g = Ret sel)
      /\ (exists t : pyfloat,
             py_float env (get_key g "timeout" [] (JNum 35000)) = Ret t)
      /\ to_int_or_none (get_key g "array_select_one" [] JNull) = None
      /\ pauses env (get_key g "sleep" [] JNull)
      /\ match get_key g "actions" ["steps"] (JList []) with
         | JList (a :: rest) =>
             Forall (plain_action env (plain_group env n) n) (a :: rest)
         | _ => False
         end
  end.

(** The clicks of one nested action under parent [p]: the click itself,
    on element 0 of what its selector matches in the parent, or the
    clicks of the nested group. *)
Definition action_schedule (env : runtime)
    (nested : dict -> locator -> list (locator * option pyfloat))
    (p : locator) (action : json) : list (locator * option pyfloat) :=
  match action with
  | JObj a =>
      match kind_of (get_key a "type" [] JNull) with
      | KClick => [(child_target env p action, click_timeout env a)]
      | KGroupAction => nested a p
      | _ => []
      end
  | _ => []
  end.

(** Parent-major, action-minor order: for each parent the group's
    selector matches under [root], in ascending order, each action of
    the list in the order listed, a nested group contributing its own
    schedule under that parent. *)
Fixpoint group_schedule (env : runtime) (count : locator -> nat) (fuel : nat)
    (g : dict) (root : locator) {struct fuel} : list (locator * option pyfloat) :=
  match fuel with
  | O => []
  | S n =>
      match selector_of env g with
      | Ret sel =>
          let parents :=
            locate root sel (get_key g "if_find_text_inside" [] JNull) in
          flat_map
            (fun i : Z =>
               flat_map
                 (action_schedule env (group_schedule env count n) (Nth parents i))
                 (as_list (get_key g "actions" ["steps"] (JList []))))
            (range (count parents))
      | Raise _ => []
      end
  end.

(** The parents of a group under [root]. *)
Definition parents_of (env : runtime) (g : dict) (root : locator) : locator :=
  match selector_of env g with
  | Ret sel => locate root sel (get_key g "if_find_text_inside" [] JNull)
  | Raise _ => root
  end.

(** A group over list items with three actions: a click, a group over
    the [div]s of the item, a click. *)
Definition mixed_group : dict :=
  [("type", JStr "group_action"); ("tag", JStr "li");
   ("actions",
    JList [JObj [("type", JStr "click"); ("tag", JStr "a")];
           JObj [("type", JStr "group_action"); ("tag", JStr "div");
                 ("actions", JList [JObj [("type", JStr "click");
                                          ("tag", JStr "b")]])];
           JObj [("type", JStr "click"); ("tag", JStr "c")]])].

(* ================================================================== *)
(** * Properties *)

(** ** Tolerant key lookup *)

Section KeyLookup.

Lemma dict_get_find (d : dict) (k : string) :
  dict_get d k = option_map snd (find (fun kv => String.eqb (fst kv) k) d).
Proof.
  induction d as [|[k' v] r IH]; simpl; [reflexivity|].
  destruct (String.eqb k' k); [reflexivity|exact IH].
Qed.

Lemma dict_get_present (d : dict) (k : string) :
  existsb (fun kv => String.eqb (fst kv) k) d = true ->
  exists v, dict_get d k = Some v.
Proof.
  induction d as [|[k' v] r IH]; simpl; [discriminate|].
  destruct (String.eqb k' k); [eauto|exact IH].
Qed.

Lemma dict_get_absent (d : dict) (k : string) :
  existsb (fun kv => String.eqb (fst kv) k) d = false ->
  dict_get d k = None.
Proof.
  induction d as [|[k' v] r IH]; simpl; [reflexivity|].
  destruct (String.eqb k' k); [discriminate|exact IH].
Qed.

Lemma get_alts_find (d : dict) (alts : list string) :
  get_alts d alts =
  match find (fun a => existsb (fun kv => String.eqb (fst kv) a) d) alts with
  | Some a => dict_get d a
  | None => None
  end.
Proof.
  induction alts as [|a r IH]; simpl; [reflexivity|].
  destruct (existsb (fun kv => String.eqb (fst kv) a) d) eqn:E.
  - destruct (dict_get_present d a E) as [v ->]. reflexivity.
  - rewrite (dict_get_absent d a E). exact IH.
Qed.

Lemma get_alts_some_present (d : dict) (alts : list string) (a : string) :
  find (fun a => existsb (fun kv => String.eqb (fst kv) a) d) alts = Some a ->
  exists v, dict_get d a = Some v.
Proof.
  intros H. apply find_some in H. destruct H as [_ H].
  now apply dict_get_present.
Qed.

Lemma get_nocase_find (d : dict) (key : string) :
  get_nocase d key =
  option_map snd
    (find (fun kv => String.eqb (PyStr.lower (fst kv)) (PyStr.lower key)) d).
Proof.
  induction d as [|[k' v] r IH]; simpl; [reflexivity|].
  destruct (String.eqb (PyStr.lower k') (PyStr.lower key)); [reflexivity|exact IH].
Qed.

Lemma get_key_refines_spec (d : dict) (key : string) (alts : list string)
    (default : json) :
  get_key d key alts default = get_key_spec d key alts default.
Proof.
  unfold get_key, get_key_spec.
  rewrite dict_get_find.
  destruct (find (fun kv => String.eqb (fst kv) key) d) as [kv|]; simpl;
    [reflexivity|].
  rewrite get_alts_find.
  destruct (find (fun a => existsb (fun kv => String.eqb (fst kv) a) d) alts)
    as [a|] eqn:Ea.
  - destruct (get_alts_some_present d alts Ea) as [v Hv].
    rewrite Hv. rewrite dict_get_find in Hv.
    destruct (find (fun kv => String.eqb (fst kv) a) d); simpl in *;
      congruence.
  - rewrite get_nocase_find.
    destruct (find _ d); reflexivity.
Qed.

(** C9.  The tolerant key lookup resolves a field in the order: exact
    primary key, each alias in the order given, a scan of the keys up to
    case, else the default.  It is a total function on records, so
    absence yields the default and nothing is raised; in particular
    [get({"Title": "t"}, "title") = "t"],
    [get({"arrt": "href"}, "attr", "arrt", "attribute") = "href"] and
    [get({}, "x", default=5) = 5]. *)
Theorem get_key_resolution_order :
  forall (d : dict) (key : string) (alts : list string) (default : json),
    get_key d key alts default = get_key_spec d key alts default
    /\ get_key [] key alts default = default
    /\ get_key [("Title", JStr "t")] "title" [] JNull = JStr "t"
    /\ get_key [("arrt", JStr "href")] "attr" ["arrt"; "attribute"] JNull
       = JStr "href"
    /\ get_key [] "x" [] (JNum 5) = JNum 5.
Proof.
  intros d key alts default.
  split; [apply get_key_refines_spec|].
  split.
  - unfold get_key. simpl.
    replace (get_alts [] alts) with (@None json); [reflexivity|].
    induction alts; simpl; auto.
  - repeat split; reflexivity.
Qed.

End KeyLookup.

(* ================================================================== *)
(** ** Selector builder *)

Section SelectorBuilder.

Variable env : runtime.

Lemma rstrip_dot (s : string) :
  PyStr.rstrip (String "." s) = String "." (PyStr.rstrip s).
Proof.
  simpl. rewrite andb_false_r. reflexivity.
Qed.

Lemma normalize_class_dot (s : string) :
  normalize_class_selector (JStr (String "." s))
  = Ret (String "." (PyStr.rstrip s)).
Proof.
  unfold normalize_class_selector. simpl truthy. cbv iota.
  unfold PyStr.strip.
  change (PyStr.lstrip (String "." s)) with (String "." s).
  rewrite rstrip_dot. reflexivity.
Qed.

Lemma normalize_class_total (cls : option string) :
  exists c, normalize_class_selector (of_option cls) = Ret c.
Proof.
  destruct cls as [s|]; [|eexists; reflexivity].
  unfold normalize_class_selector, of_option.
  destruct (negb (truthy (JStr s))); [eexists; reflexivity|].
  destruct (PyStr.startswith "." (PyStr.strip s)); [eexists; reflexivity|].
  destruct (filter _ _); eexists; reflexivity.
Qed.

Lemma tag_clause_total (tag : option string) :
  exists t, tag_clause (of_option tag) = Ret t.
Proof.
  destruct tag as [s|]; [|eexists; reflexivity].
  unfold tag_clause, of_option.
  destruct (negb (truthy (JStr s))); eexists; reflexivity.
Qed.

(** C8, as the specification states it for class strings: a class string
    that starts with "." comes out as it went in.  The code strips it
    first, so ".a " comes out as ".a". *)
Lemma class_dot_prefix_not_verbatim :
  PyStr.startswith "." ".a " = true
  /\ normalize_class_selector (JStr ".a ") = Ret ".a"
  /\ normalize_class_selector (JStr ".a ") <> Ret ".a ".
Proof.
  split; [reflexivity|].
  split; [reflexivity|].
  vm_compute. discriminate.
Qed.

(** C8, amended.  The selector builder is a function of its four
    arguments alone: [build(None, None, None, None) = "*"];
    [build("div", "a b", "data-x", "1")] is [div.a.b[data-x="1"]]; a
    class string starting with "." passes through with its trailing
    blanks stripped and is otherwise unmodified; an attribute name
    without a value yields the presence selector [[name]]; and on all
    optional-string inputs the result is the tag clause, the class clause
    and the attribute clause concatenated with no separators. *)
Theorem build_css_selector_cases :
  build_css_selector env JNull JNull JNull JNull = Ret "*"
  /\ build_css_selector env (JStr "div") (JStr "a b") (JStr "data-x") (JStr "1")
     = Ret ("div.a.b[data-x=" ++ dquote ++ "1" ++ dquote ++ "]")
  /\ (forall s : string,
        normalize_class_selector (JStr (String "." s))
        = Ret (String "." (PyStr.rstrip s)))
  /\ (forall (c : ascii) (r : string),
        attribute_clause env (JStr (String c r)) JNull
        = "[" ++ String c r ++ "]")
  /\ (forall tag cls attr value : option string,
        exists t c : string,
          tag_clause (of_option tag) = Ret t
          /\ normalize_class_selector (of_option cls) = Ret c
          /\ build_css_selector env (of_option tag) (of_option cls)
               (of_option attr) (of_option value)
             = Ret (t ++ c
                    ++ attribute_clause env (of_option attr) (of_option value))).
Proof.
  split; [reflexivity|].
  split; [reflexivity|].
  split; [apply normalize_class_dot|].
  split; [reflexivity|].
  intros tag cls attr value.
  destruct (tag_clause_total tag) as [t Ht].
  destruct (normalize_class_total cls) as [c Hc].
  exists t, c. unfold build_css_selector. rewrite Ht, Hc. auto.
Qed.

End SelectorBuilder.

(* ================================================================== *)
(** ** Frame resolution *)

Section FrameResolution.

Variable env : runtime.

Lemma first_frame_with_url_find (u : string) (frames : list frame) :
  first_frame_with_url (JStr u) frames
  = Ret (find (fun f => PyStr.contains u (frame_url f)) frames).
Proof.
  induction frames as [|f r IH]; simpl; [reflexivity|].
  destruct (PyStr.contains u (frame_url f)); [reflexivity|exact IH].
Qed.

(** C7, as the specification states it: a frame step that resolves holds
    exactly one of the four locator fields.  A step holding a selector
    and a name resolves, by its selector. *)
Lemma frame_step_with_two_fields_resolves :
  switch_to_frame (plain_env (always 1%nat) [])
    [("selector", JStr "#pay"); ("name", JStr "pay")] []
  = (Ret (FrameLocator (JStr "#pay")),
     [Emitted (Log LInfo "Switching to frame by selector:" [JStr "#pay"])])
  /\ frame_fields_present [("selector", JStr "#pay"); ("name", JStr "pay")]
     = 2%nat.
Proof.
  split; reflexivity.
Qed.

(** C7, amended.  A frame step resolves its target with precedence
    selector > name > url > index, and at least one of the four must be
    usable; fields of lower precedence are ignored.  A URL locator scans
    the frames in order and yields the first whose URL contains the
    given substring (with frames "https://a/x", "https://b/checkout/y"
    and url "checkout", the second); a failed name lookup and an index
    out of bounds raise; a step with none of the four raises. *)
Theorem switch_to_frame_resolution :
  forall (step : dict) (h : history),
    let selector := get_key step "selector" [] JNull in
    let name := get_key step "name" [] JNull in
    let url := get_key step "url" [] JNull in
    let index := to_int_or_none (get_key step "index" [] JNull) in
    let asked what v := (h ++ [Emitted (Log LInfo what [v])])%list in
    (truthy selector = true ->
       switch_to_frame env step h
       = (Ret (FrameLocator selector),
          asked "Switching to frame by selector:" selector))
    /\ (truthy selector = false -> truthy name = true ->
        let h1 := asked "Switching to frame by name:" name in
        let h2 := (h1 ++ [Called (FrameByName name)])%list in
        switch_to_frame env step h
        = match respond env h1 (FrameByName name) with
          | inr (Some f) => (Ret (FrameObj f), h2)
          | inr None => (Raise (RuntimeError "Frame with name" [name]), h2)
          | inl flt => (Raise (exn_of_fault flt), h2)
          end)
    /\ (forall (u : string) (frames : list frame),
        truthy selector = false -> truthy name = false ->
        url = JStr u -> truthy url = true ->
        let h1 := asked "Switching to frame by URL:" url in
        let h2 := (h1 ++ [Called Frames])%list in
        respond env h1 Frames = inr frames ->
        switch_to_frame env step h
        = match find (fun f => PyStr.contains u (frame_url f)) frames with
          | Some f => (Ret (FrameObj f), h2)
          | None => (Raise (RuntimeError "Frame with URL containing" [url]), h2)
          end)
    /\ (forall (i : Z) (frames : list frame),
        truthy selector = false -> truthy name = false ->
        truthy url = false -> index = Some i ->
        let h1 := asked "Switching to frame by index:" (JNum i) in
        let h2 := (h1 ++ [Called Frames])%list in
        respond env h1 Frames = inr frames ->
        switch_to_frame env step h
        = if out_of_range i (length frames)
          then (Raise (RuntimeError "Frame index"
                         [JNum i; JNum (Z.of_nat (length frames) - 1)]), h2)
          else match nth_error frames (Z.to_nat i) with
               | Some f => (Ret (FrameObj f), h2)
               | None => (Raise (PyError "IndexError"), h2)
               end)
    /\ (truthy selector = false -> truthy name = false ->
        truthy url = false -> index = None ->
        switch_to_frame env step h
        = (Raise (RuntimeError
                    "Frame step requires one of: selector, name, url, or index" []),
           h))
    /\ find (fun f => PyStr.contains "checkout" (frame_url f)) checkout_frames
       = Some (mkFrame 1 "" "https://b/checkout/y").
Proof.
  intros step h selector name url index asked.
  refine (conj _ (conj _ (conj _ (conj _ (conj _ _))))).
  - intros Hs. unfold switch_to_frame. fold selector. rewrite Hs. reflexivity.
  - intros Hs Hn h1 h2. unfold switch_to_frame. fold selector name.
    rewrite Hs, Hn.
    unfold bind, info, emit, call_env. subst h1 h2. unfold asked.
    destruct (respond env _ (FrameByName name)) as [flt|[f|]]; reflexivity.
  - intros u frames Hs Hn Hu Ht h1 h2 Hf. unfold switch_to_frame.
    fold selector name url. rewrite Hs, Hn, Ht.
    unfold bind, info, emit, call_env, lift. subst h1 h2. unfold asked in *.
    rewrite Hf. rewrite Hu at 1. rewrite first_frame_with_url_find.
    destruct (find _ frames); reflexivity.
  - intros i frames Hs Hn Hu Hi h1 h2 Hf. unfold switch_to_frame.
    fold selector name url index. rewrite Hs, Hn, Hu, Hi.
    unfold bind, info, emit, call_env. subst h1 h2. unfold asked in *.
    rewrite Hf.
    destruct (out_of_range i (length frames)); [reflexivity|].
    destruct (nth_error frames (Z.to_nat i)); reflexivity.
  - intros Hs Hn Hu Hi. unfold switch_to_frame.
    fold selector name url index. rewrite Hs, Hn, Hu, Hi. reflexivity.
  - reflexivity.
Qed.

End FrameResolution.

(** Scenario C, run: the frame step with url "checkout" resolves to the
    second frame of the page. *)
Lemma switch_to_frame_resolution_witness :
  switch_to_frame (plain_env (always 1%nat) checkout_frames)
    [("url", JStr "checkout")] []
  = (Ret (FrameObj (mkFrame 1 "" "https://b/checkout/y")),
     [Emitted (Log LInfo "Switching to frame by URL:" [JStr "checkout"]);
      Called Frames]).
Proof.
  pose proof (switch_to_frame_resolution
                (plain_env (always 1%nat) checkout_frames)
                [("url", JStr "checkout")] []) as H.
  cbv zeta in H.
  destruct H as (_ & _ & H & _).
  exact (H "checkout" checkout_frames eq_refl eq_refl eq_refl eq_refl eq_refl).
Defined.

(* ================================================================== *)
(** ** Reasoning about runs *)

Open Scope list_scope.

Lemma clicks_of_app (a b : history) :
  clicks_of (a ++ b) = clicks_of a ++ clicks_of b.
Proof.
  induction a as [|e r IH]; simpl; [reflexivity|].
  destruct e as [R c|o]; [|exact IH].
  destruct c; simpl; rewrite ?IH; reflexivity.
Qed.

(** Unfold the monad down to histories. *)
Ltac run_monad :=
  cbv [bind ret raise lift emit info warning error call_env
       try_except_timeout try_except] in *.

(** Case on the next answer of the environment. *)
Ltac ask_env :=
  match goal with
  | |- context [respond ?e ?h ?c] =>
      let E := fresh "Eenv" in destruct (respond e h c) eqn:E
  end.

(** A history reached by appending is the start followed by a trace. *)
Ltac as_extension :=
  rewrite <- ?app_assoc; simpl; eexists; split; [reflexivity|].

(** Case on the innermost computation whose result is inspected. *)
Ltac split_run :=
  match goal with
  | |- context [let (_, _) := ?x in _] =>
      lazymatch x with
      | context [let (_, _) := _ in _] => fail
      | _ => destruct x as [[?|?] ?]
      end
  end.

Section ClickHelper.

Variable env : runtime.

(** Whatever [wait_and_click] does, it clicks at most the element of the
    given index, with the given timeout. *)
Lemma wait_and_click_target (loc : locator) (index : Z) (timeout : pyfloat)
    (ignore_error : bool) (h : history) :
  exists tr,
    snd (wait_and_click env loc index timeout ignore_error h) = (h ++ tr)%list
    /\ Forall (fun c => c = (Nth loc index, Some timeout)) (clicks_of tr).
Proof.
  unfold wait_and_click. run_monad.
  repeat first
    [ ask_env
    | match goal with
      | |- context [if ?b then _ else _] => destruct b
      | |- context [match ?x with Timeout _ => _ | Failure _ => _ end] => destruct x
      end ];
    simpl; as_extension; simpl; repeat constructor.
Qed.

(** All [step_sleep] adds to the history is the pause it makes, if it
    makes one. *)
Lemma step_sleep_pauses (seconds : json) (h : history) :
  exists tr : history,
    snd (step_sleep env seconds h) = h ++ tr
    /\ (tr = [] \/ exists f : pyfloat, tr = [Emitted (Sleep f)]).
Proof.
  assert (exists tr : history,
            h = h ++ tr /\ (tr = [] \/ exists f : pyfloat, tr = [Emitted (Sleep f)]))
    as Hnone by (exists []; rewrite app_nil_r; auto).
  unfold step_sleep, time_sleep, ret.
  destruct seconds; try exact Hnone;
    match goal with
    | |- context [float_gt_zero env ?f] =>
        destruct (float_gt_zero env f); [|exact Hnone];
        destruct (clock_overflow f); [exact Hnone|];
        destruct (sleep_error env h f); [exact Hnone|];
        exists [Emitted (Sleep f)]; split; [reflexivity|right; eauto]
    end.
Qed.

(** [wait_and_click] turns every failure into a [RuntimeError]: it never
    lets a Playwright timeout through. *)
Lemma wait_and_click_no_timeout (loc : locator) (index : Z) (timeout : pyfloat)
    (ignore_error : bool) (h : history) (m : string) :
  fst (wait_and_click env loc index timeout ignore_error h) <> Raise (PWTimeout m).
Proof.
  unfold wait_and_click. run_monad.
  repeat first
    [ ask_env
    | match goal with
      | |- context [if ?b then _ else _] => destruct b
      end ];
    simpl; discriminate.
Qed.

End ClickHelper.

(* ================================================================== *)
(** ** Array steps *)

Section ArrayStep.

Variable env : runtime.

Lemma dict_get_insert_other (c1 c2 : dict) (k : string) (v : json)
    (key : string) :
  String.eqb k key = false ->
  dict_get (c1 ++ (k, v) :: c2) key = dict_get (c1 ++ c2) key.
Proof.
  intros Hk. induction c1 as [|[k' v'] r IH]; simpl.
  - rewrite Hk. reflexivity.
  - rewrite IH. reflexivity.
Qed.

Lemma get_alts_insert_other (c1 c2 : dict) (k : string) (v : json)
    (alts : list string) :
  forallb (fun a => negb (String.eqb k a)) alts = true ->
  get_alts (c1 ++ (k, v) :: c2) alts = get_alts (c1 ++ c2) alts.
Proof.
  induction alts as [|a r IH]; simpl; [reflexivity|].
  intros H. apply andb_prop in H. destruct H as [Ha Hr].
  rewrite dict_get_insert_other by (now apply negb_true_iff).
  rewrite (IH Hr). reflexivity.
Qed.

Lemma get_nocase_insert_other (c1 c2 : dict) (k : string) (v : json)
    (key : string) :
  String.eqb (PyStr.lower k) (PyStr.lower key) = false ->
  get_nocase (c1 ++ (k, v) :: c2) key = get_nocase (c1 ++ c2) key.
Proof.
  intros Hk. induction c1 as [|[k' v'] r IH]; simpl.
  - rewrite Hk. reflexivity.
  - rewrite IH. reflexivity.
Qed.

(** A field is invisible to the lookups that name neither it nor a
    spelling of it. *)
Lemma get_key_insert_other (c1 c2 : dict) (k : string) (v : json)
    (key : string) (alts : list string) (default : json) :
  String.eqb k key = false ->
  forallb (fun a => negb (String.eqb k a)) alts = true ->
  String.eqb (PyStr.lower k) (PyStr.lower key) = false ->
  get_key (c1 ++ (k, v) :: c2) key alts default
  = get_key (c1 ++ c2) key alts default.
Proof.
  intros H1 H2 H3. unfold get_key.
  rewrite dict_get_insert_other, get_alts_insert_other, get_nocase_insert_other
    by assumption.
  reflexivity.
Qed.

(** The child click reads the array step's timeout and nothing else of
    the step. *)
Lemma array_child_click_reads_timeout (step step' : dict) (p : locator)
    (j : Z) (child : json) (h : history) :
  get_key step "timeout" [] (JNum 35000) = get_key step' "timeout" [] (JNum 35000) ->
  array_child_click env step p j child h = array_child_click env step' p j child h.
Proof.
  intros Ht. unfold array_child_click. rewrite Ht. reflexivity.
Qed.

Lemma array_child_click_unread (step : dict) (p : locator) (j : Z)
    (c1 c2 : dict) (k : string) (v : json) (h : history) :
  In k unread_child_fields ->
  array_child_click env step p j (JObj (c1 ++ (k, v) :: c2)) h
  = array_child_click env step p j (JObj (c1 ++ c2)) h.
Proof.
  intros Hk. unfold array_child_click.
  assert (forall key alts default,
            In (key, alts)
              [("tag", []); ("text", []); ("attr", ["arrt"; "attribute"]);
               ("value", []); ("class", []); ("sleep", []); ("ignore", [])] ->
            get_key (c1 ++ (k, v) :: c2) key alts default
            = get_key (c1 ++ c2) key alts default) as Hget.
  { intros key alts default Hin.
    simpl in Hk, Hin.
    destruct Hk as [<-|[<-|[<-|[]]]];
      repeat (destruct Hin as [Hin|Hin];
              [inversion Hin; subst; apply get_key_insert_other; reflexivity|]);
      destruct Hin. }
  rewrite !Hget by (simpl; tauto).
  reflexivity.
Qed.

(** C10.  In an array step every entry of the child click list is
    resolved in its parent's scope and clicked at index 0: a child's
    own [array_select_one], [index] or [timeout] field changes nothing
    of what the step does, and every click the entry makes is on
    element 0 of the child locator, with the timeout read from the
    enclosing array step. *)
Theorem array_child_click_index_and_timeout :
  forall (step : dict) (p : locator) (j : Z) (c : dict) (h : history),
    let ctag := get_key c "tag" [] JNull in
    let ctext := get_key c "text" [] JNull in
    let cattr := get_key c "attr" ["arrt"; "attribute"] JNull in
    let cvalue := get_key c "value" [] JNull in
    let ccls := get_key c "class" [] JNull in
    (forall (c1 c2 : dict) (k : string) (v : json),
        c = c1 ++ c2 ->
        In k unread_child_fields ->
        array_child_click env step p j (JObj (c1 ++ (k, v) :: c2)) h
        = array_child_click env step p j (JObj c) h)
    /\ (forall step' : dict,
          get_key step "timeout" [] (JNum 35000)
          = get_key step' "timeout" [] (JNum 35000) ->
          array_child_click env step p j (JObj c) h
          = array_child_click env step' p j (JObj c) h)
    /\ exists tr : history,
         snd (array_child_click env step p j (JObj c) h) = h ++ tr
         /\ Forall
              (fun ck =>
                 exists (sel : string) (t : pyfloat),
                   build_css_selector env ctag ccls cattr cvalue = Ret sel
                   /\ py_float env (get_key step "timeout" [] (JNum 35000)) = Ret t
                   /\ ck = (Nth (locate p sel ctext) 0, Some t))
              (clicks_of tr).
Proof.
  intros step p j c h ctag ctext cattr cvalue ccls.
  split; [|split].
  - intros c1 c2 k v -> Hk. now apply array_child_click_unread.
  - intros step' Ht. now apply array_child_click_reads_timeout.
  - unfold array_child_click.
    fold ctag ctext cattr cvalue ccls.
    set (cignore := truthy (get_key c "ignore" [] (JBool false))).
    set (csleep := get_key c "sleep" [] JNull).
    unfold bind at 1. unfold lift at 1.
    destruct (build_css_selector env ctag ccls cattr cvalue) as [sel|e] eqn:Esel;
      [|exists []; rewrite app_nil_r; split; [reflexivity|constructor]].
    unfold bind at 1. unfold lift at 1.
    destruct (has_text_suffix ctext) as [sfx|e] eqn:Esfx;
      [|exists []; rewrite app_nil_r; split; [reflexivity|constructor]].
    unfold bind at 1. unfold info at 1. unfold emit at 1.
    unfold bind at 1. unfold try_except_timeout, try_except.
    unfold bind at 1. unfold lift at 1.
    destruct (py_float env (get_key step "timeout" [] (JNum 35000)))
      as [t|e] eqn:Et.
    + unfold bind at 1.
      set (h1 := h ++ _).
      destruct (wait_and_click_target env (locate p sel ctext) 0 t cignore h1)
        as (tr & Htr & Hclicks).
      pose proof (wait_and_click_no_timeout env (locate p sel ctext) 0 t cignore h1)
        as Hno.
      destruct (wait_and_click env (locate p sel ctext) 0 t cignore h1)
        as [[success|e] h2] eqn:Ew; simpl in Htr, Hno; subst h2.
      * assert (exists tr',
                  snd ((if negb (negb success && cignore)
                        then step_sleep env csleep else ret tt) (h1 ++ tr))
                  = (h1 ++ tr) ++ tr' /\ clicks_of tr' = []) as (tr' & Htr' & Hc').
        { destruct (negb (negb success && cignore)).
          - destruct (step_sleep_pauses env csleep (h1 ++ tr))
              as (tr' & Hs & [->|[f ->]]);
              eexists; split; solve [exact Hs | reflexivity].
          - exists []. rewrite app_nil_r. split; reflexivity. }
        unfold ret at 1. cbv beta iota.
        exists ([Emitted (Log LInfo "Child click" (JNum j :: JStr sel :: sfx))]
                ++ tr ++ tr').
        split.
        -- rewrite Htr'. subst h1. rewrite <- !app_assoc. reflexivity.
        -- rewrite !clicks_of_app, Hc', app_nil_r. simpl.
           eapply Forall_impl; [|exact Hclicks].
           intros ck ->. exists sel, t. auto.
      * exists ([Emitted (Log LInfo "Child click" (JNum j :: JStr sel :: sfx))]
                ++ tr).
        assert (snd (match e with
                     | PWTimeout _ =>
                         (if cignore
                          then warning "Timeout waiting for child element but ignoring:"
                                 [JStr sel];; ret false
                          else raise (RuntimeError "Timeout waiting for child element:"
                                        [JStr sel]))
                     | _ => raise e
                     end (h1 ++ tr)) = h1 ++ tr) as Hh.
        { destruct e; try reflexivity. exfalso. apply (Hno msg). reflexivity. }
        split.
        -- destruct e; try (subst h1; rewrite <- !app_assoc; reflexivity).
           exfalso. apply (Hno msg). reflexivity.
        -- rewrite clicks_of_app. simpl.
           eapply Forall_impl; [|exact Hclicks].
           intros ck ->. exists sel, t. auto.
    + destruct e; try destruct cignore; run_monad; simpl;
        eexists; (split; [rewrite <- ?app_assoc; reflexivity|]);
        simpl; constructor.
Qed.

End ArrayStep.

(** An array step with timeout 100 and a child entry that carries an
    index and a timeout of its own: the child is clicked at index 0 with
    timeout 100, as it is without the two fields. *)
Lemma array_child_click_index_and_timeout_witness :
  let env := plain_env (always 3%nat) [] in
  let step := [("type", JStr "array"); ("tag", JStr "li"); ("timeout", JNum 100)] in
  let p := Nth (Locate Page "li") 1 in
  array_child_click env step p 1
    (JObj ([("tag", JStr "a")] ++ ("array_select_one", JNum 2)
           :: [("timeout", JNum 7)])) []
  = array_child_click env step p 1
      (JObj ([("tag", JStr "a")] ++ [("timeout", JNum 7)])) []
  /\ clicks_of
       (snd (array_child_click env step p 1
               (JObj [("tag", JStr "a"); ("array_select_one", JNum 2);
                      ("timeout", JNum 7)]) []))
     = [(Nth (Locate (Nth (Locate Page "li") 1) "a") 0, Some (FInt 100))].
Proof.
  split.
  - exact (proj1
             (array_child_click_index_and_timeout (plain_env (always 3%nat) [])
                [("type", JStr "array"); ("tag", JStr "li"); ("timeout", JNum 100)]
                (Nth (Locate Page "li") 1) 1
                ([("tag", JStr "a")] ++ [("timeout", JNum 7)]) [])
             [("tag", JStr "a")] [("timeout", JNum 7)]
             "array_select_one" (JNum 2) eq_refl (or_introl eq_refl)).
  - reflexivity.
Defined.

(* ================================================================== *)
(** ** Conditional clicks *)

Section ConditionalClick.

Variable env : runtime.

(** The alternate loop of the code skips what is no record and runs the
    records in turn. *)
Lemma alt_clicks_loop_records
    (exec_click : dict -> option frame_ref -> option locator -> M unit)
    (cf : option frame_ref) (parent : option locator) (l : list json) :
  forall h : history,
    alt_clicks_loop exec_click l cf parent h
    = run_alternates exec_click (records_of l) cf parent h.
Proof.
  induction l as [|x rest IH]; intros h; [reflexivity|].
  destruct x; cbn [alt_clicks_loop records_of run_alternates]; try apply IH.
  cbv [bind info emit].
  destruct (exec_click d cf parent _) as [[[]|e] h1]; [apply IH|reflexivity].
Qed.

(** The primary click reads the step through its own fields only. *)
Lemma primary_click_same_fields (s s' : dict) (cf : option frame_ref)
    (parent : option locator) (h : history) :
  same_primary_fields s s' ->
  primary_click env s cf parent h = primary_click env s' cf parent h.
Proof.
  intros (Htag & Hattr & Hvalue & Hcls & Htext & Hidx & Hign & Htime & Hsleep).
  unfold primary_click.
  rewrite Htag, Hattr, Hvalue, Hcls, Htext, Hidx, Hign, Htime, Hsleep.
  reflexivity.
Qed.

(** A click step without a condition runs its primary click. *)
Lemma unconditional_click_is_primary (fuel : nat) (step : dict)
    (current_frame : option frame_ref) (parent : option locator) (h : history) :
  truthy (get_key step "if" [] JNull) = false ->
  exec_step_click env (S fuel) step current_frame parent h
  = primary_click env step current_frame parent h.
Proof.
  intros Hc. simpl exec_step_click. unfold click_body. rewrite Hc. reflexivity.
Qed.

(** C3, amended.  A click step carrying a condition takes at most one
    of the two paths, as the condition decides.  If the condition
    holds, the alternates that are records run in the order listed,
    each announced and run as a click step of its own (so with its own
    condition, if any), and the primary click is not made: the step
    does what any click step with the same condition does, whatever its
    own selector, index, timeout and pause; when the condition lists no
    record (no [click], an empty list, entries that are no records)
    the step ends normally at once and neither path is taken.  If the
    condition does not hold, the primary click runs and no alternate
    does: from the log of the result on, the step does what a step with
    the same fields and no condition does.  If the condition cannot be
    evaluated its error is raised and neither path is taken. *)
Theorem conditional_click_paths :
  forall (fuel : nat) (step : dict) (current_frame : option frame_ref)
         (parent : option locator) (h : history),
    let condition := get_key step "if" [] JNull in
    truthy condition = true ->
    match check_condition env condition current_frame parent h with
    | (Ret true, h1) =>
        let h2 := h1 ++ [condition_result true] in
        exec_step_click env (S fuel) step current_frame parent h
        = run_alternates (exec_step_click env fuel) (alternate_records condition)
            current_frame parent h2
        /\ (alternate_records condition = [] ->
            exec_step_click env (S fuel) step current_frame parent h = (Ret tt, h2))
        /\ (forall step' : dict,
               get_key step' "if" [] JNull = condition ->
               exec_step_click env (S fuel) step' current_frame parent h
               = exec_step_click env (S fuel) step current_frame parent h)
    | (Ret false, h1) =>
        let h2 := h1 ++ [condition_result false] in
        exec_step_click env (S fuel) step current_frame parent h
        = primary_click env step current_frame parent h2
        /\ (forall step0 : dict,
               truthy (get_key step0 "if" [] JNull) = false ->
               same_primary_fields step step0 ->
               exec_step_click env (S fuel) step current_frame parent h
               = exec_step_click env (S fuel) step0 current_frame parent h2)
    | (Raise e, h1) =>
        exec_step_click env (S fuel) step current_frame parent h = (Raise e, h1)
    end.
Proof.
  intros fuel step cf parent h condition Hc.
  assert (forall step' : dict,
             get_key step' "if" [] JNull = condition ->
             exec_step_click env (S fuel) step' cf parent h
             = match check_condition env condition cf parent h with
               | (Ret met, h1) =>
                   if met
                   then alt_clicks_loop (exec_step_click env fuel)
                          (alternate_clicks condition) cf parent
                          (h1 ++ [condition_result met])
                   else primary_click env step' cf parent
                          (h1 ++ [condition_result met])
               | (Raise e, h1) => (Raise e, h1)
               end) as Hrun.
  { intros step' Hs. cbn [exec_step_click]. unfold click_body.
    rewrite Hs, Hc. cbv [bind info emit condition_result].
    destruct (check_condition env condition cf parent h) as [[met|e] h1];
      [destruct met|]; reflexivity. }
  pose proof (Hrun step eq_refl) as Hstep.
  destruct (check_condition env condition cf parent h) as [[[|]|e] h1] eqn:Ec.
  - cbv zeta. rewrite alt_clicks_loop_records in Hstep.
    fold (alternate_records condition) in Hstep.
    split; [exact Hstep|]. split.
    + intros Hnone. rewrite Hstep, Hnone. reflexivity.
    + intros step' Hs. rewrite Hstep, (Hrun step' Hs).
      rewrite alt_clicks_loop_records. reflexivity.
  - cbv zeta. split; [exact Hstep|].
    intros step0 H0 Hsame.
    rewrite Hstep, unconditional_click_is_primary by exact H0.
    apply primary_click_same_fields. exact Hsame.
  - exact Hstep.
Qed.

End ConditionalClick.

(** C3, as the specification states it: of the alternate path and the
    primary path, never neither.  On a page with a [div] the condition
    of the step holds; with no [click] in the condition, with an empty
    list, or with an entry that is no record, the step ends normally
    when the result is logged: nothing is clicked, although the primary
    click of the step, run from there, clicks the button. *)
Lemma met_condition_without_alternates_clicks_nothing :
  let env := plain_env (always 1%nat) [] in
  let counted :=
    [Called (Count (Locate Page "div"));
     Emitted (Log LInfo "Condition check:" [JStr "div"; JStr "found"; JNum 1])] in
  let checked := counted ++ [condition_result true] in
  truthy (get_key (click_if_div_found None) "if" [] JNull) = true
  /\ check_condition env (get_key (click_if_div_found None) "if" [] JNull)
       None None []
     = (Ret true, counted)
  /\ exec_step_click env 1 (click_if_div_found None) None None []
     = (Ret tt, checked)
  /\ exec_step_click env 1 (click_if_div_found (Some (JList []))) None None []
     = (Ret tt, checked)
  /\ exec_step_click env 1 (click_if_div_found (Some (JList [JStr "a"])))
       None None []
     = (Ret tt, checked)
  /\ exec_step_click env 1 (click_if_div_found (Some (JStr "a"))) None None []
     = (Ret tt, checked)
  /\ clicks_of checked = []
  /\ clicks_of (snd (primary_click env (click_if_div_found None) None None checked))
     = [(Nth (Locate Page "button") 0, Some (FInt 45000))].
Proof.
  cbv zeta. repeat split; reflexivity.
Qed.

(** A condition that holds, with one alternate: the alternate click is
    made, the primary click is not. *)
Lemma conditional_click_paths_witness :
  truthy (get_key click_with_alternate "if" [] JNull) = true
  /\ exec_step_click (plain_env (always 1%nat) []) 2 click_with_alternate
       None None []
     = (Ret tt,
        [Called (Count (Locate Page "div"));
         Emitted (Log LInfo "Condition check:" [JStr "div"; JStr "found"; JNum 1]);
         Emitted (Log LInfo "Condition check result:" [JBool true]);
         Emitted (Log LInfo "Executing alternative click due to condition" []);
         Emitted (Log LInfo "Click selector:" [JStr "a"]);
         Called (Count (Locate Page "a"));
         Called (WaitVisible (Nth (Locate Page "a") 0) (FInt 45000));
         Called (ScrollIntoView (Nth (Locate Page "a") 0));
         Called (GetAttribute (Nth (Locate Page "a") 0) "href");
         Called (Click (Nth (Locate Page "a") 0) (Some (FInt 45000)))]).
Proof.
  split; [reflexivity|].
  exact (proj1 (@conditional_click_paths (plain_env (always 1%nat) []) 1
                  click_with_alternate None None [] eq_refl)).
Defined.

(* ================================================================== *)
(** ** The run loop *)

Section RunLoop.

Variable env : runtime.

(** One turn of the loop, in terms of the dispatch it wraps. *)
Lemma run_step_unfold (fuel : nat) (idx : Z) (cf : option frame_ref)
    (d : dict) (h : history) :
  truthy (get_key d "type" [] JNull) = true ->
  run_step env fuel idx cf (JObj d) h
  = match run_dispatch env fuel (truthy (get_key d "ignore" [] (JBool false))) d
            (get_key d "type" [] JNull) cf (h ++ step_header idx d) with
    | (Ret cf', h1) => (Ret cf', h1)
    | (Raise e, h1) =>
        if truthy (get_key d "ignore" [] (JBool false))
        then (Ret cf, h1 ++ step_ignored idx d e)
        else (Raise e, h1 ++ step_failed idx d e)
    end.
Proof.
  intros Ht. unfold run_step. rewrite Ht. cbv [negb].
  unfold step_header, step_ignored, step_failed, step_title.
  run_monad. rewrite <- app_assoc. simpl.
  destruct (run_dispatch env fuel _ d _ cf _) as [[cf'|e] h1]; [reflexivity|].
  destruct (truthy (get_key d "ignore" [] (JBool false)));
    rewrite <- app_assoc; reflexivity.
Qed.

(** A step without a type: skipped under tolerance, fatal otherwise. *)
Lemma run_step_missing_type (fuel : nat) (idx : Z) (cf : option frame_ref)
    (d : dict) (h : history) :
  truthy (get_key d "type" [] JNull) = false ->
  run_step env fuel idx cf (JObj d) h
  = if truthy (get_key d "ignore" [] (JBool false))
    then (Ret cf,
          h ++ step_header idx d
            ++ [Emitted (Log LWarning "Missing 'type' in step, but ignoring error." [])])
    else (Raise (RuntimeError "Missing type in step." []), h ++ step_header idx d).
Proof.
  intros Ht. unfold run_step. rewrite Ht. cbv [negb].
  unfold step_header, step_title. run_monad.
  destruct (truthy (get_key d "ignore" [] (JBool false)));
    rewrite <- !app_assoc; reflexivity.
Qed.

Lemma run_loop_cons (fuel : nat) (idx : Z) (cf : option frame_ref)
    (step : json) (rest : list json) (h : history) :
  run_loop env fuel idx cf (step :: rest) h
  = match run_step env fuel idx cf step h with
    | (Ret cf', h1) => run_loop env fuel (idx + 1) cf' rest h1
    | (Raise e, h1) => (Raise e, h1)
    end.
Proof. reflexivity. Qed.

(** The loop over a concatenation: the second part starts where the
    first ended. *)
Lemma run_loop_app (fuel : nat) (pre post : list json) :
  forall (idx : Z) (cf : option frame_ref) (h : history),
    run_loop env fuel idx cf (pre ++ post) h
    = match run_loop env fuel idx cf pre h with
      | (Ret cf1, h1) =>
          run_loop env fuel (idx + Z.of_nat (length pre)) cf1 post h1
      | (Raise e, h1) => (Raise e, h1)
      end.
Proof.
  induction pre as [|s r IH]; intros idx cf h.
  - simpl. unfold ret. rewrite Z.add_0_r. reflexivity.
  - rewrite <- app_comm_cons, !run_loop_cons.
    destruct (run_step env fuel idx cf s h) as [[cf'|e] h1]; [|reflexivity].
    rewrite IH.
    replace (idx + 1 + Z.of_nat (length r))
      with (idx + Z.of_nat (length (s :: r))) by (simpl length; lia).
    reflexivity.
Qed.

(** The exit code, in terms of the loop. *)
Lemma main_unfold (workflow : list json) (url : json) (h : history) :
  main env (JList workflow) url h
  = match initial_goto env url h with
    | (Ret _, h0) =>
        match run_loop env (S (json_depth (JList workflow))) 1 None workflow h0 with
        | (Ret _, h1) => (Ret 0, h1 ++ run_completed)
        | (Raise e, h1) => (Ret 1, h1 ++ run_aborted e)
        end
    | (Raise e, h0) => (Ret 1, h0 ++ run_aborted e)
    end.
Proof.
  unfold main, run, try_finally, run_completed, run_aborted.
  run_monad.
  destruct (initial_goto env url h) as [[[]|e] h0].
  - destruct (run_loop env _ 1 None workflow h0) as [[cf|e] h1];
      rewrite <- ?app_assoc; reflexivity.
  - rewrite <- ?app_assoc; reflexivity.
Qed.

End RunLoop.

(* ================================================================== *)
(** ** Navigation without a target *)

Section GotoWithoutUrl.

Variable env : runtime.

Lemma kind_of_supported_truthy (t : json) :
  kind_of t <> KUnsupported -> truthy t = true.
Proof.
  destruct t as [| | |s| |]; simpl; try congruence.
  destruct s; [vm_compute; congruence|reflexivity].
Qed.

Lemma exec_step_goto_missing_url (d : dict) (h : history) :
  truthy (get_key d "value" ["url"] JNull) = false ->
  exec_step_goto env d h = (Raise missing_url, h).
Proof.
  intros Hu. unfold exec_step_goto. rewrite Hu. reflexivity.
Qed.

(** C6, amended.  A goto step that holds neither [value] nor [url]
    raises a configuration error, which follows the tolerance flag like
    any other error: with the flag false (the default) the run aborts and
    no later step executes; with the flag true the failure is logged as a
    warning and the run goes on with the next step, the carried frame
    unchanged. *)
Theorem goto_missing_url_follows_tolerance :
  forall (fuel : nat) (idx : Z) (cf : option frame_ref) (d : dict)
         (post : list json) (h : history),
    kind_of (get_key d "type" [] JNull) = KGoto ->
    truthy (get_key d "value" ["url"] JNull) = false ->
    run_loop env fuel idx cf (JObj d :: post) h
    = if truthy (get_key d "ignore" [] (JBool false))
      then run_loop env fuel (idx + 1) cf post
             (h ++ step_header idx d ++ step_ignored idx d missing_url)
      else (Raise missing_url,
            h ++ step_header idx d ++ step_failed idx d missing_url).
Proof.
  intros fuel idx cf d post h Hk Hu.
  rewrite run_loop_cons, run_step_unfold
    by (apply kind_of_supported_truthy; rewrite Hk; discriminate).
  unfold run_dispatch. rewrite Hk.
  unfold bind at 1. rewrite exec_step_goto_missing_url by assumption.
  destruct (truthy (get_key d "ignore" [] (JBool false)));
    rewrite <- app_assoc; reflexivity.
Qed.

(** Inside a group the same error is tolerated when the nested step or
    the enclosing group tolerates errors, and unwinds otherwise. *)
Lemma nested_goto_missing_url (budget : nat)
    (exec_group : dict -> option frame_ref -> option locator -> M unit)
    (ignore_error : bool) (p : locator) (i j : Z) (a : dict)
    (local_frame : option frame_ref) (h : history) :
  kind_of (get_key a "type" [] JNull) = KGoto ->
  truthy (get_key a "value" ["url"] JNull) = false ->
  group_nested_action env budget exec_group ignore_error p i j (JObj a)
    local_frame h
  = if truthy (get_key a "ignore" [] (JBool false)) || ignore_error
    then (Ret local_frame,
          h ++ action_header i j a ++ action_ignored j a missing_url)
    else (Raise missing_url, h ++ action_header i j a).
Proof.
  intros Hk Hu. unfold group_nested_action.
  rewrite kind_of_supported_truthy by (rewrite Hk; discriminate).
  cbv [negb]. unfold group_dispatch. rewrite Hk.
  unfold action_header, action_ignored, action_title.
  run_monad. rewrite exec_step_goto_missing_url by assumption.
  destruct (truthy (get_key a "ignore" [] (JBool false)) || ignore_error);
    rewrite <- ?app_assoc; reflexivity.
Qed.

End GotoWithoutUrl.

(** C6, as the specification states it: a goto step without a URL is
    fatal even when its tolerance flag is true.  With the flag true the
    run completes with exit code 0 and the step after it is executed. *)
Lemma tolerant_goto_without_url_continues :
  main (plain_env (always 1%nat) []) (JList tolerant_goto_workflow) JNull []
  = (Ret 0,
     [Emitted (Log LInfo "--- Step" [JNum 1; JStr "Step #1"]);
      Emitted (Print "[Step" [JNum 1; JStr "Step #1"]);
      Emitted (Log LWarning "Step failed but ignoring:"
                 [JStr "Step #1"; JStr "Missing value or url for goto step."]);
      Emitted (Print "[WARNING]"
                 [JStr "Step #1"; JStr "Missing value or url for goto step."]);
      Emitted (Log LInfo "--- Step" [JNum 2; JStr "Step #2"]);
      Emitted (Print "[Step" [JNum 2; JStr "Step #2"]);
      Emitted (Log LInfo "Click selector:" [JStr "button"]);
      Called (Count (Locate Page "button"));
      Called (WaitVisible (Nth (Locate Page "button") 0) (FInt 45000));
      Called (ScrollIntoView (Nth (Locate Page "button") 0));
      Called (GetAttribute (Nth (Locate Page "button") 0) "href");
      Called (Click (Nth (Locate Page "button") 0) (Some (FInt 45000)));
      Emitted (Log LInfo "=== Workflow completed successfully ===" []);
      Emitted (Print "Workflow completed successfully." []);
      Emitted (Input "Press Enter to close the browser...")]).
Proof.
  vm_compute. reflexivity.
Qed.

(** With the default tolerance the run stops at the goto step. *)
Lemma goto_missing_url_follows_tolerance_witness :
  kind_of (JStr "goto") = KGoto
  /\ run_loop (plain_env (always 1%nat) []) 3 1 None strict_goto_workflow []
     = (Raise missing_url,
        [Emitted (Log LInfo "--- Step" [JNum 1; JStr "Step #1"]);
         Emitted (Print "[Step" [JNum 1; JStr "Step #1"]);
         Emitted (Log LError "Step failed:"
                    [JStr "Step #1"; JStr "Missing value or url for goto step."]);
         Emitted (Print "[ERROR]"
                    [JStr "Step #1"; JStr "Missing value or url for goto step."])]).
Proof.
  split; [reflexivity|].
  exact (goto_missing_url_follows_tolerance (plain_env (always 1%nat) []) 3 1 None
           [("type", JStr "goto")]
           [JObj [("type", JStr "click"); ("tag", JStr "button")]] []
           eq_refl eq_refl).
Defined.

(* ================================================================== *)
(** ** Fatal failures *)

Section FatalFailure.

Variable env : runtime.

(** Visiting a parent never fails. *)
Lemma group_visit_returns (p : locator) (i : Z) (timeout : pyfloat)
    (h : history) :
  fst (group_visit env p i timeout h) = Ret tt.
Proof.
  unfold group_visit. run_monad.
  repeat ask_env;
    repeat match goal with u : unit |- _ => destruct u end; reflexivity.
Qed.

(** A click without a condition whose selector matches nothing, and
    which does not tolerate errors, fails. *)
Lemma primary_click_no_match (d : dict) (cf : option frame_ref)
    (parent : option locator) (h : history) (sel : string) (sfx : list json)
    (t : pyfloat) :
  let text := get_key d "text" [] JNull in
  let loc := locate (get_locator_root cf parent) sel text in
  let h1 := h ++ [Emitted (Log LInfo "Click selector:" (JStr sel :: sfx))] in
  build_css_selector env (get_key d "tag" [] JNull) (get_key d "class" [] JNull)
    (get_key d "attr" ["arrt"; "attribute"] JNull) (get_key d "value" [] JNull)
  = Ret sel ->
  has_text_suffix text = Ret sfx ->
  py_float env (get_key d "timeout" [] (JNum 45000)) = Ret t ->
  respond env h1 (Count loc) = inr 0%nat ->
  truthy (get_key d "ignore" [] (JBool false)) = false ->
  primary_click env d cf parent h
  = (Raise (RuntimeError "Element interaction failed:"
              [JStr "No matching elements found."]),
     h1 ++ [Called (Count loc)]).
Proof.
  intros text loc h1 Hsel Hsfx Ht Hc Hi.
  unfold primary_click. fold text. rewrite Hsel, Hsfx, Ht, Hi.
  unfold wait_and_click. run_monad. fold loc. fold h1. rewrite Hc.
  reflexivity.
Qed.

(** The click helper of the oldest variant fails on an empty match, once
    the operator has been waited for. *)
Lemma pesi_wait_and_click_no_match (loc : locator) (index : Z)
    (timeout : pyfloat) (h : history) :
  respond env h (Count loc) = inr 0%nat ->
  pesi_wait_and_click env loc index timeout h
  = (Raise (RuntimeError "array_select_one index" [JNum index; JNum 0]),
     h ++ [Called (Count loc);
           Emitted (Print "No matching elements found." []);
           Emitted (Input "Enter to exit")]).
Proof.
  intros Hc. unfold pesi_wait_and_click. run_monad. rewrite Hc. simpl.
  replace (out_of_range index 0) with true
    by (unfold out_of_range; simpl; destruct (index <? 0) eqn:E; simpl; [reflexivity|];
        symmetry; apply Z.geb_le; apply Z.ltb_ge in E; exact E).
  rewrite <- !app_assoc. reflexivity.
Qed.

Lemma group_actions_loop_cons (budget : nat)
    (exec_group : dict -> option frame_ref -> option locator -> M unit)
    (ignore_error : bool) (p : locator) (i j : Z) (action : json)
    (rest : list json) (local_frame : option frame_ref) (h : history) :
  group_actions_loop env budget exec_group ignore_error p i j (action :: rest)
    local_frame h
  = match group_nested_action env budget exec_group ignore_error p i j action
            local_frame h with
    | (Ret lf, h1) =>
        group_actions_loop env budget exec_group ignore_error p i (j + 1) rest lf h1
    | (Raise e, h1) => (Raise e, h1)
    end.
Proof. reflexivity. Qed.

Lemma group_parents_loop_cons (budget : nat)
    (exec_group : dict -> option frame_ref -> option locator -> M unit)
    (ignore_error : bool) (timeout : pyfloat) (parents : locator)
    (cf : option frame_ref) (actions : list json) (i : Z) (rest : list Z)
    (h : history) :
  group_parents_loop env budget exec_group ignore_error timeout parents cf
    actions (i :: rest) h
  = match group_actions_loop env budget exec_group ignore_error (Nth parents i)
            i 1 actions cf (snd (group_visit env (Nth parents i) i timeout h)) with
    | (Ret _, h1) =>
        group_parents_loop env budget exec_group ignore_error timeout parents cf
          actions rest h1
    | (Raise e, h1) => (Raise e, h1)
    end.
Proof.
  pose proof (group_visit_returns (Nth parents i) i timeout h) as Hv.
  change (group_parents_loop env budget exec_group ignore_error timeout parents
            cf actions (i :: rest) h)
    with ((group_visit env (Nth parents i) i timeout;;
           group_actions_loop env budget exec_group ignore_error (Nth parents i)
             i 1 actions cf;;
           group_parents_loop env budget exec_group ignore_error timeout parents
             cf actions rest) h).
  unfold bind.
  destruct (group_visit env (Nth parents i) i timeout h) as [[[]|e'] hv];
    simpl in Hv; [|discriminate].
  reflexivity.
Qed.

Lemma exec_step_group_action_S (fuel : nat) (step : dict)
    (cf : option frame_ref) (parent : option locator) (h : history) :
  exec_step_group_action env (S fuel) step cf parent h
  = group_body env fuel (exec_step_group_action env fuel) step cf parent h.
Proof. reflexivity. Qed.

(** A nested action that fails, tolerated neither by itself nor by its
    group, ends the action list. *)
Lemma group_actions_loop_fatal (budget : nat)
    (exec_group : dict -> option frame_ref -> option locator -> M unit)
    (p : locator) (i j : Z) (a : dict) (rest : list json)
    (local_frame : option frame_ref) (h : history) (e : exn) (h1 : history) :
  truthy (get_key a "type" [] JNull) = true ->
  truthy (get_key a "ignore" [] (JBool false)) = false ->
  group_dispatch env budget exec_group false a (get_key a "type" [] JNull)
    local_frame p (h ++ action_header i j a) = (Raise e, h1) ->
  group_actions_loop env budget exec_group false p i j (JObj a :: rest)
    local_frame h = (Raise e, h1).
Proof.
  intros Ht Hi Hd. rewrite group_actions_loop_cons. unfold group_nested_action.
  rewrite Ht, Hi. cbv [negb orb]. unfold action_header, action_title in Hd.
  run_monad. rewrite Hd. reflexivity.
Qed.

(** An action list that fails ends the loop over the parents. *)
Lemma group_parents_loop_fatal (budget : nat)
    (exec_group : dict -> option frame_ref -> option locator -> M unit)
    (ignore_error : bool) (timeout : pyfloat) (parents : locator)
    (cf : option frame_ref) (actions : list json) (i : Z) (rest : list Z)
    (h : history) (e : exn) (h1 : history) :
  group_actions_loop env budget exec_group ignore_error (Nth parents i) i 1
    actions cf (snd (group_visit env (Nth parents i) i timeout h))
  = (Raise e, h1) ->
  group_parents_loop env budget exec_group ignore_error timeout parents cf
    actions (i :: rest) h = (Raise e, h1).
Proof.
  intros Ha. rewrite group_parents_loop_cons, Ha. reflexivity.
Qed.

(** A loop over the parents that fails fails the group step. *)
Lemma group_body_fatal (budget : nat)
    (exec_group : dict -> option frame_ref -> option locator -> M unit)
    (g : dict) (cf : option frame_ref) (parent : option locator)
    (h : history) (t : pyfloat) (parents : locator) (total : nat)
    (a : json) (rest : list json) (e : exn) (h1 : history) :
  py_float env (get_key g "timeout" [] (JNum 35000)) = Ret t ->
  group_parents env g (get_locator_root cf parent) = Ret parents ->
  respond env h (Count parents) = inr (S total) ->
  to_int_or_none (get_key g "array_select_one" [] JNull) = None ->
  get_key g "actions" ["steps"] (JList []) = JList (a :: rest) ->
  group_parents_loop env budget exec_group
    (truthy (get_key g "ignore" [] (JBool false))) t parents cf (a :: rest)
    (range (S total))
    (h ++ [Called (Count parents)] ++ group_found env g (S total))
  = (Raise e, h1) ->
  group_body env budget exec_group g cf parent h = (Raise e, h1).
Proof.
  intros Ht Hp Hc Hs Ha Hl. unfold group_body. rewrite Ht, Hs, Ha.
  unfold group_parents, group_found in *.
  destruct (build_css_selector env _ _ _ _) as [sel|e0]; [|discriminate].
  injection Hp as <-.
  run_monad. rewrite Hc. cbv [Nat.eqb select_parents]. run_monad.
  rewrite <- app_assoc. cbn [app] in Hl |- *.
  rewrite Hl. reflexivity.
Qed.

(** C1.  If step [i] of a workflow raises an error that is not
    tolerated, the run loop raises that error at once: the history ends
    with the failure of step [i], whatever steps follow it, and the
    process exits with code 1.  A step raises whatever its executor
    raises when its tolerance flag is false, and it raises when it has no
    type.  Inside a group the same holds of a nested action that neither
    it nor the group tolerates: the rest of the action list is not run,
    nor are the remaining parents, and the group step fails with that
    error in the enclosing list.  A click whose selector matches nothing,
    with the tolerance flag false, is such an error, in the oldest
    variant of the click helper too. *)
Theorem fatal_error_stops_run :
  (forall (pre : list json) (step : json) (post : list json) (url : json)
          (h h0 h1 h2 : history) (cf1 : option frame_ref) (e : exn),
      let wf := pre ++ step :: post in
      let fuel := S (json_depth (JList wf)) in
      let idx := 1 + Z.of_nat (length pre) in
      initial_goto env url h = (Ret tt, h0) ->
      run_loop env fuel 1 None pre h0 = (Ret cf1, h1) ->
      run_step env fuel idx cf1 step h1 = (Raise e, h2) ->
      run_loop env fuel 1 None wf h0 = (Raise e, h2)
      /\ main env (JList wf) url h = (Ret 1, h2 ++ run_aborted e))
  /\ (forall (fuel : nat) (idx : Z) (cf : option frame_ref) (d : dict)
             (h h2 : history) (e : exn),
        truthy (get_key d "type" [] JNull) = true ->
        truthy (get_key d "ignore" [] (JBool false)) = false ->
        run_dispatch env fuel false d (get_key d "type" [] JNull) cf
          (h ++ step_header idx d) = (Raise e, h2) ->
        run_step env fuel idx cf (JObj d) h = (Raise e, h2 ++ step_failed idx d e))
  /\ (forall (fuel : nat) (idx : Z) (cf : option frame_ref) (d : dict)
             (h : history),
        truthy (get_key d "type" [] JNull) = false ->
        truthy (get_key d "ignore" [] (JBool false)) = false ->
        run_step env fuel idx cf (JObj d) h
        = (Raise (RuntimeError "Missing type in step." []), h ++ step_header idx d))
  /\ (forall (budget : nat) (a : dict) (rest : list json)
             (lf : option frame_ref) (parents : locator) (i j : Z)
             (h h1 : history) (e : exn),
        truthy (get_key a "type" [] JNull) = true ->
        truthy (get_key a "ignore" [] (JBool false)) = false ->
        group_dispatch env budget (exec_step_group_action env budget) false a
          (get_key a "type" [] JNull) lf (Nth parents i)
          (h ++ action_header i j a) = (Raise e, h1) ->
        group_actions_loop env budget (exec_step_group_action env budget) false
          (Nth parents i) i j (JObj a :: rest) lf h = (Raise e, h1))
  /\ (forall (budget : nat) (ignore_error : bool) (t : pyfloat)
             (parents : locator) (cf : option frame_ref) (actions : list json)
             (i : Z) (more : list Z) (h h1 : history) (e : exn),
        group_actions_loop env budget (exec_step_group_action env budget)
          ignore_error (Nth parents i) i 1 actions cf
          (snd (group_visit env (Nth parents i) i t h)) = (Raise e, h1) ->
        group_parents_loop env budget (exec_step_group_action env budget)
          ignore_error t parents cf actions (i :: more) h = (Raise e, h1))
  /\ (forall (budget : nat) (g : dict) (cf : option frame_ref)
             (parent : option locator) (h h1 : history) (t : pyfloat)
             (parents : locator) (total : nat) (a : json) (rest : list json)
             (e : exn),
        py_float env (get_key g "timeout" [] (JNum 35000)) = Ret t ->
        group_parents env g (get_locator_root cf parent) = Ret parents ->
        respond env h (Count parents) = inr (S total) ->
        to_int_or_none (get_key g "array_select_one" [] JNull) = None ->
        get_key g "actions" ["steps"] (JList []) = JList (a :: rest) ->
        group_parents_loop env budget (exec_step_group_action env budget)
          (truthy (get_key g "ignore" [] (JBool false))) t parents cf (a :: rest)
          (range (S total))
          (h ++ [Called (Count parents)] ++ group_found env g (S total))
        = (Raise e, h1) ->
        exec_step_group_action env (S budget) g cf parent h = (Raise e, h1))
  /\ (forall (fuel : nat) (d : dict) (cf : option frame_ref)
             (parent : option locator) (h : history) (sel : string)
             (sfx : list json) (t : pyfloat),
        let text := get_key d "text" [] JNull in
        let loc := locate (get_locator_root cf parent) sel text in
        let h1 := h ++ [Emitted (Log LInfo "Click selector:" (JStr sel :: sfx))] in
        truthy (get_key d "if" [] JNull) = false ->
        build_css_selector env (get_key d "tag" [] JNull)
          (get_key d "class" [] JNull)
          (get_key d "attr" ["arrt"; "attribute"] JNull)
          (get_key d "value" [] JNull) = Ret sel ->
        has_text_suffix text = Ret sfx ->
        py_float env (get_key d "timeout" [] (JNum 45000)) = Ret t ->
        respond env h1 (Count loc) = inr 0%nat ->
        truthy (get_key d "ignore" [] (JBool false)) = false ->
        exec_step_click env (S fuel) d cf parent h
        = (Raise (RuntimeError "Element interaction failed:"
                    [JStr "No matching elements found."]),
           h1 ++ [Called (Count loc)]))
  /\ (forall (loc : locator) (index : Z) (timeout : pyfloat) (h : history),
        respond env h (Count loc) = inr 0%nat ->
        fst (pesi_wait_and_click env loc index timeout h)
        = Raise (RuntimeError "array_select_one index" [JNum index; JNum 0])).
Proof.
  refine (conj _ (conj _ (conj _ (conj _ (conj _ (conj _ (conj _ _))))))).
  - intros pre step post url h h0 h1 h2 cf1 e wf fuel idx H0 Hpre Hstep.
    assert (run_loop env fuel 1 None wf h0 = (Raise e, h2)) as Hrun.
    { unfold wf. rewrite run_loop_app, Hpre, run_loop_cons.
      fold idx. rewrite Hstep. reflexivity. }
    split; [exact Hrun|].
    rewrite main_unfold. fold wf. fold fuel. rewrite H0, Hrun. reflexivity.
  - intros fuel idx cf d h h2 e Ht Hi Hd.
    rewrite run_step_unfold by assumption. rewrite Hi, Hd. reflexivity.
  - intros fuel idx cf d h Ht Hi.
    rewrite run_step_missing_type by assumption. rewrite Hi. reflexivity.
  - intros budget a rest lf parents i j h h1 e Ht Hi Hd.
    now apply group_actions_loop_fatal.
  - intros budget ignore_error t parents cf actions i more h h1 e Ha.
    now apply group_parents_loop_fatal.
  - intros budget g cf parent h h1 t parents total a rest e Ht Hp Hc Hs Ha Hl.
    rewrite exec_step_group_action_S.
    now apply group_body_fatal with (t := t) (parents := parents) (total := total)
                                    (a := a) (rest := rest).
  - intros fuel d cf parent h sel sfx t text loc h1 Hif Hsel Hsfx Ht Hc Hi.
    rewrite unconditional_click_is_primary by assumption.
    exact (primary_click_no_match d cf parent h Hsel Hsfx Ht Hc Hi).
  - intros loc index timeout h Hc.
    rewrite pesi_wait_and_click_no_match by assumption. reflexivity.
Qed.

End FatalFailure.

(* ================================================================== *)
(** ** Tolerated failures *)

Section ToleratedFailure.

Variable env : runtime.

(** Close a goal [quiet (r, h') h] on an explicit result. *)
Ltac quiet_leaf :=
  unfold quiet; cbn [fst snd];
  first [ exists (@nil event); split; [rewrite app_nil_r; reflexivity|]
        | rewrite <- ?app_assoc; cbn [app]; eexists; split; [reflexivity|] ];
  split; [reflexivity|]; intros ? ?; first [discriminate|reflexivity].

(** Case on whatever the computation inspects next. *)
Ltac branch :=
  match goal with
  | |- context [respond ?e ?h ?c] =>
      let E := fresh "Eenv" in destruct (respond e h c) eqn:E
  | |- context [match ?x with Ret _ => _ | Raise _ => _ end] =>
      let E := fresh "Eout" in destruct x eqn:E
  | |- context [if ?b then _ else _] =>
      let E := fresh "Eb" in destruct b eqn:E
  | |- context [match ?x with Some _ => _ | None => _ end] =>
      let E := fresh "Eopt" in destruct x eqn:E
  end.

Lemma primary_click_quiet (d : dict) (cf : option frame_ref)
    (parent : option locator) (h : history) (loc : locator) :
  kind_of (get_key d "type" [] JNull) = KClick ->
  truthy (get_key d "ignore" [] (JBool false)) = true ->
  step_locator env d cf parent = Ret loc ->
  (forall h', respond env h' (Count loc) = inr 0%nat) ->
  quiet (primary_click env d cf parent h) h.
Proof.
  intros Hk Hi Hloc Hc. unfold step_locator in Hloc. rewrite Hk in Hloc.
  unfold primary_click. rewrite Hi.
  destruct (build_css_selector env _ _ _ _) as [sel|e]; [|discriminate].
  injection Hloc as <-.
  unfold wait_and_click. run_monad.
  destruct (has_text_suffix _); [|quiet_leaf].
  destruct (py_float env _); [|destruct e; quiet_leaf].
  rewrite Hc. cbn [Nat.eqb negb andb].
  quiet_leaf.
Qed.

(** Run a step executor down to the count of its locator, which is 0. *)
Ltac quiet_auto Hc :=
  run_monad;
  repeat first
    [ rewrite Hc; cbn [Nat.eqb negb andb]
    | quiet_leaf
    | branch ].

Ltac use_locator Hk Hloc :=
  unfold step_locator in Hloc; rewrite Hk in Hloc;
  match type of Hloc with
  | match ?b with Ret _ => _ | Raise _ => _ end = _ =>
      let sel := fresh "sel" in
      destruct b as [sel|?]; [|discriminate]; injection Hloc as <-
  end.

Lemma exec_step_write_quiet (d : dict) (cf : option frame_ref)
    (parent : option locator) (h : history) (loc : locator) :
  kind_of (get_key d "type" [] JNull) = KWrite ->
  truthy (get_key d "ignore" [] (JBool false)) = true ->
  step_locator env d cf parent = Ret loc ->
  (forall h', respond env h' (Count loc) = inr 0%nat) ->
  quiet (exec_step_write env d cf parent h) h.
Proof.
  intros Hk Hi Hloc Hc. unfold exec_step_write. rewrite Hi.
  use_locator Hk Hloc. quiet_auto Hc.
Qed.

Lemma exec_step_scroll_quiet (d : dict) (cf : option frame_ref)
    (parent : option locator) (h : history) (loc : locator) :
  kind_of (get_key d "type" [] JNull) = KScroll ->
  is_none (get_key d "x" [] JNull) && is_none (get_key d "y" [] JNull) = true ->
  truthy (get_key d "ignore" [] (JBool false)) = true ->
  step_locator env d cf parent = Ret loc ->
  (forall h', respond env h' (Count loc) = inr 0%nat) ->
  quiet (exec_step_scroll env d cf parent h) h.
Proof.
  intros Hk Hxy Hi Hloc Hc. apply andb_prop in Hxy. destruct Hxy as [Hx Hy].
  unfold exec_step_scroll. rewrite Hi, Hx, Hy. cbn [negb orb].
  use_locator Hk Hloc. quiet_auto Hc.
Qed.

Lemma exec_step_array_quiet (d : dict) (cf : option frame_ref)
    (parent : option locator) (h : history) (loc : locator) :
  kind_of (get_key d "type" [] JNull) = KArray ->
  truthy (get_key d "ignore" [] (JBool false)) = true ->
  step_locator env d cf parent = Ret loc ->
  (forall h', respond env h' (Count loc) = inr 0%nat) ->
  quiet (exec_step_array env d cf parent h) h.
Proof.
  intros Hk Hi Hloc Hc. unfold exec_step_array. rewrite Hi.
  use_locator Hk Hloc. quiet_auto Hc.
Qed.

Lemma exec_step_group_action_quiet (fuel : nat) (d : dict)
    (cf : option frame_ref) (parent : option locator) (h : history)
    (loc : locator) :
  kind_of (get_key d "type" [] JNull) = KGroupAction ->
  truthy (get_key d "ignore" [] (JBool false)) = true ->
  step_locator env d cf parent = Ret loc ->
  (forall h', respond env h' (Count loc) = inr 0%nat) ->
  quiet (exec_step_group_action env fuel d cf parent h) h.
Proof.
  intros Hk Hi Hloc Hc. destruct fuel as [|n].
  - unfold exec_step_group_action. quiet_auto Hc.
  - rewrite exec_step_group_action_S. unfold group_body. rewrite Hi.
    use_locator Hk Hloc. quiet_auto Hc.
Qed.

Lemma exec_step_download_from_link_quiet (d : dict) (cf : option frame_ref)
    (parent : option locator) (h : history) (loc : locator) :
  kind_of (get_key d "type" [] JNull) = KDownloadFromLink ->
  truthy (get_key d "ignore" [] (JBool false)) = true ->
  step_locator env d cf parent = Ret loc ->
  (forall h', respond env h' (Count loc) = inr 0%nat) ->
  quiet (exec_step_download_from_link env d cf parent h) h.
Proof.
  intros Hk Hi Hloc Hc. unfold exec_step_download_from_link. rewrite Hi.
  use_locator Hk Hloc. quiet_auto Hc.
Qed.

Lemma exec_step_click_quiet (fuel : nat) (d : dict) (cf : option frame_ref)
    (parent : option locator) (h : history) (loc : locator) :
  kind_of (get_key d "type" [] JNull) = KClick ->
  truthy (get_key d "if" [] JNull) = false ->
  truthy (get_key d "ignore" [] (JBool false)) = true ->
  step_locator env d cf parent = Ret loc ->
  (forall h', respond env h' (Count loc) = inr 0%nat) ->
  quiet (exec_step_click env fuel d cf parent h) h.
Proof.
  intros Hk Hif Hi Hloc Hc. destruct fuel as [|n].
  - unfold exec_step_click. quiet_auto Hc.
  - rewrite unconditional_click_is_primary by assumption.
    now apply primary_click_quiet with (loc := loc).
Qed.

(** A quiet executor under a tolerant step: the turn of the loop ends
    normally, with the frame it started with. *)
Lemma tolerant_turn_quiet (m : M unit) (cf : option frame_ref) (idx : Z)
    (d : dict) (h : history) :
  quiet (m (h ++ step_header idx d)) (h ++ step_header idx d) ->
  exists tr : history,
    match (m;; ret cf) (h ++ step_header idx d) with
    | (Ret cf', h1) => (Ret cf', h1)
    | (Raise e, h1) => (Ret cf, h1 ++ step_ignored idx d e)
    end = (Ret cf, h ++ tr)
    /\ forallb passive tr = true
    /\ existsb is_warning tr = true.
Proof.
  intros (tr0 & Hh & Hp & Hw). unfold bind, ret.
  destruct (m (h ++ step_header idx d)) as [[[]|e] h1]; cbn [fst snd] in *; subst h1.
  - exists (step_header idx d ++ tr0). rewrite app_assoc.
    split; [reflexivity|]. rewrite forallb_app, existsb_app, Hp, (Hw tt eq_refl).
    split; [reflexivity|apply orb_true_r].
  - exists (step_header idx d ++ tr0 ++ step_ignored idx d e).
    rewrite !app_assoc. split; [reflexivity|].
    rewrite !forallb_app, !existsb_app, Hp.
    split; [reflexivity|apply orb_true_r].
Qed.

Lemma run_step_quiet (fuel : nat) (idx : Z) (cf : option frame_ref) (d : dict)
    (h : history) (loc : locator) :
  truthy (get_key d "ignore" [] (JBool false)) = true ->
  resolves_by_selector d = true ->
  step_locator env d cf None = Ret loc ->
  (forall h', respond env h' (Count loc) = inr 0%nat) ->
  exists tr : history,
    run_step env fuel idx cf (JObj d) h = (Ret cf, h ++ tr)
    /\ forallb passive tr = true
    /\ existsb is_warning tr = true.
Proof.
  intros Hi Hr Hloc Hc. unfold resolves_by_selector in Hr.
  rewrite run_step_unfold
    by (apply kind_of_supported_truthy; intros E; rewrite E in Hr; discriminate).
  rewrite Hi. unfold run_dispatch.
  destruct (kind_of (get_key d "type" [] JNull)) eqn:Hk; try discriminate;
    apply tolerant_turn_quiet.
  - apply exec_step_click_quiet with (loc := loc); try assumption.
    now apply negb_true_iff.
  - now apply exec_step_array_quiet with (loc := loc).
  - now apply exec_step_group_action_quiet with (loc := loc).
  - now apply exec_step_write_quiet with (loc := loc).
  - now apply exec_step_scroll_quiet with (loc := loc).
  - now apply exec_step_download_from_link_quiet with (loc := loc).
Qed.

(** A step whose tolerance flag is true never ends the run, whatever
    its kind and whatever its executor does. *)
Lemma tolerant_step_never_aborts (fuel : nat) (idx : Z)
    (cf : option frame_ref) (d : dict) (h : history) :
  truthy (get_key d "ignore" [] (JBool false)) = true ->
  exists cf' h', run_step env fuel idx cf (JObj d) h = (Ret cf', h').
Proof.
  intros Hi.
  destruct (truthy (get_key d "type" [] JNull)) eqn:Ht.
  - rewrite run_step_unfold by assumption. rewrite Hi.
    destruct (run_dispatch env fuel true d _ cf _) as [[cf'|e] h1]; eauto.
  - rewrite run_step_missing_type by assumption. rewrite Hi. eauto.
Qed.


End ToleratedFailure.

(** Scenario B, run: one link on the page and a click at index 2.  The
    run aborts at the first step with exit code 1; nothing is clicked and
    the second step leaves no trace. *)
Lemma fatal_error_stops_run_witness :
  main (plain_env (always 1%nat) []) (JList index_out_of_range_workflow) JNull []
  = (Ret 1,
     [Emitted (Log LInfo "--- Step" [JNum 1; JStr "Step #1"]);
      Emitted (Print "[Step" [JNum 1; JStr "Step #1"]);
      Emitted (Log LInfo "Click selector:" [JStr "a"]);
      Called (Count (Locate Page "a"));
      Emitted (Log LError "Step failed:"
                 [JStr "Step #1"; JStr "Element interaction failed:"]);
      Emitted (Print "[ERROR]"
                 [JStr "Step #1"; JStr "Element interaction failed:"]);
      Emitted (Input "Press Enter to close the browser...");
      Emitted (Log LError "Run aborted:" [JStr "Element interaction failed:"]);
      Emitted (Print "[FATAL] Run aborted:" [JStr "Element interaction failed:"])]).
Proof.
  exact (proj2
           (proj1 (fatal_error_stops_run (plain_env (always 1%nat) []))
              []
              (JObj [("type", JStr "click"); ("tag", JStr "a");
                     ("array_select_one", JNum 2)])
              [JObj [("type", JStr "click"); ("tag", JStr "button")]]
              JNull [] [] []
              [Emitted (Log LInfo "--- Step" [JNum 1; JStr "Step #1"]);
               Emitted (Print "[Step" [JNum 1; JStr "Step #1"]);
               Emitted (Log LInfo "Click selector:" [JStr "a"]);
               Called (Count (Locate Page "a"));
               Emitted (Log LError "Step failed:"
                          [JStr "Step #1"; JStr "Element interaction failed:"]);
               Emitted (Print "[ERROR]"
                          [JStr "Step #1"; JStr "Element interaction failed:"])]
              None
              (RuntimeError "Element interaction failed:"
                 [JStr "array_select_one index"])
              eq_refl eq_refl eq_refl)).
Defined.


(* ================================================================== *)
(** ** The frame of a group *)

Section GroupFrame.

Variable env : runtime.

(** Inside a group selectors are resolved in the parent element,
    whatever the frame. *)
Lemma get_locator_root_parent (frame : option frame_ref) (p : locator) :
  get_locator_root frame (Some p) = p.
Proof. reflexivity. Qed.

(** A nested action other than goto, frame and main_frame hands the
    local frame on as it received it. *)
Lemma group_nested_action_keeps_frame (budget : nat)
    (exec_group : dict -> option frame_ref -> option locator -> M unit)
    (ignore_error : bool) (p : locator) (i j : Z) (a : dict)
    (lf lf' : option frame_ref) (h : history) :
  kind_of (get_key a "type" [] JNull) <> KGoto ->
  kind_of (get_key a "type" [] JNull) <> KFrame ->
  kind_of (get_key a "type" [] JNull) <> KMainFrame ->
  fst (group_nested_action env budget exec_group ignore_error p i j (JObj a) lf h)
  = Ret lf' ->
  lf' = lf.
Proof.
  intros Hg Hf Hm. unfold group_nested_action, group_dispatch.
  destruct (negb (truthy (get_key a "type" [] JNull))).
  - run_monad. cbn [fst]. congruence.
  - destruct (kind_of (get_key a "type" [] JNull)); try congruence;
      destruct (truthy (get_key a "ignore" [] (JBool false)) || ignore_error);
      run_monad; repeat split_run; cbn [fst]; congruence.
Qed.

Lemma same_but_frame_refl (r : outcome (option frame_ref) * history) :
  same_but_frame r r.
Proof.
  split; [reflexivity|]. destruct (fst r); auto.
Qed.

(** The alternates of a click are run by the click executor: what it
    does decides what they do. *)
Lemma alt_clicks_loop_in_scope
    (exec exec' : dict -> option frame_ref -> option locator -> M unit)
    (cf cf' : option frame_ref) (parent : option locator) (l : list json) :
  (forall (a : dict) (h : history), exec a cf parent h = exec' a cf' parent h) ->
  forall h : history,
    alt_clicks_loop exec l cf parent h = alt_clicks_loop exec' l cf' parent h.
Proof.
  intros He. induction l as [|x r IH]; intros h; [reflexivity|].
  cbn [alt_clicks_loop]. destruct x; try apply IH.
  cbv [bind info emit]. rewrite He.
  destruct (exec' d cf' parent _) as [[[]|e] h1]; [apply IH|reflexivity].
Qed.

(** Under a parent element the click executor does not look at the
    frame: the condition, the alternates and the primary click are all
    resolved in the parent. *)
Lemma exec_step_click_in_parent (fuel : nat) :
  forall (a : dict) (lf lf' : option frame_ref) (p : locator) (h : history),
    exec_step_click env fuel a lf (Some p) h
    = exec_step_click env fuel a lf' (Some p) h.
Proof.
  induction fuel as [|n IH]; intros a lf lf' p h; [reflexivity|].
  cbn [exec_step_click]. unfold click_body.
  destruct (truthy (get_key a "if" [] JNull)); [|reflexivity].
  cbv [bind info emit].
  change (check_condition env (get_key a "if" [] JNull) lf (Some p) h)
    with (check_condition env (get_key a "if" [] JNull) lf' (Some p) h).
  destruct (check_condition env (get_key a "if" [] JNull) lf' (Some p) h)
    as [[met|e] h1]; [|reflexivity].
  destruct met; [|reflexivity].
  apply alt_clicks_loop_in_scope. intros a' h'. apply IH.
Qed.

Section InParent.

Variable budget : nat.
Variable exec_group : dict -> option frame_ref -> option locator -> M unit.

(** The nested group executor, supposed not to look at the frame when
    it is given a parent. *)
Hypothesis exec_group_in_parent :
  forall (a : dict) (lf lf' : option frame_ref) (p : locator) (h : history),
    exec_group a lf (Some p) h = exec_group a lf' (Some p) h.

Lemma group_dispatch_in_parent (tolerated : bool) (a : dict) (a_type : json)
    (lf lf' : option frame_ref) (p : locator) (h : history) :
  same_but_frame (group_dispatch env budget exec_group tolerated a a_type lf p h)
    (group_dispatch env budget exec_group tolerated a a_type lf' p h).
Proof.
  unfold group_dispatch.
  destruct (kind_of a_type); try apply same_but_frame_refl.
  - unfold bind. rewrite (exec_step_click_in_parent budget a lf lf' p h).
    destruct (exec_step_click env budget a lf' (Some p) h) as [[[]|e] h1];
      split; cbn; auto.
  - unfold bind.
    change (exec_step_array env a lf (Some p) h)
      with (exec_step_array env a lf' (Some p) h).
    destruct (exec_step_array env a lf' (Some p) h) as [[[]|e] h1];
      split; cbn; auto.
  - unfold bind. rewrite (exec_group_in_parent a lf lf' p h).
    destruct (exec_group a lf' (Some p) h) as [[[]|e] h1]; split; cbn; auto.
  - unfold bind.
    change (exec_step_write env a lf (Some p) h)
      with (exec_step_write env a lf' (Some p) h).
    destruct (exec_step_write env a lf' (Some p) h) as [[[]|e] h1];
      split; cbn; auto.
  - unfold bind.
    destruct (exec_step_use_last_tab env a h) as [[[]|e] h1]; split; cbn; auto.
  - unfold bind.
    change (exec_step_scroll env a lf (Some p) h)
      with (exec_step_scroll env a lf' (Some p) h).
    destruct (exec_step_scroll env a lf' (Some p) h) as [[[]|e] h1];
      split; cbn; auto.
  - unfold bind.
    change (exec_step_download_from_link env a lf (Some p) h)
      with (exec_step_download_from_link env a lf' (Some p) h).
    destruct (exec_step_download_from_link env a lf' (Some p) h)
      as [[[]|e] h1]; split; cbn; auto.
  - unfold bind.
    destruct (exec_step_download_page env a h) as [[[]|e] h1]; split; cbn; auto.
  - destruct tolerated; split; reflexivity.
Qed.

Lemma group_nested_action_in_parent (ignore_error : bool) (p : locator)
    (i j : Z) (action : json) (lf lf' : option frame_ref) (h : history) :
  same_but_frame
    (group_nested_action env budget exec_group ignore_error p i j action lf h)
    (group_nested_action env budget exec_group ignore_error p i j action lf' h).
Proof.
  destruct action as [| | | | |a]; try apply same_but_frame_refl.
  unfold group_nested_action.
  destruct (negb (truthy (get_key a "type" [] JNull))).
  - split; reflexivity.
  - cbv [bind info emit try_except].
    match goal with
    | |- context [group_dispatch env budget exec_group ?t a ?ty lf p ?h0] =>
        destruct (group_dispatch_in_parent t a ty lf lf' p h0) as [Hs Ho];
        destruct (group_dispatch env budget exec_group t a ty lf p h0)
          as [[f|e] h1];
        destruct (group_dispatch env budget exec_group t a ty lf' p h0)
          as [[f'|e'] h1']
    end; cbn [fst snd] in Hs, Ho; try contradiction; subst.
    + split; reflexivity.
    + destruct (truthy (get_key a "ignore" [] (JBool false)) || ignore_error);
        split; reflexivity.
Qed.

Lemma group_actions_loop_in_parent (ignore_error : bool) (p : locator) (i : Z)
    (actions : list json) :
  forall (j : Z) (lf lf' : option frame_ref) (h : history),
    same_but_frame
      (group_actions_loop env budget exec_group ignore_error p i j actions lf h)
      (group_actions_loop env budget exec_group ignore_error p i j actions lf' h).
Proof.
  induction actions as [|a rest IH]; intros j lf lf' h.
  - split; reflexivity.
  - rewrite !group_actions_loop_cons.
    destruct (group_nested_action_in_parent ignore_error p i j a lf lf' h)
      as [Hs Ho].
    destruct (group_nested_action env budget exec_group ignore_error p i j a lf h)
      as [[f|e] h1];
      destruct (group_nested_action env budget exec_group ignore_error p i j a lf' h)
        as [[f'|e'] h1'];
      cbn [fst snd] in Hs, Ho; try contradiction; subst.
    + apply IH.
    + split; reflexivity.
Qed.

Lemma group_parents_loop_in_parent (ignore_error : bool) (timeout : pyfloat)
    (parents : locator) (actions : list json) (cf cf' : option frame_ref)
    (indices : list Z) :
  forall h : history,
    group_parents_loop env budget exec_group ignore_error timeout parents cf
      actions indices h
    = group_parents_loop env budget exec_group ignore_error timeout parents cf'
        actions indices h.
Proof.
  induction indices as [|i rest IH]; intros h; [reflexivity|].
  rewrite !group_parents_loop_cons.
  match goal with
  | |- context [group_actions_loop env budget exec_group ignore_error ?p i 1
                  actions cf ?h0] =>
      destruct (group_actions_loop_in_parent ignore_error p i actions 1 cf cf' h0)
        as [Hs Ho];
      destruct (group_actions_loop env budget exec_group ignore_error p i 1
                  actions cf h0) as [[f|e] h1];
      destruct (group_actions_loop env budget exec_group ignore_error p i 1
                  actions cf' h0) as [[f'|e'] h1']
  end; cbn [fst snd] in Hs, Ho; try contradiction; subst.
  - apply IH.
  - reflexivity.
Qed.

Lemma group_body_in_parent (g : dict) (cf cf' : option frame_ref) (p : locator)
    (h : history) :
  group_body env budget exec_group g cf (Some p) h
  = group_body env budget exec_group g cf' (Some p) h.
Proof.
  unfold group_body. cbn [get_locator_root].
  cbv [bind lift].
  destruct (py_float env _) as [t|e]; [|reflexivity].
  destruct (build_css_selector env _ _ _ _) as [sel|e]; [|reflexivity].
  destruct (call_env env _ h) as [[total|e] h1]; [|reflexivity].
  destruct (Nat.eqb total 0); [reflexivity|].
  destruct (info _ _ h1) as [[[]|e] h2]; [|reflexivity].
  destruct (select_parents _ _ _ _ h2) as [[[idxs|]|e] h3]; try reflexivity.
  destruct (get_key g "actions" ["steps"] (JList [])) as [| | | |[|a rest]|];
    try reflexivity.
  rewrite (group_parents_loop_in_parent _ _ _ _ cf cf').
  reflexivity.
Qed.

End InParent.

(** Under a parent element a group step does not look at the frame
    either. *)
Lemma exec_step_group_action_in_parent (fuel : nat) :
  forall (g : dict) (cf cf' : option frame_ref) (p : locator) (h : history),
    exec_step_group_action env fuel g cf (Some p) h
    = exec_step_group_action env fuel g cf' (Some p) h.
Proof.
  induction fuel as [|n IH]; intros g cf cf' p h; [reflexivity|].
  cbn [exec_step_group_action]. apply group_body_in_parent. exact IH.
Qed.

(** C5, amended.  Within a group a nested frame step hands the frame it
    resolved to the actions that follow it in the same parent's list, a
    nested main_frame step and a nested goto step hand them no frame,
    and every other nested action hands on the frame it received; each
    parent's list starts from the frame the group was entered with; and
    the frame carried by the run loop is the same after a group step as
    before it.  But the frame handed on has no effect on what the
    actions that follow do: they run with the parent element as their
    scope, and started from the same history with any two frames, the
    rest of the list leaves the same history and ends with the same
    error, if any.  So after a nested frame step the rest of the list
    does what it does with the frame the step received. *)
Theorem group_frame_is_handed_on_without_effect :
  (forall (budget : nat) (ignore_error : bool) (p : locator) (i j : Z)
          (a : dict) (rest : list json) (lf : option frame_ref)
          (h h1 : history) (f : frame_ref),
      kind_of (get_key a "type" [] JNull) = KFrame ->
      switch_to_frame env a (h ++ action_header i j a) = (Ret f, h1) ->
      group_actions_loop env budget (exec_step_group_action env budget)
        ignore_error p i j (JObj a :: rest) lf h
      = group_actions_loop env budget (exec_step_group_action env budget)
          ignore_error p i (j + 1) rest (Some f) h1
      /\ same_but_frame
           (group_actions_loop env budget (exec_step_group_action env budget)
              ignore_error p i j (JObj a :: rest) lf h)
           (group_actions_loop env budget (exec_step_group_action env budget)
              ignore_error p i (j + 1) rest lf h1))
  /\ (forall (budget : nat) (ignore_error : bool) (p : locator) (i j : Z)
             (a : dict) (rest : list json) (lf : option frame_ref) (h : history),
        kind_of (get_key a "type" [] JNull) = KMainFrame ->
        group_actions_loop env budget (exec_step_group_action env budget)
          ignore_error p i j (JObj a :: rest) lf h
        = group_actions_loop env budget (exec_step_group_action env budget)
            ignore_error p i (j + 1) rest None
            (h ++ action_header i j a
               ++ [Emitted (Log LInfo "Switching back to main frame" [])]))
  /\ (forall (budget : nat) (ignore_error : bool) (p : locator) (i j : Z)
             (a : dict) (rest : list json) (lf : option frame_ref)
             (h h1 : history),
        kind_of (get_key a "type" [] JNull) = KGoto ->
        exec_step_goto env a (h ++ action_header i j a) = (Ret tt, h1) ->
        group_actions_loop env budget (exec_step_group_action env budget)
          ignore_error p i j (JObj a :: rest) lf h
        = group_actions_loop env budget (exec_step_group_action env budget)
            ignore_error p i (j + 1) rest None h1)
  /\ (forall (budget : nat) (ignore_error : bool) (p : locator) (i j : Z)
             (a : dict) (lf lf' : option frame_ref) (h : history),
        kind_of (get_key a "type" [] JNull) <> KGoto ->
        kind_of (get_key a "type" [] JNull) <> KFrame ->
        kind_of (get_key a "type" [] JNull) <> KMainFrame ->
        fst (group_nested_action env budget (exec_step_group_action env budget)
               ignore_error p i j (JObj a) lf h) = Ret lf' ->
        lf' = lf)
  /\ (forall (budget : nat) (ignore_error : bool) (timeout : pyfloat)
             (parents : locator) (cf : option frame_ref) (actions : list json)
             (i : Z) (rest : list Z) (h : history),
        group_parents_loop env budget (exec_step_group_action env budget)
          ignore_error timeout parents cf actions (i :: rest) h
        = match group_actions_loop env budget (exec_step_group_action env budget)
                  ignore_error (Nth parents i) i 1 actions cf
                  (snd (group_visit env (Nth parents i) i timeout h)) with
          | (Ret _, h1) =>
              group_parents_loop env budget (exec_step_group_action env budget)
                ignore_error timeout parents cf actions rest h1
          | (Raise e, h1) => (Raise e, h1)
          end)
  /\ (forall (fuel : nat) (idx : Z) (cf cf' : option frame_ref) (d : dict)
             (h : history),
        kind_of (get_key d "type" [] JNull) = KGroupAction ->
        fst (run_step env fuel idx cf (JObj d) h) = Ret cf' ->
        cf' = cf)
  /\ (forall (budget : nat) (ignore_error : bool) (p : locator) (i j : Z)
             (actions : list json) (lf lf' : option frame_ref) (h : history),
        same_but_frame
          (group_actions_loop env budget (exec_step_group_action env budget)
             ignore_error p i j actions lf h)
          (group_actions_loop env budget (exec_step_group_action env budget)
             ignore_error p i j actions lf' h)).
Proof.
  assert (forall (budget : nat) (ignore_error : bool) (p : locator) (i j : Z)
                 (a : dict) (rest : list json) (lf : option frame_ref)
                 (h h1 : history) (f : frame_ref),
             kind_of (get_key a "type" [] JNull) = KFrame ->
             switch_to_frame env a (h ++ action_header i j a) = (Ret f, h1) ->
             group_actions_loop env budget (exec_step_group_action env budget)
               ignore_error p i j (JObj a :: rest) lf h
             = group_actions_loop env budget (exec_step_group_action env budget)
                 ignore_error p i (j + 1) rest (Some f) h1) as Hframe.
  { intros budget ignore_error p i j a rest lf h h1 f Hk Hs.
    rewrite group_actions_loop_cons. unfold group_nested_action.
    rewrite (kind_of_supported_truthy (get_key a "type" [] JNull))
      by (rewrite Hk; discriminate).
    cbv [negb]. unfold group_dispatch. rewrite Hk.
    unfold exec_step_frame, action_header, action_title in *.
    run_monad. rewrite Hs. reflexivity. }
  refine (conj _ (conj _ (conj _ (conj _ (conj _ (conj _ _)))))).
  - intros budget ignore_error p i j a rest lf h h1 f Hk Hs.
    split; [exact (Hframe budget ignore_error p i j a rest lf h h1 f Hk Hs)|].
    rewrite (Hframe budget ignore_error p i j a rest lf h h1 f Hk Hs).
    apply group_actions_loop_in_parent.
    apply exec_step_group_action_in_parent.
  - intros budget ignore_error p i j a rest lf h Hk.
    rewrite group_actions_loop_cons. unfold group_nested_action.
    rewrite (kind_of_supported_truthy (get_key a "type" [] JNull))
      by (rewrite Hk; discriminate).
    cbv [negb]. unfold group_dispatch. rewrite Hk.
    unfold exec_step_main_frame, switch_to_main_frame, action_header, action_title.
    run_monad. rewrite <- app_assoc. reflexivity.
  - intros budget ignore_error p i j a rest lf h h1 Hk Hs.
    rewrite group_actions_loop_cons. unfold group_nested_action.
    rewrite (kind_of_supported_truthy (get_key a "type" [] JNull))
      by (rewrite Hk; discriminate).
    cbv [negb]. unfold group_dispatch. rewrite Hk.
    unfold action_header, action_title in *.
    run_monad. rewrite Hs. reflexivity.
  - intros budget ignore_error p i j a lf lf' h.
    apply group_nested_action_keeps_frame.
  - intros. apply group_parents_loop_cons.
  - intros fuel idx cf cf' d h Hk.
    rewrite run_step_unfold
      by (apply kind_of_supported_truthy; rewrite Hk; discriminate).
    unfold run_dispatch. rewrite Hk. run_monad.
    repeat split_run; try destruct (truthy (get_key d "ignore" [] (JBool false)));
      cbn [fst]; congruence.
  - intros budget ignore_error p i j actions lf lf' h.
    apply group_actions_loop_in_parent.
    apply exec_step_group_action_in_parent.
Qed.

End GroupFrame.

(** C5, as the specification states it: the frame of a nested frame
    step affects the actions that follow it.  Under a list item, a
    click on a button after a frame step for [#pay] clicks the button
    of the list item, in the document of the page: the very element the
    click alone acts on, and not the button inside the frame, which the
    same click acts on as a step of the run loop after the same frame
    step. *)
Lemma nested_frame_step_changes_no_target :
  let env := plain_env (always 1%nat) [] in
  let pay := FrameLocator (JStr "#pay") in
  fst (group_actions_loop env 1 (exec_step_group_action env 1) false first_item
         0 1 frame_then_click_actions None [])
  = Ret (Some pay)
  /\ clicks_of (snd (group_actions_loop env 1 (exec_step_group_action env 1)
                      false first_item 0 1 frame_then_click_actions None []))
     = [(Nth (Locate first_item "button") 0, Some (FInt 45000))]
  /\ clicks_of (snd (group_actions_loop env 1 (exec_step_group_action env 1)
                      false first_item 0 1 [JObj click_button] None []))
     = [(Nth (Locate first_item "button") 0, Some (FInt 45000))]
  /\ clicks_of (snd (exec_step_click env 1 click_button (Some pay) None []))
     = [(Nth (Locate (InFrame pay) "button") 0, Some (FInt 45000))].
Proof.
  cbv zeta. repeat split; vm_compute; reflexivity.
Qed.

(** A nested frame step, then a click: what the click does with the
    frame handed on is what it does without it. *)
Lemma group_frame_is_handed_on_without_effect_witness :
  let env := plain_env (always 1%nat) [] in
  same_but_frame
    (group_actions_loop env 1 (exec_step_group_action env 1) false first_item 0 2
       [JObj click_button] (Some (FrameLocator (JStr "#pay"))) [])
    (group_actions_loop env 1 (exec_step_group_action env 1) false first_item 0 2
       [JObj click_button] None []).
Proof.
  exact (proj2 (proj2 (proj2 (proj2 (proj2 (proj2
           (group_frame_is_handed_on_without_effect
              (plain_env (always 1%nat) []))))))) 
           1%nat false first_item 0 2 [JObj click_button]
           (Some (FrameLocator (JStr "#pay"))) None []).
Defined.

(* ================================================================== *)
(** ** The recursion budget *)

Section Budget.

Variable env : runtime.

Lemma depth_in_list (x : json) (l : list json) :
  In x l -> (json_depth x < json_depth (JList l))%nat.
Proof.
  intros Hin. cbn [json_depth]. apply Nat.lt_succ_r.
  induction l as [|y r IH]; [destruct Hin|].
  destruct Hin as [->|Hin]; [apply Nat.le_max_l|].
  etransitivity; [exact (IH Hin)|apply Nat.le_max_r].
Qed.

Lemma depth_in_dict (k : string) (v : json) (d : dict) :
  In (k, v) d -> (json_depth v < json_depth (JObj d))%nat.
Proof.
  intros Hin. cbn [json_depth]. apply Nat.lt_succ_r.
  induction d as [|[k' v'] r IH]; [destruct Hin|].
  destruct Hin as [Heq|Hin].
  - injection Heq as -> ->. apply Nat.le_max_l.
  - etransitivity; [exact (IH Hin)|apply Nat.le_max_r].
Qed.

Lemma dict_get_in (d : dict) (key : string) (v : json) :
  dict_get d key = Some v -> exists k, In (k, v) d.
Proof.
  induction d as [|[k' v'] r IH]; simpl; [discriminate|].
  destruct (String.eqb k' key).
  - intros [= ->]. eauto.
  - intros H. destruct (IH H) as [k Hk]. eauto.
Qed.

Lemma get_alts_in (d : dict) (alts : list string) (v : json) :
  get_alts d alts = Some v -> exists k, In (k, v) d.
Proof.
  induction alts as [|a r IH]; simpl; [discriminate|].
  destruct (dict_get d a) eqn:E.
  - intros [= ->]. eapply dict_get_in; eauto.
  - exact IH.
Qed.

Lemma get_nocase_in (d : dict) (key : string) (v : json) :
  get_nocase d key = Some v -> exists k, In (k, v) d.
Proof.
  induction d as [|[k' v'] r IH]; simpl; [discriminate|].
  destruct (String.eqb (PyStr.lower k') (PyStr.lower key)).
  - intros [= ->]. eauto.
  - intros H. destruct (IH H) as [k Hk]. eauto.
Qed.

(** A looked-up value is the default or lies inside the record. *)
Lemma get_key_depth (d : dict) (key : string) (alts : list string)
    (default : json) :
  get_key d key alts default = default
  \/ (json_depth (get_key d key alts default) < json_depth (JObj d))%nat.
Proof.
  unfold get_key.
  destruct (dict_get d key) eqn:E1.
  { right. destruct (dict_get_in _ _ E1) as [k Hk]. eapply depth_in_dict; eauto. }
  destruct (get_alts d alts) eqn:E2.
  { right. destruct (get_alts_in _ _ E2) as [k Hk]. eapply depth_in_dict; eauto. }
  destruct (get_nocase d key) eqn:E3.
  { right. destruct (get_nocase_in _ _ E3) as [k Hk]. eapply depth_in_dict; eauto. }
  left. reflexivity.
Qed.

(** The alternates of a click step lie at least two levels inside it. *)
Lemma alternate_clicks_depth (step : dict) (a : dict) :
  In (JObj a) (alternate_clicks (get_key step "if" [] JNull)) ->
  (json_depth (JObj a) < json_depth (JObj step))%nat.
Proof.
  intros Hin.
  destruct (get_key_depth step "if" [] JNull) as [E|Hd].
  { rewrite E in Hin. destruct Hin. }
  destruct (get_key step "if" [] JNull) as [| | | | |c]; try destruct Hin.
  unfold alternate_clicks in Hin.
  destruct (get_key_depth c "click" [] (JList [])) as [E|Hc].
  { rewrite E in Hin. destruct Hin. }
  assert (json_depth (JObj a) <= json_depth (get_key c "click" [] (JList [])))%nat.
  { destruct (get_key c "click" [] (JList [])) as [| | | |l|o]; cbn [as_list] in Hin;
      try (destruct Hin as [<-|[]]; reflexivity).
    apply Nat.lt_le_incl. now apply depth_in_list. }
  lia.
Qed.

Lemma alt_clicks_loop_ext
    (e1 e2 : dict -> option frame_ref -> option locator -> M unit)
    (alts : list json) (cf : option frame_ref) (parent : option locator) :
  (forall a, In (JObj a) alts -> forall cf p h, e1 a cf p h = e2 a cf p h) ->
  forall h, alt_clicks_loop e1 alts cf parent h = alt_clicks_loop e2 alts cf parent h.
Proof.
  induction alts as [|x r IH]; intros Hext h; [reflexivity|].
  assert (forall h', alt_clicks_loop e1 r cf parent h'
                     = alt_clicks_loop e2 r cf parent h') as IHr.
  { apply IH. intros a Ha. apply Hext. now right. }
  destruct x; cbn [alt_clicks_loop]; try apply IHr.
  unfold bind, info, emit.
  rewrite (Hext d (or_introl eq_refl)).
  destruct (e2 d cf parent _) as [[[]|?] ?]; [apply IHr|reflexivity].
Qed.

(** Past the depth of the step, more budget changes nothing of a click
    step. *)
Lemma exec_step_click_budget (n : nat) :
  forall (step : dict) (cf : option frame_ref) (parent : option locator)
         (h : history),
    (json_depth (JObj step) <= n)%nat ->
    exec_step_click env n step cf parent h
    = exec_step_click env (S n) step cf parent h.
Proof.
  induction n as [|n IH]; intros step cf parent h Hd.
  - cbn [json_depth] in Hd. lia.
  - change (click_body env (exec_step_click env n) step cf parent h
            = click_body env (exec_step_click env (S n)) step cf parent h).
    unfold click_body.
    destruct (truthy (get_key step "if" [] JNull)); [|reflexivity].
    unfold bind.
    destruct (check_condition env _ cf parent h) as [[met|e] h1]; [|reflexivity].
    destruct (info _ _ h1) as [[[]|e] h2]; [|reflexivity].
    destruct met; [|reflexivity].
    apply alt_clicks_loop_ext. intros a Ha cf' p' h'.
    apply IH. apply alternate_clicks_depth in Ha. lia.
Qed.

Lemma group_nested_action_ext (b1 b2 : nat)
    (e1 e2 : dict -> option frame_ref -> option locator -> M unit)
    (ignore_error : bool) (p : locator) (i j : Z) (action : json)
    (lf : option frame_ref) (h : history) :
  (forall a, action = JObj a ->
             forall cf q h', exec_step_click env b1 a cf q h'
                             = exec_step_click env b2 a cf q h') ->
  (forall a, action = JObj a -> forall cf q h', e1 a cf q h' = e2 a cf q h') ->
  group_nested_action env b1 e1 ignore_error p i j action lf h
  = group_nested_action env b2 e2 ignore_error p i j action lf h.
Proof.
  intros Hc Hg. destruct action as [| | | | |a]; try reflexivity.
  specialize (Hc a eq_refl). specialize (Hg a eq_refl).
  unfold group_nested_action.
  destruct (negb (truthy (get_key a "type" [] JNull))); [reflexivity|].
  unfold group_dispatch, bind, try_except.
  destruct (info _ _ h) as [[[]|e] h1]; [|reflexivity].
  destruct (kind_of (get_key a "type" [] JNull)); try reflexivity.
  - rewrite Hc. reflexivity.
  - rewrite Hg. reflexivity.
Qed.

Lemma group_actions_loop_ext (b1 b2 : nat)
    (e1 e2 : dict -> option frame_ref -> option locator -> M unit)
    (ignore_error : bool) (p : locator) (i : Z) (actions : list json) :
  (forall a, In (JObj a) actions ->
             forall cf q h', exec_step_click env b1 a cf q h'
                             = exec_step_click env b2 a cf q h') ->
  (forall a, In (JObj a) actions -> forall cf q h', e1 a cf q h' = e2 a cf q h') ->
  forall j lf h,
    group_actions_loop env b1 e1 ignore_error p i j actions lf h
    = group_actions_loop env b2 e2 ignore_error p i j actions lf h.
Proof.
  induction actions as [|x r IH]; intros Hc Hg j lf h; [reflexivity|].
  rewrite !group_actions_loop_cons.
  rewrite (@group_nested_action_ext b1 b2 e1 e2 ignore_error p i j x lf h);
    [| intros a ->; apply Hc; now left | intros a ->; apply Hg; now left].
  destruct (group_nested_action env b2 e2 ignore_error p i j x lf h)
    as [[lf'|e] h1]; [|reflexivity].
  apply IH; intros a Ha; [apply Hc|apply Hg]; now right.
Qed.

Lemma group_parents_loop_ext (b1 b2 : nat)
    (e1 e2 : dict -> option frame_ref -> option locator -> M unit)
    (ignore_error : bool) (t : pyfloat) (parents : locator)
    (cf : option frame_ref) (actions : list json) (indices : list Z) :
  (forall a, In (JObj a) actions ->
             forall cf q h', exec_step_click env b1 a cf q h'
                             = exec_step_click env b2 a cf q h') ->
  (forall a, In (JObj a) actions -> forall cf q h', e1 a cf q h' = e2 a cf q h') ->
  forall h,
    group_parents_loop env b1 e1 ignore_error t parents cf actions indices h
    = group_parents_loop env b2 e2 ignore_error t parents cf actions indices h.
Proof.
  intros Hc Hg. induction indices as [|i r IH]; intros h; [reflexivity|].
  rewrite !group_parents_loop_cons.
  rewrite (@group_actions_loop_ext b1 b2 e1 e2 ignore_error (Nth parents i) i
             actions Hc Hg).
  destruct (group_actions_loop env b2 e2 _ _ _ _ _ _ _) as [[lf|e] h1];
    [apply IH|reflexivity].
Qed.

(** The nested actions of a group step lie at least two levels inside
    it. *)
Lemma group_actions_depth (step : dict) (actions : list json) (a : dict) :
  get_key step "actions" ["steps"] (JList []) = JList actions ->
  In (JObj a) actions ->
  (S (json_depth (JObj a)) < json_depth (JObj step))%nat.
Proof.
  intros Hget Hin.
  destruct (get_key_depth step "actions" ["steps"] (JList [])) as [E|Hd].
  { rewrite E in Hget. injection Hget as <-. destruct Hin. }
  rewrite Hget in Hd. apply depth_in_list in Hin. lia.
Qed.

(** Past the depth of the step, more budget changes nothing of a group
    step. *)
Lemma exec_step_group_action_budget (n : nat) :
  forall (step : dict) (cf : option frame_ref) (parent : option locator)
         (h : history),
    (json_depth (JObj step) <= n)%nat ->
    exec_step_group_action env n step cf parent h
    = exec_step_group_action env (S n) step cf parent h.
Proof.
  induction n as [|n IH]; intros step cf parent h Hd.
  - cbn [json_depth] in Hd. lia.
  - rewrite !exec_step_group_action_S. unfold group_body, bind.
    destruct (lift _ h) as [[t|e] h1]; [|reflexivity].
    destruct (lift _ h1) as [[sel|e] h2]; [|reflexivity].
    destruct (call_env _ _ h2) as [[total|e] h3]; [|reflexivity].
    destruct (Nat.eqb total 0); [reflexivity|].
    destruct (info _ _ h3) as [[[]|e] h4]; [|reflexivity].
    destruct (select_parents _ _ _ _ h4) as [[[indices|]|e] h5]; try reflexivity.
    destruct (get_key step "actions" ["steps"] (JList [])) as [| | | |actions|]
      eqn:Ha; try reflexivity.
    destruct actions as [|a rest]; [reflexivity|].
    rewrite (@group_parents_loop_ext n (S n) (exec_step_group_action env n)
               (exec_step_group_action env (S n)));
      [reflexivity| |];
      intros a' Ha' cf' q h'; pose proof (@group_actions_depth step _ a' Ha Ha');
      [apply exec_step_click_budget|apply IH]; lia.
Qed.

(** The budget [run] gives the loop is enough: any larger budget yields
    the same run. *)
Theorem run_loop_budget (workflow : list json) (n : nat) :
  (json_depth (JList workflow) <= n)%nat ->
  forall (idx : Z) (cf : option frame_ref) (h : history),
    run_loop env n idx cf workflow h = run_loop env (S n) idx cf workflow h.
Proof.
  induction workflow as [|step rest IH]; intros Hd idx cf h; [reflexivity|].
  assert (json_depth step < json_depth (JList (step :: rest)))%nat as Hs
      by (apply depth_in_list; now left).
  assert (json_depth (JList rest) <= n)%nat as Hr.
  { cbn [json_depth] in Hd |- *.
    pose proof (Nat.le_max_r (json_depth step)
                  ((fix go (l : list json) : nat :=
                      match l with
                      | [] => 0%nat
                      | x :: r => Nat.max (json_depth x) (go r)
                      end) rest)).
    lia. }
  rewrite !run_loop_cons.
  assert (run_step env n idx cf step h = run_step env (S n) idx cf step h) as ->.
  { destruct step as [| | | | |d]; try reflexivity.
    unfold run_step.
    destruct (negb (truthy (get_key d "type" [] JNull))); [reflexivity|].
    unfold bind, try_except, run_dispatch.
    destruct (info _ _ h) as [[[]|e] h1]; [|reflexivity].
    destruct (emit _ h1) as [[[]|e] h2]; [|reflexivity].
    destruct (kind_of (get_key d "type" [] JNull)); try reflexivity.
    - unfold bind. rewrite exec_step_click_budget by lia. reflexivity.
    - unfold bind. rewrite exec_step_group_action_budget by lia. reflexivity. }
  destruct (run_step env (S n) idx cf step h) as [[cf'|e] h1]; [|reflexivity].
  apply IH. exact Hr.
Qed.

End Budget.

(* ================================================================== *)
(** * Further properties *)

(** ** Python strings and the class clause *)

(* ---- spec-side definitions ---- *)

(* ---- string lemmas ---- *)

Section PythonStrings.

Lemma lstrip_no_blank (s : string) : no_blank s = true -> PyStr.lstrip s = s.
Proof.
  destruct s as [|c r]; simpl; [reflexivity|].
  destruct (PyStr.is_space c); [discriminate|reflexivity].
Qed.

Lemma rstrip_no_blank (s : string) : no_blank s = true -> PyStr.rstrip s = s.
Proof.
  induction s as [|c r IH]; simpl; [reflexivity|].
  destruct (PyStr.is_space c); [discriminate|]. simpl. intros H.
  rewrite IH by assumption. rewrite andb_false_r. reflexivity.
Qed.

Lemma strip_no_blank (s : string) : no_blank s = true -> PyStr.strip s = s.
Proof.
  intros H. unfold PyStr.strip. rewrite lstrip_no_blank by assumption.
  now apply rstrip_no_blank.
Qed.

Lemma lstrip_idempotent (s : string) :
  PyStr.lstrip (PyStr.lstrip s) = PyStr.lstrip s.
Proof.
  induction s as [|c r IH]; simpl; [reflexivity|].
  destruct (PyStr.is_space c) eqn:E; [exact IH|]. simpl. rewrite E. reflexivity.
Qed.

Lemma rstrip_idempotent (s : string) :
  PyStr.rstrip (PyStr.rstrip s) = PyStr.rstrip s.
Proof.
  induction s as [|c r IH]; simpl; [reflexivity|].
  destruct (PyStr.is_empty (PyStr.rstrip r) && PyStr.is_space c) eqn:E;
    [reflexivity|].
  simpl. rewrite IH, E. reflexivity.
Qed.

(** A string that does not start with a blank still does not after its
    right end is stripped. *)
Lemma lstrip_rstrip (s : string) :
  PyStr.lstrip s = s -> PyStr.lstrip (PyStr.rstrip s) = PyStr.rstrip s.
Proof.
  destruct s as [|c r]; simpl; [reflexivity|].
  destruct (PyStr.is_space c) eqn:E.
  - intros H. exfalso.
    assert (String.length (PyStr.lstrip r) <= String.length r)%nat as L.
    { clear. induction r as [|a r IH]; simpl; [lia|].
      destruct (PyStr.is_space a); simpl; lia. }
    rewrite H in L. simpl in L. lia.
  - intros _. rewrite andb_false_r. simpl. rewrite E. reflexivity.
Qed.

Lemma strip_idempotent (s : string) :
  PyStr.strip (PyStr.strip s) = PyStr.strip s.
Proof.
  unfold PyStr.strip.
  rewrite lstrip_rstrip by apply lstrip_idempotent.
  apply rstrip_idempotent.
Qed.

Lemma no_blank_app (a b : string) :
  no_blank (a ++ b)%string = no_blank a && no_blank b.
Proof.
  induction a as [|c r IH]; simpl; [reflexivity|].
  rewrite IH, andb_assoc. reflexivity.
Qed.

Lemma split_go_no_blank (s cur : string) :
  no_blank cur = true ->
  Forall (fun p => no_blank p = true) (PyStr.split_go cur s).
Proof.
  revert cur. induction s as [|c r IH]; intros cur Hc; simpl.
  - destruct (PyStr.is_empty cur); constructor; [assumption|constructor].
  - destruct (PyStr.is_space c) eqn:E.
    + destruct (PyStr.is_empty cur); [apply IH; reflexivity|].
      constructor; [assumption|apply IH; reflexivity].
    + apply IH. rewrite no_blank_app, Hc. simpl. rewrite E. reflexivity.
Qed.

Lemma join_no_blank (parts : list string) :
  Forall (fun p => no_blank p = true) parts ->
  no_blank (PyStr.join "." parts) = true.
Proof.
  induction 1 as [|p r Hp Hr IH]; [reflexivity|].
  destruct r as [|q r']; [exact Hp|].
  change (PyStr.join "." (p :: q :: r'))
    with (p ++ "." ++ PyStr.join "." (q :: r'))%string.
  rewrite !no_blank_app, Hp, IH. reflexivity.
Qed.

Lemma clean_name_app (a b : string) :
  clean_name (a ++ b)%string = clean_name a && clean_name b.
Proof.
  induction a as [|c r IH]; simpl; [reflexivity|].
  rewrite IH, andb_assoc. reflexivity.
Qed.

Lemma sanitize_clean (s : string) : clean_name (sanitize s) = true.
Proof.
  induction s as [|c r IH]; simpl; [reflexivity|].
  rewrite IH, andb_true_r.
  destruct (unsafe_char c) eqn:E; [reflexivity|]. rewrite E. reflexivity.
Qed.

Lemma sanitize_empty (s : string) :
  PyStr.is_empty (sanitize s) = PyStr.is_empty s.
Proof. destruct s; reflexivity. Qed.

Lemma app_empty (a b : string) :
  PyStr.is_empty (a ++ b)%string = PyStr.is_empty a && PyStr.is_empty b.
Proof. destruct a; reflexivity. Qed.

Lemma lower_app (a b : string) :
  PyStr.lower (a ++ b)%string = (PyStr.lower a ++ PyStr.lower b)%string.
Proof.
  induction a as [|c r IH]; simpl; [reflexivity|]. rewrite IH. reflexivity.
Qed.

Lemma endswith_refl (p : string) : PyStr.endswith p p = true.
Proof. destruct p; simpl; rewrite ?Ascii.eqb_refl, ?String.eqb_refl; reflexivity. Qed.

Lemma endswith_app (a p : string) : PyStr.endswith p (a ++ p)%string = true.
Proof.
  induction a as [|c r IH]; [apply endswith_refl|].
  simpl. rewrite IH. apply orb_true_r.
Qed.

Lemma endswith_empty (s : string) : PyStr.endswith "" s = true.
Proof.
  induction s as [|c r IH]; [reflexivity|]. simpl. exact IH.
Qed.

End PythonStrings.

Section ClassClause.

Variable env : runtime.

(** The class clause of a string: nothing or a dot-led clause, and free
    of blanks when it is made from a list of class names. *)
Lemma class_clause_shape (s : string) :
  exists c : string,
    normalize_class_selector (JStr s) = Ret c
    /\ (c = "" \/ PyStr.startswith "." c = true)
    /\ (PyStr.startswith "." (PyStr.strip s) = false -> no_blank c = true).
Proof.
  unfold normalize_class_selector.
  destruct (negb (truthy (JStr s))).
  { exists "". split; [reflexivity|]. split; [now left|reflexivity]. }
  destruct (PyStr.startswith "." (PyStr.strip s)) eqn:E.
  { eexists. split; [reflexivity|]. split; [now right|discriminate]. }
  pose proof (split_go_no_blank (PyStr.strip s) "" eq_refl) as Hs.
  fold (PyStr.split (PyStr.strip s)) in Hs.
  assert (Forall (fun p => no_blank p = true)
            (filter (fun p => negb (PyStr.is_empty p)) (PyStr.split (PyStr.strip s))))
    as Hf.
  { rewrite Forall_forall in *. intros p Hp. apply filter_In in Hp. now apply Hs. }
  destruct (filter _ _) as [|p r].
  { exists "". split; [reflexivity|]. split; [now left|reflexivity]. }
  eexists. split; [reflexivity|]. split; [now right|]. intros _.
  rewrite no_blank_app, join_no_blank by assumption. reflexivity.
Qed.

(** X1.  On a string, [normalize_class_selector] never fails, and the
    class clause it yields is empty or starts with a dot.  A string that
    (stripped) starts with a dot comes out stripped and otherwise as it
    is, blanks inside included; any other string is read as a list of
    class names separated by white space, and the clause made of them
    holds no white space, so it never reads as a descendant selector. *)
Theorem normalize_class_selector_shape :
  forall s : string,
    exists c : string,
      normalize_class_selector (JStr s) = Ret c
      /\ (c = "" \/ PyStr.startswith "." c = true)
      /\ (if PyStr.startswith "." (PyStr.strip s)
          then c = PyStr.strip s
          else no_blank c = true).
Proof.
  intros s. destruct (class_clause_shape s) as (c & Hc & Hd & Hb).
  exists c. split; [exact Hc|]. split; [exact Hd|].
  destruct (PyStr.startswith "." (PyStr.strip s)) eqn:E; [|now apply Hb].
  unfold normalize_class_selector in Hc. rewrite E in Hc.
  destruct (negb (truthy (JStr s))) eqn:Et; [|congruence].
  destruct s; [discriminate E|discriminate Et].
Qed.

(** X2.  [normalize_class_selector] is idempotent on strings: the class
    clause of a class clause is that clause. *)
Theorem normalize_class_selector_idempotent :
  forall (s c : string),
    normalize_class_selector (JStr s) = Ret c ->
    normalize_class_selector (JStr c) = Ret c.
Proof.
  intros s c H.
  destruct (class_clause_shape s) as (c' & H' & Hshape & Hnb).
  rewrite H in H'. injection H' as <-.
  unfold normalize_class_selector in H.
  destruct (negb (truthy (JStr s))); [injection H as <-; reflexivity|].
  destruct (PyStr.startswith "." (PyStr.strip s)) eqn:E.
  - injection H as <-. unfold normalize_class_selector.
    rewrite strip_idempotent, E.
    destruct (PyStr.strip s); [discriminate|reflexivity].
  - specialize (Hnb eq_refl).
    destruct Hshape as [->|Hd]; [reflexivity|].
    unfold normalize_class_selector.
    rewrite strip_no_blank by assumption. rewrite Hd.
    destruct c; [discriminate|reflexivity].
Qed.

End ClassClause.

(** The clause of " btn  primary " is ".btn.primary", and so is the
    clause of that. *)
Lemma normalize_class_selector_idempotent_witness :
  normalize_class_selector (JStr ".btn.primary") = Ret ".btn.primary".
Proof.
  exact (@normalize_class_selector_idempotent " btn  primary " ".btn.primary"
           eq_refl).
Defined.

(* ================================================================== *)
(** ** Selector failures, file names, pauses *)

Section SelectorsAndNames.

Variable env : runtime.

Lemma tag_clause_outcome (tag : json) :
  if strippable tag then exists t : string, tag_clause tag = Ret t
  else tag_clause tag = Raise (PyError "AttributeError").
Proof.
  unfold strippable, tag_clause.
  destruct (truthy tag) eqn:Et; simpl; [|eexists; reflexivity].
  destruct tag; try reflexivity. eexists; reflexivity.
Qed.

Lemma normalize_class_selector_outcome (cls : json) :
  if strippable cls then exists c : string, normalize_class_selector cls = Ret c
  else normalize_class_selector cls = Raise (PyError "AttributeError").
Proof.
  unfold strippable.
  destruct (truthy cls) eqn:Et; simpl.
  - destruct cls; try (unfold normalize_class_selector; rewrite Et; reflexivity).
    destruct (class_clause_shape s) as (c & H & _). eauto.
  - unfold normalize_class_selector. rewrite Et. eexists; reflexivity.
Qed.

(** X3.  [build_css_selector] fails exactly when its tag or its class
    is a value that is truthy and not a string (a number other than 0,
    [true], a list or record that is not empty): [.strip()] is then
    called on it and raises [AttributeError].  Attribute and value are
    formatted and never make it fail. *)
Theorem build_css_selector_fails_on_non_strings :
  forall tag cls attr value : json,
    if strippable tag && strippable cls
    then exists sel : string, build_css_selector env tag cls attr value = Ret sel
    else build_css_selector env tag cls attr value = Raise (PyError "AttributeError").
Proof.
  intros tag cls attr value. unfold build_css_selector.
  pose proof (tag_clause_outcome tag) as Ht.
  pose proof (normalize_class_selector_outcome cls) as Hc.
  destruct (strippable tag); simpl.
  - destruct Ht as [t ->].
    destruct (strippable cls); [destruct Hc as [c ->]; eexists; reflexivity|].
    rewrite Hc. reflexivity.
  - rewrite Ht. reflexivity.
Qed.

Lemma make_safe_filename_is_clean :
  forall (name : option string) (default ext : string),
    PyStr.is_empty default = false ->
    clean_name ext = true ->
    clean_name (make_safe_filename name default ext) = true
    /\ PyStr.is_empty (make_safe_filename name default ext) = false.
Proof.
  intros name default ext Hd He. unfold make_safe_filename.
  set (stripped := PyStr.strip match name with Some n => n | None => "" end).
  assert (PyStr.is_empty (if PyStr.is_empty stripped then default else stripped)
          = false) as Hb.
  { destruct (PyStr.is_empty stripped) eqn:E; assumption. }
  destruct (negb (PyStr.is_empty ext) && _).
  - rewrite clean_name_app, sanitize_clean, He, app_empty, sanitize_empty, Hb.
    split; reflexivity.
  - rewrite sanitize_clean, sanitize_empty, Hb. split; reflexivity.
Qed.

Lemma make_safe_filename_has_extension :
  forall (name : option string) (default ext : string),
    PyStr.endswith (PyStr.lower ext)
      (PyStr.lower (make_safe_filename name default ext)) = true.
Proof.
  intros name default ext. unfold make_safe_filename.
  set (base := sanitize _).
  destruct (PyStr.is_empty ext) eqn:Ee.
  - destruct ext; [|discriminate]. simpl. apply endswith_empty.
  - simpl. destruct (PyStr.endswith (PyStr.lower ext) (PyStr.lower base)) eqn:E.
    + simpl. exact E.
    + simpl. rewrite lower_app. apply endswith_app.
Qed.


(** X5.  What [step_sleep] does with a duration.  It never touches the
    page.  It does nothing when [float] rejects the duration (absent, a
    list, a record, a string that is no number, an integer too large for
    a double) or when the duration is not positive.  For a positive
    duration it calls [time.sleep], outside any handler: a duration the
    clock cannot hold raises [OverflowError], the platform's own failure
    is raised as it is, and otherwise there is one pause, of the parsed
    duration.  For an integer [n], in particular: nothing happens when
    [n <= 0] or [n] is beyond the doubles, and [OverflowError] is raised
    when [n] exceeds 9223372036 seconds. *)
Theorem step_sleep_outcomes :
  forall (seconds : json) (h : history),
    (forall e : exn,
        py_float env seconds = Raise e ->
        step_sleep env seconds h = (Ret tt, h))
    /\ (forall f : pyfloat,
           py_float env seconds = Ret f ->
           float_gt_zero env f = false ->
           step_sleep env seconds h = (Ret tt, h))
    /\ (forall f : pyfloat,
           py_float env seconds = Ret f ->
           float_gt_zero env f = true ->
           clock_overflow f = true ->
           step_sleep env seconds h = (Raise (PyError "OverflowError"), h))
    /\ (forall (f : pyfloat) (cls : string),
           py_float env seconds = Ret f ->
           float_gt_zero env f = true ->
           clock_overflow f = false ->
           sleep_error env h f = Some cls ->
           step_sleep env seconds h = (Raise (PyError cls), h))
    /\ (forall f : pyfloat,
           py_float env seconds = Ret f ->
           float_gt_zero env f = true ->
           clock_overflow f = false ->
           sleep_error env h f = None ->
           step_sleep env seconds h = (Ret tt, h ++ [Emitted (Sleep f)]))
    /\ (forall n : Z,
           seconds = JNum n ->
           (n <= 0 \/ float_int_bound <= Z.abs n ->
            step_sleep env seconds h = (Ret tt, h))
           /\ (9223372036 < n < float_int_bound ->
               step_sleep env seconds h = (Raise (PyError "OverflowError"), h))).
Proof.
  intros seconds h.
  assert (forall f : pyfloat,
             py_float env seconds = Ret f ->
             step_sleep env seconds h
             = (if float_gt_zero env f then time_sleep env f h else (Ret tt, h)))
    as Hret.
  { intros f Ef. unfold step_sleep. rewrite Ef.
    destruct seconds; [discriminate Ef|..];
      destruct (float_gt_zero env f); reflexivity. }
  assert (forall e : exn,
             py_float env seconds = Raise e ->
             step_sleep env seconds h = (Ret tt, h)) as Hraise.
  { intros e Ee. unfold step_sleep. rewrite Ee.
    destruct seconds; reflexivity. }
  refine (conj Hraise (conj _ (conj _ (conj _ (conj _ _))))).
  - intros f Ef Eg. rewrite (Hret f Ef), Eg. reflexivity.
  - intros f Ef Eg Eo. rewrite (Hret f Ef), Eg. unfold time_sleep.
    rewrite Eo. reflexivity.
  - intros f cls Ef Eg Eo Es. rewrite (Hret f Ef), Eg. unfold time_sleep.
    rewrite Eo, Es. reflexivity.
  - intros f Ef Eg Eo Es. rewrite (Hret f Ef), Eg. unfold time_sleep.
    rewrite Eo, Es. reflexivity.
  - intros n ->. split.
    + intros Hn. cbn [py_float] in Hret, Hraise.
      destruct (Z.abs n <? float_int_bound) eqn:Eb.
      * rewrite (Hret (FInt n) eq_refl). cbn [float_gt_zero].
        destruct Hn as [Hn|Hn].
        -- replace (0 <? n) with false by (symmetry; apply Z.ltb_ge; exact Hn).
           reflexivity.
        -- apply Z.ltb_lt in Eb. lia.
      * exact (Hraise _ eq_refl).
    + intros [Hlo Hhi]. cbn [py_float] in Hret.
      replace (Z.abs n <? float_int_bound) with true in Hret
        by (symmetry; apply Z.ltb_lt; lia).
      rewrite (Hret (FInt n) eq_refl). cbn [float_gt_zero].
      replace (0 <? n) with true by (symmetry; apply Z.ltb_lt; lia).
      unfold time_sleep. cbn [clock_overflow].
      replace (9223372036 <? n) with true by (symmetry; apply Z.ltb_lt; lia).
      reflexivity.
Qed.

End SelectorsAndNames.


(* ================================================================== *)
(** ** The outcomes of a click *)

Section ClickOutcomes.

Variable env : runtime.

(** X6.  [wait_and_click] with the tolerance flag never raises: it
    returns whether it clicked.  Without the flag it returns [True] or
    raises a [RuntimeError] whose message starts with "Element
    interaction failed:", whatever failed inside (no match, an index out
    of range, or any error or timeout of the page); it never returns
    [False] and never lets another exception through. *)
Theorem wait_and_click_outcomes :
  forall (loc : locator) (index : Z) (timeout : pyfloat) (ignore_error : bool)
         (h : history),
    if ignore_error
    then exists b : bool,
           fst (wait_and_click env loc index timeout true h) = Ret b
    else fst (wait_and_click env loc index timeout false h) = Ret true
         \/ exists cause : string,
              fst (wait_and_click env loc index timeout false h)
              = Raise (RuntimeError "Element interaction failed:" [JStr cause]).
Proof.
  intros loc index timeout ignore_error h.
  destruct ignore_error; unfold wait_and_click; run_monad;
    repeat first
      [ ask_env
      | match goal with
        | |- context [if ?b then _ else _] => destruct b
        end ];
    simpl; eauto.
Qed.

(** X7.  Whatever the page answers, [wait_and_click] clicks at most
    once; and when it returns [True], it has made exactly one click, on
    the element of the given index, with the given timeout. *)
Theorem wait_and_click_clicks_once :
  forall (loc : locator) (index : Z) (timeout : pyfloat) (ignore_error : bool)
         (h : history),
    exists tr : history,
      snd (wait_and_click env loc index timeout ignore_error h) = h ++ tr
      /\ (length (clicks_of tr) <= 1)%nat
      /\ (fst (wait_and_click env loc index timeout ignore_error h) = Ret true ->
          clicks_of tr = [(Nth loc index, Some timeout)]).
Proof.
  intros loc index timeout ignore_error h.
  unfold wait_and_click. run_monad.
  repeat first
    [ ask_env
    | match goal with
      | |- context [if ?b then _ else _] => destruct b
      end ];
    simpl; as_extension; simpl;
    (split; [lia|]); intros E; first [discriminate E|reflexivity].
Qed.

(** X8.  When the index is outside [0, count) (which covers any
    negative index, and every index when nothing matches),
    [wait_and_click] does nothing to the page after counting: it logs at
    most, and returns [False] under tolerance, or raises "Element
    interaction failed:" otherwise. *)
Theorem wait_and_click_out_of_range :
  forall (loc : locator) (index : Z) (timeout : pyfloat) (ignore_error : bool)
         (h : history) (count : nat),
    respond env h (Count loc) = inr count ->
    out_of_range index count = true ->
    exists tr : history,
      snd (wait_and_click env loc index timeout ignore_error h)
      = h ++ Called (Count loc) :: tr
      /\ forallb is_log tr = true
      /\ if ignore_error
         then fst (wait_and_click env loc index timeout ignore_error h) = Ret false
         else exists cause : string,
                fst (wait_and_click env loc index timeout ignore_error h)
                = Raise (RuntimeError "Element interaction failed:" [JStr cause]).
Proof.
  intros loc index timeout ignore_error h count Hc Ho.
  unfold wait_and_click. run_monad. rewrite Hc, Ho.
  destruct (Nat.eqb count 0), ignore_error; simpl;
    rewrite <- ?app_assoc; simpl; eexists; (split; [reflexivity|]);
    (split; [reflexivity|]); eauto.
Qed.

End ClickOutcomes.

(** Three links on the page and a click at index -1. *)
Lemma wait_and_click_out_of_range_witness :
  exists tr : history,
    snd (wait_and_click (plain_env (always 3%nat) []) (Locate Page "a") (-1)
           (FInt 45000) false [])
    = [] ++ Called (Count (Locate Page "a")) :: tr
    /\ forallb is_log tr = true
    /\ exists cause : string,
         fst (wait_and_click (plain_env (always 3%nat) []) (Locate Page "a") (-1)
                (FInt 45000) false [])
         = Raise (RuntimeError "Element interaction failed:" [JStr cause]).
Proof.
  exact (@wait_and_click_out_of_range (plain_env (always 3%nat) [])
           (Locate Page "a") (-1) (FInt 45000) false [] 3%nat eq_refl eq_refl).
Defined.

(* ================================================================== *)
(** ** Typing *)

Section HumanTyping.

Variable env : runtime.

Lemma keys_sent_app (a b : history) :
  keys_sent (a ++ b) = keys_sent a ++ keys_sent b.
Proof.
  induction a as [|e r IH]; simpl; [reflexivity|].
  destruct e as [R c|o]; [|exact IH].
  destruct c; simpl; rewrite ?IH; reflexivity.
Qed.

Lemma text_of_chars (s : string) : text_of_keys (chars_of s) = s.
Proof.
  induction s as [|c r IH]; simpl; [reflexivity|]. rewrite IH. reflexivity.
Qed.

Lemma type_items_keys (element : locator) (items : list json) :
  forall h : history,
    exists (o : outcome unit) (tr : history),
      type_items env element items h = (o, h ++ tr)
      /\ (exists n : nat,
            keys_sent tr = firstn n (map (pair element) items))
      /\ (o = Ret tt -> keys_sent tr = map (pair element) items).
Proof.
  induction items as [|ch rest IH]; intros h.
  - exists (Ret tt), []. simpl. unfold ret. rewrite app_nil_r.
    split; [reflexivity|]. split; [exists 0%nat|]; reflexivity.
  - cbn [type_items].
    assert (forall (tr0 : history) (e : exn),
              keys_sent tr0 = [] ->
              exists (o : outcome unit) (tr : history),
                (Raise e, (h ++ [Called (TypeKey element ch)]) ++ tr0)
                = (o, h ++ tr)
                /\ (exists n, keys_sent tr
                              = firstn n (map (pair element) (ch :: rest)))
                /\ (o = Ret tt ->
                    keys_sent tr = map (pair element) (ch :: rest))) as Hstop.
    { intros tr0 e H0. exists (Raise e), (Called (TypeKey element ch) :: tr0).
      split; [rewrite <- app_assoc; reflexivity|].
      cbn [keys_sent]. rewrite H0.
      split; [exists 1%nat; reflexivity|discriminate]. }
    assert (forall tr0 : history,
              keys_sent tr0 = [] ->
              exists (o : outcome unit) (tr : history),
                type_items env element rest
                  ((h ++ [Called (TypeKey element ch)]) ++ tr0)
                = (o, h ++ tr)
                /\ (exists n, keys_sent tr
                              = firstn n (map (pair element) (ch :: rest)))
                /\ (o = Ret tt ->
                    keys_sent tr = map (pair element) (ch :: rest))) as Hgo.
    { intros tr0 H0.
      destruct (IH ((h ++ [Called (TypeKey element ch)]) ++ tr0))
        as (o & tr & Hs & [n Hn] & Hr).
      exists o, (Called (TypeKey element ch) :: tr0 ++ tr).
      split; [rewrite Hs, <- !app_assoc; reflexivity|].
      cbn [keys_sent]. rewrite keys_sent_app, H0. cbn [app].
      split; [exists (S n); cbn [map firstn]; now rewrite Hn|].
      intros E. cbn [map]. now rewrite (Hr E). }
    unfold bind, call_env, emit, ret.
    destruct (respond env h (TypeKey element ch)) as [flt|[]].
    { specialize (Hstop [] (exn_of_fault flt) eq_refl).
      rewrite app_nil_r in Hstop. exact Hstop. }
    set (h1 := h ++ [Called (TypeKey element ch)]) in *.
    destruct (is_blank ch).
    + destruct (respond env _ (RandInt 200 600)) as [flt|extra].
      { exact (Hstop [Called (RandInt 200 600)] (exn_of_fault flt) eq_refl). }
      destruct (respond env _ (RandInt 50 250)) as [flt|base];
        rewrite <- !app_assoc; cbn [app].
      { exact (Hstop [Called (RandInt 200 600); Called (RandInt 50 250)]
                 (exn_of_fault flt) eq_refl). }
      exact (Hgo [Called (RandInt 200 600); Called (RandInt 50 250);
                  Emitted (SleepMs (base + extra))] eq_refl).
    + destruct (respond env _ (RandInt 50 250)) as [flt|base];
        rewrite <- ?app_assoc; cbn [app].
      { exact (Hstop [Called (RandInt 50 250)] (exn_of_fault flt) eq_refl). }
      exact (Hgo [Called (RandInt 50 250); Emitted (SleepMs (base + 0))] eq_refl).
Qed.

(** X9.  [human_type] sends the characters of the text to the element
    one at a time and in order: the keys sent are always a prefix of the
    characters of the text, and when it returns, they are all sent to
    the element it was given and spell the text. *)
Theorem human_type_spells_text :
  forall (element : locator) (text : string) (h : history),
    exists tr : history,
      snd (human_type env element (JStr text) h) = h ++ tr
      /\ (exists n : nat,
            keys_sent tr = firstn n (map (pair element) (chars_of text)))
      /\ (fst (human_type env element (JStr text) h) = Ret tt ->
          map fst (keys_sent tr) = map (fun _ => element) (chars_of text)
          /\ text_of_keys (map snd (keys_sent tr)) = text).
Proof.
  intros element text h. unfold human_type, bind, lift. cbn [iter_items].
  destruct (type_items_keys element (chars_of text) h) as (o & tr & Hs & Hn & Hr).
  rewrite Hs. cbn [fst snd].
  exists tr. split; [reflexivity|]. split; [exact Hn|].
  intros E. rewrite (Hr E), !map_map. cbn [fst snd].
  split; [reflexivity|]. rewrite map_id. apply text_of_chars.
Qed.

End HumanTyping.

(* ================================================================== *)
(** ** Conditions *)

Section ConditionStatus.

Variable env : runtime.

Lemma get_key_status (status : string) (c1 c2 : dict) :
  dict_get c1 "status" = None ->
  get_key (c1 ++ ("status", JStr status) :: c2) "status" [] JNull = JStr status.
Proof.
  intros H. unfold get_key.
  replace (dict_get (c1 ++ ("status", JStr status) :: c2) "status")
    with (Some (JStr status)); [reflexivity|].
  induction c1 as [|[k v] r IH]; [reflexivity|].
  simpl in H |- *. destruct (String.eqb k "status"); [discriminate|auto].
Qed.

(** X11.  On the same page state, a condition with status "found" and
    the same condition with status "not_found" give opposite answers,
    and fail alike (on the selector or on the count) if they fail. *)
Theorem check_condition_statuses_complementary :
  forall (c1 c2 : dict) (cf : option frame_ref) (parent : option locator)
         (h : history),
    dict_get c1 "status" = None ->
    match fst (check_condition env (with_status "found" c1 c2) cf parent h),
          fst (check_condition env (with_status "not_found" c1 c2) cf parent h)
    with
    | Ret found, Ret not_found => not_found = negb found
    | Raise e1, Raise e2 => e1 = e2
    | _, _ => False
    end.
Proof.
  intros c1 c2 cf parent h Hs. unfold with_status, check_condition.
  rewrite !(fun st => @get_key_insert_other c1 c2 "status" (JStr st) "tag" [] JNull),
          !(fun st => @get_key_insert_other c1 c2 "status" (JStr st) "attr"
                        ["arrt"; "attribute"] JNull),
          !(fun st => @get_key_insert_other c1 c2 "status" (JStr st) "value" [] JNull),
          !(fun st => @get_key_insert_other c1 c2 "status" (JStr st) "class" [] JNull),
          !(fun st => @get_key_insert_other c1 c2 "status" (JStr st) "text" [] JNull)
    by reflexivity.
  rewrite !get_key_status by assumption.
  cbn [truthy PyStr.is_empty negb].
  run_monad.
  destruct (build_css_selector env _ _ _ _) as [sel|e]; [|reflexivity].
  destruct (respond env h (Count _)) as [flt|n]; [reflexivity|].
  cbn [String.eqb Ascii.eqb Bool.eqb fst]. symmetry. apply negb_involutive.
Qed.

End ConditionStatus.

(** A condition on a div holding "Ok", asked both ways. *)
Lemma check_condition_statuses_complementary_witness :
  match fst (check_condition (plain_env (always 2%nat) [])
               (with_status "found" [("tag", JStr "div")] [("text", JStr "Ok")])
               None None []),
        fst (check_condition (plain_env (always 2%nat) [])
               (with_status "not_found" [("tag", JStr "div")] [("text", JStr "Ok")])
               None None [])
  with
  | Ret found, Ret not_found => not_found = negb found
  | Raise e1, Raise e2 => e1 = e2
  | _, _ => False
  end.
Proof.
  exact (@check_condition_statuses_complementary (plain_env (always 2%nat) [])
           [("tag", JStr "div")] [("text", JStr "Ok")] None None [] eq_refl).
Defined.

(* ================================================================== *)
(** ** Parent selection and group tolerance *)

Section ParentSelection.

Variable env : runtime.

Lemma range_in_bounds (total : nat) :
  Forall (fun i => 0 <= i < Z.of_nat total) (range total).
Proof.
  unfold range. rewrite Forall_forall. intros i Hi.
  apply in_map_iff in Hi. destruct Hi as (n & <- & Hn).
  apply in_seq in Hn. lia.
Qed.

Lemma range_no_dup (total : nat) : NoDup (range total).
Proof.
  unfold range. generalize 0%nat as start.
  induction total as [|n IH]; intros start; simpl; constructor; [|apply IH].
  intros Hin. apply in_map_iff in Hin. destruct Hin as (x & Hx & Hin).
  apply in_seq in Hin. lia.
Qed.

(** X12.  The parents an array or group step selects: with
    [array_select_one] the one index given, else all of [0 .. total-1]
    in ascending order.  Every index selected is within [0, total), none
    is selected twice, and selecting logs nothing. *)
Theorem select_parents_in_bounds :
  forall (what : string) (ignore_error : bool) (parent_idx : option Z)
         (total : nat) (h h' : history) (selected : list Z),
    select_parents what ignore_error parent_idx total h = (Ret (Some selected), h') ->
    h' = h
    /\ Forall (fun i => 0 <= i < Z.of_nat total) selected
    /\ NoDup selected
    /\ selected = match parent_idx with
                  | Some i => [i]
                  | None => range total
                  end.
Proof.
  intros what ignore_error parent_idx total h h' selected.
  unfold select_parents. destruct parent_idx as [i|].
  - destruct (out_of_range i total) eqn:Ho.
    + destruct ignore_error; run_monad; discriminate.
    + unfold ret. intros E. injection E as <- <-.
      unfold out_of_range in Ho. apply orb_false_elim in Ho.
      destruct Ho as [H1 H2].
      apply Z.ltb_ge in H1. rewrite Z.geb_leb in H2. apply Z.leb_gt in H2.
      repeat split; try lia.
      * constructor; [lia|constructor].
      * constructor; [simpl; tauto|constructor].
  - unfold ret. intros E. injection E as <- <-.
    repeat split; [apply range_in_bounds|apply range_no_dup].
Qed.

End ParentSelection.

(** Three parents and no [array_select_one]. *)
Lemma select_parents_in_bounds_witness :
  [] = ([] : history)
  /\ Forall (fun i => 0 <= i < Z.of_nat 3) [0; 1; 2]
  /\ NoDup [0; 1; 2]
  /\ [0; 1; 2] = range 3.
Proof.
  exact (@select_parents_in_bounds "" false None 3%nat [] [] [0; 1; 2] eq_refl).
Defined.

Section GroupTolerance.

Variable env : runtime.

(** X14.  A record without a [type] is treated differently inside a
    group and at the top level.  As a nested action it is skipped with a
    warning, whatever the tolerance flags of the action and of the
    group; as a step of the workflow (with its tolerance flag false) it
    raises "Missing type in step." *)
Theorem nested_missing_type_is_skipped :
  forall (budget : nat)
         (exec_group : dict -> option frame_ref -> option locator -> M unit)
         (ignore_error : bool) (p : locator) (i j : Z) (a : dict)
         (local_frame : option frame_ref) (fuel : nat) (idx : Z) (h : history),
    truthy (get_key a "type" [] JNull) = false ->
    truthy (get_key a "ignore" [] (JBool false)) = false ->
    group_nested_action env budget exec_group ignore_error p i j (JObj a)
      local_frame h
    = (Ret local_frame,
       h ++ [Emitted (Log LWarning
                        "[group_action] Missing 'type' in nested action, skipping." [])])
    /\ fst (run_step env fuel idx local_frame (JObj a) h)
       = Raise (RuntimeError "Missing type in step." []).
Proof.
  intros budget exec_group ignore_error p i j a lf fuel idx h Ht Hi. split.
  - unfold group_nested_action. rewrite Ht. reflexivity.
  - rewrite run_step_missing_type by assumption. rewrite Hi. reflexivity.
Qed.

(** X15.  The tolerance flag of a group covers every nested action:
    with the flag true and a nested action list made of records, the
    loop over the parents never raises, whatever the nested actions are
    and whatever they do. *)
Theorem tolerant_group_covers_nested_actions :
  forall (budget : nat)
         (exec_group : dict -> option frame_ref -> option locator -> M unit)
         (timeout : pyfloat) (parents : locator) (cf : option frame_ref)
         (actions : list json) (parent_indices : list Z) (h : history),
    forallb is_record actions = true ->
    exists h' : history,
      group_parents_loop env budget exec_group true timeout parents cf actions
        parent_indices h
      = (Ret tt, h').
Proof.
  intros budget exec_group timeout parents cf actions parent_indices h Hrec.
  assert (forall (p : locator) (i : Z) (l : list json) (j : Z)
                 (lf : option frame_ref) (h0 : history),
            forallb is_record l = true ->
            exists lf' h1,
              group_actions_loop env budget exec_group true p i j l lf h0
              = (Ret lf', h1)) as Hact.
  { intros p i l. induction l as [|a r IH]; intros j lf h0 Hl.
    - eexists; eexists; reflexivity.
    - simpl in Hl. apply andb_prop in Hl. destruct Hl as [Ha Hr].
      destruct a as [| | | | |a]; try discriminate.
      rewrite group_actions_loop_cons.
      assert (exists lf1 h1,
                group_nested_action env budget exec_group true p i j (JObj a) lf h0
                = (Ret lf1, h1)) as (lf1 & h1 & ->).
      { unfold group_nested_action.
        destruct (negb (truthy (get_key a "type" [] JNull)));
          [eexists; eexists; reflexivity|].
        rewrite orb_true_r. run_monad.
        destruct (group_dispatch env budget exec_group true a _ lf p _)
          as [[lf1|e] h1]; eexists; eexists; reflexivity. }
      apply IH. exact Hr. }
  revert h. induction parent_indices as [|i rest IH]; intros h.
  - eexists; reflexivity.
  - rewrite group_parents_loop_cons.
    destruct (Hact (Nth parents i) i actions 1 cf
                (snd (group_visit env (Nth parents i) i timeout h)) Hrec)
      as (lf' & h1 & ->).
    apply IH.
Qed.

End GroupTolerance.

(* ================================================================== *)
(** ** Exit codes and the carried frame *)

Section ExitCodes.

Variable env : runtime.

Lemma tolerant_loop_returns (fuel : nat) (workflow : list json) :
  forallb tolerant_step workflow = true ->
  forall (idx : Z) (cf : option frame_ref) (h : history),
    exists cf' h', run_loop env fuel idx cf workflow h = (Ret cf', h').
Proof.
  induction workflow as [|step rest IH]; intros Hall idx cf h.
  - eexists; eexists; reflexivity.
  - simpl in Hall. apply andb_prop in Hall. destruct Hall as [Hs Hr].
    destruct step as [| | | | |d]; try discriminate.
    rewrite run_loop_cons.
    destruct (tolerant_step_never_aborts env fuel idx cf d h Hs) as (cf1 & h1 & ->).
    apply IH. exact Hr.
Qed.


(** X18.  [main] never lets an exception out.  On a workflow that is a
    list it exits with code 0 after the completion lines and the closing
    prompt, or with code 1 after the closing prompt and the abort lines;
    on a document that is not a list it reports the load failure and
    exits with code 1, and nothing is run. *)
Theorem main_exit_code :
  forall (wf url : json) (h : history),
    match wf with
    | JList _ =>
        exists h1 : history,
          main env wf url h = (Ret 0, h1 ++ run_completed)
          \/ exists e : exn, main env wf url h = (Ret 1, h1 ++ run_aborted e)
    | _ => main env wf url h = (Ret 1, h ++ load_failed)
    end.
Proof.
  intros wf url h.
  destruct wf as [| | | |workflow|]; try (unfold main; run_monad;
    rewrite <- app_assoc; reflexivity).
  rewrite main_unfold.
  destruct (initial_goto env url h) as [[[]|e] h0]; [|exists h0; right; eauto].
  destruct (run_loop env _ 1 None workflow h0) as [[cf|e] h1]; exists h1;
    [left|right]; eauto.
Qed.

(** X16.  Only [goto], [frame] and [main_frame] steps change the frame
    the run carries from step to step: a turn of the run loop that ends
    normally leaves the frame as it was, or, for a [goto] or
    [main_frame] step, resets it to none, or, for a [frame] step, sets
    it to a frame.  (A tolerated failure leaves it as it was.) *)
Theorem run_step_frame_context :
  forall (fuel : nat) (idx : Z) (cf cf' : option frame_ref) (d : dict)
         (h h' : history),
    run_step env fuel idx cf (JObj d) h = (Ret cf', h') ->
    cf' = cf
    \/ match kind_of (get_key d "type" [] JNull) with
       | KGoto | KMainFrame => cf' = None
       | KFrame => exists f : frame_ref, cf' = Some f
       | _ => False
       end.
Proof.
  intros fuel idx cf cf' d h h' H.
  destruct (truthy (get_key d "type" [] JNull)) eqn:Ht.
  - rewrite run_step_unfold in H by assumption.
    unfold run_dispatch in H.
    destruct (kind_of (get_key d "type" [] JNull));
      cbv [bind ret raise emit info warning exec_step_main_frame
           switch_to_main_frame] in H;
      repeat match type of H with
        | context [if ?b then _ else _] => destruct b
        | context [let (_, _) := ?x in _] =>
            lazymatch x with
            | context [let (_, _) := _ in _] => fail
            | _ => destruct x as [[?|?] ?]
            end
        end;
      try discriminate;
      injection H as <- <-; eauto.
  - rewrite run_step_missing_type in H by assumption.
    destruct (truthy (get_key d "ignore" [] (JBool false))); [|discriminate].
    injection H as <- <-. now left.
Qed.

End ExitCodes.


(* ================================================================== *)
(** ** What every event of a run satisfies *)

Section OrderlyRuns.

Variable env : runtime.

Lemma keeps_ret (A : Type) (a : A) : keeps (ret a).
Proof.
  intros h. exists []. rewrite app_nil_r. repeat split. discriminate.
Qed.

Lemma keeps_raise (A : Type) (e : exn) :
  is_click_timeout_error e = false -> keeps (@raise A e).
Proof.
  intros He h. exists []. rewrite app_nil_r. repeat split.
  intros e' E. injection E as <-. exact He.
Qed.

Lemma keeps_lift (A : Type) (o : outcome A) : builtin_error o -> keeps (lift o).
Proof.
  intros Ho h. exists []. rewrite app_nil_r. repeat split.
  intros e E. destruct (Ho e E) as [cls ->]. reflexivity.
Qed.

Lemma keeps_emit (o : output) : orderly (Emitted o) = true -> keeps (emit o).
Proof.
  intros Ho h. exists [Emitted o]. simpl. rewrite Ho.
  repeat split. discriminate.
Qed.

Lemma keeps_call (R : Type) (c : call R) :
  orderly (Called c) = true -> keeps (call_env env c).
Proof.
  intros Hc h. exists [Called c]. unfold call_env.
  destruct (respond env h c) as [flt|r]; simpl; rewrite Hc; repeat split;
    try discriminate.
  intros e E. injection E as <-. destruct flt; reflexivity.
Qed.

Lemma keeps_bind (A B : Type) (m : M A) (k : A -> M B) :
  keeps m -> (forall a : A, keeps (k a)) -> keeps (bind m k).
Proof.
  intros Hm Hk h. unfold bind.
  destruct (Hm h) as (tr & Hs & Hp & He).
  destruct (m h) as [[a|e] h1]; cbn [fst snd] in *; subst h1.
  - destruct (Hk a (h ++ tr)) as (tr' & Hs' & Hp' & He').
    exists (tr ++ tr'). rewrite Hs', app_assoc, forallb_app, Hp, Hp'.
    repeat split. exact He'.
  - exists tr. split; [reflexivity|]. split; [exact Hp|].
    intros e' E. injection E as <-. now apply He.
Qed.

Lemma keeps_bind_lift (A B : Type) (o : outcome A) (k : A -> M B) :
  builtin_error o ->
  (forall a : A, o = Ret a -> keeps (k a)) ->
  keeps (bind (lift o) k).
Proof.
  intros Ho Hk h. unfold bind, lift. destruct o as [a|e].
  - apply Hk. reflexivity.
  - exists []. rewrite app_nil_r. repeat split.
    intros e' E. injection E as <-. destruct (Ho e eq_refl) as [cls ->].
    reflexivity.
Qed.

Lemma keeps_try_except (A : Type) (body : M A) (handler : exn -> M A) :
  keeps body ->
  (forall e : exn, is_click_timeout_error e = false -> keeps (handler e)) ->
  keeps (try_except body handler).
Proof.
  intros Hb Hh h. unfold try_except.
  destruct (Hb h) as (tr & Hs & Hp & He).
  destruct (body h) as [[a|e] h1]; cbn [fst snd] in *; subst h1.
  - exists tr. split; [reflexivity|]. split; [exact Hp|discriminate].
  - destruct (Hh e (He e eq_refl) (h ++ tr)) as (tr' & Hs' & Hp' & He').
    exists (tr ++ tr'). rewrite Hs', app_assoc, forallb_app, Hp, Hp'.
    repeat split. exact He'.
Qed.

(** A [PWTimeout] handler around a body that raises no [PWTimeout] is
    never entered. *)
Lemma try_except_timeout_unreached (A : Type) (body : M A)
    (handler : exn -> M A) :
  (forall (h : history) (m : string), fst (body h) <> Raise (PWTimeout m)) ->
  forall h : history, try_except_timeout body handler h = body h.
Proof.
  intros Hb h. unfold try_except_timeout, try_except, raise.
  specialize (Hb h).
  destruct (body h) as [[a|e] h1]; [reflexivity|].
  destruct e; try reflexivity. exfalso. now apply (Hb msg).
Qed.

(** The same, with what is known of the value the first part yields. *)
Lemma keeps_bind_post (A B : Type) (m : M A) (k : A -> M B) (post : A -> Prop) :
  keeps m ->
  (forall (h h' : history) (a : A), m h = (Ret a, h') -> post a) ->
  (forall a : A, post a -> keeps (k a)) ->
  keeps (bind m k).
Proof.
  intros Hm Hpost Hk h. unfold bind.
  destruct (Hm h) as (tr & Hs & Hp & He).
  destruct (m h) as [[a|e] h1] eqn:Em; cbn [fst snd] in *; subst h1.
  - destruct (Hk a (Hpost _ _ _ Em) (h ++ tr)) as (tr' & Hs' & Hp' & He').
    exists (tr ++ tr'). rewrite Hs', app_assoc, forallb_app, Hp, Hp'.
    repeat split. exact He'.
  - exists tr. split; [reflexivity|]. split; [exact Hp|].
    intros e' E. injection E as <-. now apply He.
Qed.

Lemma forallb_weaken (A : Type) (p q : A -> bool) (l : list A) :
  (forall a, p a = true -> q a = true) ->
  forallb p l = true -> forallb q l = true.
Proof.
  intros Hpq. induction l as [|a r IH]; simpl; [reflexivity|].
  intros H. apply andb_prop in H. destruct H as [Ha Hr].
  rewrite (Hpq a Ha), (IH Hr). reflexivity.
Qed.

Lemma keeps_ext (A : Type) (m m' : M A) :
  (forall h, m h = m' h) -> keeps m' -> keeps m.
Proof.
  intros E H h. rewrite E. apply H.
Qed.

End OrderlyRuns.

Section BuiltinErrors.

Variable env : runtime.

Lemma py_float_builtin (x : json) : builtin_error (py_float env x).
Proof.
  intros e. destruct x as [|b|n|s|l|d]; simpl;
    try destruct (Z.abs n <? float_int_bound);
    try destruct (float_parses env s);
    intros E; inversion E; eauto.
Qed.

Lemma build_css_selector_builtin (tag cls attr value : json) :
  builtin_error (build_css_selector env tag cls attr value).
Proof.
  intros e. unfold build_css_selector.
  pose proof (tag_clause_outcome tag) as Ht.
  pose proof (normalize_class_selector_outcome cls) as Hc.
  destruct (strippable tag).
  - destruct Ht as [t ->]. destruct (strippable cls).
    + destruct Hc as [c ->]. discriminate.
    + rewrite Hc. intros E. injection E as <-. eauto.
  - rewrite Ht. intros E. injection E as <-. eauto.
Qed.

Lemma has_text_suffix_builtin (text : json) : builtin_error (has_text_suffix text).
Proof.
  intros e. unfold has_text_suffix.
  destruct (truthy text); [|discriminate].
  destruct text; intros E; inversion E; eauto.
Qed.

Lemma safe_filename_of_builtin (name : json) (default ext : string) :
  builtin_error (safe_filename_of name default ext).
Proof.
  intros e. unfold safe_filename_of.
  destruct (negb (truthy name)); [discriminate|].
  destruct name; intros E; inversion E; eauto.
Qed.

Lemma iter_items_builtin (text : json) : builtin_error (iter_items text).
Proof.
  intros e. destruct text; intros E; inversion E; eauto.
Qed.

Lemma first_frame_with_url_builtin (url : json) (frames : list frame) :
  builtin_error (first_frame_with_url url frames).
Proof.
  intros e. induction frames as [|f r IH]; simpl; [discriminate|].
  destruct url; try (intros E; inversion E; eauto; fail).
  destruct (PyStr.contains s (frame_url f)); [discriminate|exact IH].
Qed.

Lemma int_or_zero_builtin (x : json) : builtin_error (int_or_zero x).
Proof.
  intros e. unfold int_or_zero.
  destruct x; try discriminate; destruct (py_int _);
    intros E; inversion E; eauto.
Qed.

Lemma in_range_indexed (index : Z) (count : nat) :
  out_of_range index count = false -> (0 <=? index) = true.
Proof.
  unfold out_of_range. intros H. apply orb_false_elim in H.
  destruct H as [H _]. apply Z.ltb_ge in H. now apply Z.leb_le.
Qed.

End BuiltinErrors.

Ltac builtin_tac :=
  first [ apply py_float_builtin | apply build_css_selector_builtin
        | apply has_text_suffix_builtin | apply safe_filename_of_builtin
        | apply iter_items_builtin | apply first_frame_with_url_builtin
        | apply int_or_zero_builtin ].

(** An event is orderly: by evaluation, or since its index is not
    negative. *)
Ltac event_ok :=
  first
    [ reflexivity
    | cbv [orderly acts_on_indexed named_safely page_named element_of file_written
           is_prompt reports_click_timeout indexed];
      match goal with
      | H : (0 <=? _) = true |- _ => rewrite H
      | H : out_of_range _ _ = false |- _ => rewrite (@in_range_indexed _ _ H)
      end; reflexivity ].

Ltac keeps_step :=
  lazymatch goal with
  | |- keeps (ret _) => apply keeps_ret
  | |- keeps (raise _) => apply keeps_raise; first [reflexivity|assumption]
  | |- keeps (lift _) => apply keeps_lift; builtin_tac
  | |- keeps (emit _) => apply keeps_emit; event_ok
  | |- keeps (info _ _) => apply keeps_emit; event_ok
  | |- keeps (warning _ _) => apply keeps_emit; event_ok
  | |- keeps (error _ _) => apply keeps_emit; event_ok
  | |- keeps (call_env _ _) => apply keeps_call; event_ok
  | |- keeps (bind (lift _) _) =>
      apply keeps_bind_lift; [builtin_tac|intros ? ?]
  | |- keeps (bind _ _) => apply keeps_bind; [|intros ?]
  | |- keeps (try_except _ _) => apply keeps_try_except; [|intros ? ?]
  | |- keeps (if ?b then _ else _) => destruct b eqn:?
  | |- keeps (match ?x with _ => _ end) => destruct x eqn:?
  end.

Section OrderlyClicks.

Variable env : runtime.

Lemma time_sleep_keeps (s : pyfloat) : keeps (time_sleep env s).
Proof.
  intros h. unfold time_sleep.
  destruct (clock_overflow s);
    [|destruct (sleep_error env h s)];
    first [ exists []; rewrite app_nil_r; repeat split;
            intros e E; injection E as <-; reflexivity
          | eexists; repeat split; discriminate ].
Qed.

Lemma step_sleep_keeps (seconds : json) : keeps (step_sleep env seconds).
Proof.
  unfold step_sleep.
  destruct seconds;
    repeat first [apply time_sleep_keeps | keeps_step].
Qed.

Lemma wait_and_click_keeps (loc : locator) (index : Z) (timeout : pyfloat)
    (ignore_error : bool) :
  keeps (wait_and_click env loc index timeout ignore_error).
Proof.
  unfold wait_and_click. repeat keeps_step.
Qed.

End OrderlyClicks.

Section OrderlySteps.

Variable env : runtime.

(** The body of the [try] of a click never raises [PWTimeout]. *)
Lemma click_attempt_no_timeout (o : outcome pyfloat) (loc : locator)
    (index : Z) (ignore_error : bool) (f : bool -> bool) (h : history)
    (m : string) :
  builtin_error o ->
  fst ((timeout <- lift o;;
        success <- wait_and_click env loc index timeout ignore_error;;
        ret (f success)) h) <> Raise (PWTimeout m).
Proof.
  intros Ho. unfold bind, lift, ret. destruct o as [t|e].
  - pose proof (@wait_and_click_no_timeout env loc index t ignore_error h m) as H.
    destruct (wait_and_click env loc index t ignore_error h) as [[b|e] h1];
      cbn [fst] in *; [discriminate|congruence].
  - destruct (Ho e eq_refl) as [cls ->]. discriminate.
Qed.

Lemma click_attempt_keeps (o : outcome pyfloat) (loc : locator) (index : Z)
    (ignore_error : bool) (f : bool -> bool) (handler : exn -> M bool) :
  builtin_error o ->
  keeps (try_except_timeout
           (timeout <- lift o;;
            success <- wait_and_click env loc index timeout ignore_error;;
            ret (f success))
           handler).
Proof.
  intros Ho.
  eapply keeps_ext.
  - intros h. apply try_except_timeout_unreached.
    intros h' m. now apply click_attempt_no_timeout.
  - apply keeps_bind_lift; [exact Ho|intros t _].
    apply keeps_bind; [apply wait_and_click_keeps|intros b; apply keeps_ret].
Qed.

Lemma primary_click_keeps (step : dict) (cf : option frame_ref)
    (parent : option locator) :
  keeps (primary_click env step cf parent).
Proof.
  unfold primary_click.
  repeat first
    [ apply click_attempt_keeps; builtin_tac
    | apply step_sleep_keeps
    | keeps_step ].
Qed.

Lemma check_condition_keeps (condition : json) (cf : option frame_ref)
    (parent : option locator) :
  keeps (check_condition env condition cf parent).
Proof.
  unfold check_condition. destruct condition; repeat keeps_step.
Qed.

Lemma alt_clicks_loop_keeps
    (exec_click : dict -> option frame_ref -> option locator -> M unit)
    (alt_clicks : list json) (cf : option frame_ref) (parent : option locator) :
  (forall d cf' p, keeps (exec_click d cf' p)) ->
  keeps (alt_clicks_loop exec_click alt_clicks cf parent).
Proof.
  intros Hx. induction alt_clicks as [|a r IH]; simpl; [apply keeps_ret|].
  destruct a; try exact IH.
  repeat first [exact IH | apply Hx | keeps_step].
Qed.

Lemma exec_step_click_keeps (fuel : nat) :
  forall (step : dict) (cf : option frame_ref) (parent : option locator),
    keeps (exec_step_click env fuel step cf parent).
Proof.
  induction fuel as [|n IH]; intros step cf parent; simpl.
  - apply keeps_raise. reflexivity.
  - unfold click_body.
    repeat first
      [ apply primary_click_keeps
      | apply check_condition_keeps
      | apply alt_clicks_loop_keeps; exact IH
      | keeps_step ].
Qed.

Lemma type_items_keeps (element : locator) (items : list json) :
  indexed element = true -> keeps (type_items env element items).
Proof.
  intros Hi.
  assert (forall ch, orderly (Called (TypeKey element ch)) = true) as Hk.
  { intros ch.
    cbv [orderly acts_on_indexed named_safely page_named element_of file_written
         is_prompt reports_click_timeout].
    rewrite Hi. reflexivity. }
  induction items as [|ch rest IH]; simpl; [apply keeps_ret|].
  repeat first [exact IH | apply keeps_call; apply Hk | keeps_step].
Qed.

Lemma exec_step_write_keeps (step : dict) (cf : option frame_ref)
    (parent : option locator) :
  keeps (exec_step_write env step cf parent).
Proof.
  unfold exec_step_write, human_type.
  repeat first
    [ apply type_items_keeps; cbn [indexed];
      match goal with
      | H : out_of_range _ _ = false |- _ => exact (@in_range_indexed _ _ H)
      end
    | keeps_step ].
Qed.

Lemma array_child_click_keeps (step : dict) (p : locator) (j : Z) (child : json) :
  keeps (array_child_click env step p j child).
Proof.
  unfold array_child_click. destruct child;
  repeat first
    [ apply click_attempt_keeps; builtin_tac
    | apply step_sleep_keeps
    | keeps_step ].
Qed.

Lemma array_children_loop_keeps (step : dict) (p : locator) (clicks : list json) :
  forall j : Z, keeps (array_children_loop env step p j clicks).
Proof.
  induction clicks as [|c r IH]; intros j; simpl; [apply keeps_ret|].
  apply keeps_bind; [apply array_child_click_keeps|intros _; apply IH].
Qed.

Lemma array_parents_loop_keeps (step : dict) (parents : locator)
    (clicks : list json) (parent_indices : list Z) :
  keeps (array_parents_loop env step parents clicks parent_indices).
Proof.
  induction parent_indices as [|i r IH]; simpl; [apply keeps_ret|].
  repeat first [exact IH | apply array_children_loop_keeps | keeps_step].
Qed.

Lemma select_parents_keeps (what : string) (ignore_error : bool)
    (parent_idx : option Z) (total : nat) :
  click_timeout_message (what ++ "array_select_one index")%string = false ->
  keeps (select_parents what ignore_error parent_idx total).
Proof.
  intros Hw. unfold select_parents.
  destruct parent_idx as [i|]; [|apply keeps_ret].
  destruct (out_of_range i total); [|apply keeps_ret].
  destruct ignore_error.
  - apply keeps_bind; [|intros _; apply keeps_ret].
    apply keeps_emit.
    cbv [orderly acts_on_indexed named_safely page_named element_of file_written
         is_prompt reports_click_timeout].
    rewrite Hw. reflexivity.
  - apply keeps_raise. exact Hw.
Qed.

(** The parents selected have indices that are not negative. *)
Lemma select_parents_indexed (what : string) (ignore_error : bool)
    (parent_idx : option Z) (total : nat) (h h' : history)
    (selected : option (list Z)) :
  select_parents what ignore_error parent_idx total h = (Ret selected, h') ->
  forall l, selected = Some l -> forallb (Z.leb 0) l = true.
Proof.
  unfold select_parents. destruct parent_idx as [i|].
  - destruct (out_of_range i total) eqn:Ho.
    + destruct ignore_error; run_monad; intros E; inversion E; discriminate.
    + unfold ret. intros E l Hl. injection E as <- <-. injection Hl as <-.
      simpl. now rewrite (@in_range_indexed _ _ Ho).
  - unfold ret. intros E l Hl. injection E as <- <-. injection Hl as <-.
    apply forallb_forall. intros i Hi.
    pose proof (range_in_bounds total) as Hb. rewrite Forall_forall in Hb.
    apply Z.leb_le. now apply Hb.
Qed.

Lemma no_parents_error_ok (msg sel : string) (filter_text : json) :
  click_timeout_message msg = false ->
  is_click_timeout_error (no_parents_error msg sel filter_text) = false.
Proof.
  intros H. unfold no_parents_error.
  destruct (truthy filter_text); [destruct filter_text|]; simpl; auto.
Qed.

Lemma exec_step_array_keeps (step : dict) (cf : option frame_ref)
    (parent : option locator) :
  keeps (exec_step_array env step cf parent).
Proof.
  unfold exec_step_array.
  repeat first
    [ apply array_parents_loop_keeps
    | apply step_sleep_keeps
    | apply select_parents_keeps; reflexivity
    | apply keeps_raise; apply no_parents_error_ok; reflexivity
    | keeps_step ].
Qed.

Lemma switch_to_frame_keeps (step : dict) : keeps (switch_to_frame env step).
Proof.
  unfold switch_to_frame. repeat keeps_step.
Qed.

Lemma exec_step_goto_keeps (step : dict) : keeps (exec_step_goto env step).
Proof.
  unfold exec_step_goto. repeat first [apply step_sleep_keeps | keeps_step].
Qed.

Lemma exec_step_use_last_tab_keeps (step : dict) :
  keeps (exec_step_use_last_tab env step).
Proof.
  unfold exec_step_use_last_tab.
  repeat first [apply step_sleep_keeps | keeps_step].
Qed.

Lemma exec_step_scroll_keeps (step : dict) (cf : option frame_ref)
    (parent : option locator) :
  keeps (exec_step_scroll env step cf parent).
Proof.
  unfold exec_step_scroll. repeat keeps_step.
Qed.

End OrderlySteps.

Section OrderlyDownloads.

Variable env : runtime.

Lemma safe_filename_of_clean (name : json) (default ext a : string) :
  PyStr.is_empty default = false ->
  clean_name ext = true ->
  safe_filename_of name default ext = Ret a ->
  clean_name a && negb (PyStr.is_empty a) = true.
Proof.
  intros Hd He. unfold safe_filename_of.
  destruct (negb (truthy name)); [|destruct name; try discriminate];
    intros E; injection E as <-;
    match goal with |- context [make_safe_filename ?n _ _] =>
      destruct (@make_safe_filename_is_clean n default ext Hd He) as [-> ->] end;
    reflexivity.
Qed.

Lemma safe_filename_of_extension (name : json) (default ext a : string) :
  safe_filename_of name default ext = Ret a ->
  PyStr.endswith (PyStr.lower ext) (PyStr.lower a) = true.
Proof.
  unfold safe_filename_of.
  destruct (negb (truthy name)); [|destruct name; try discriminate];
    intros E; injection E as <-; apply make_safe_filename_has_extension.
Qed.

Lemma exec_step_download_from_link_keeps (step : dict) (cf : option frame_ref)
    (parent : option locator) :
  keeps (exec_step_download_from_link env step cf parent).
Proof.
  unfold exec_step_download_from_link.
  repeat first
    [ apply step_sleep_keeps
    | match goal with
      | |- keeps (bind (lift (if ?b then _ else _)) _) =>
          apply keeps_bind_lift;
          [ destruct b; builtin_tac
          | let a := fresh "name" in
            let Ha := fresh "Hname" in
            intros a Ha;
            assert (clean_name a && negb (PyStr.is_empty a) = true)
              by (destruct b;
                  exact (@safe_filename_of_clean _ "download" "" a
                           eq_refl eq_refl Ha)) ]
      | H : clean_name ?a && negb (PyStr.is_empty ?a) = true
        |- keeps (call_env _ (SaveDownload _ ?a)) =>
          apply keeps_call;
          cbv [orderly acts_on_indexed named_safely page_named element_of
               file_written is_prompt reports_click_timeout];
          rewrite H; reflexivity
      end
    | keeps_step ].
Qed.

Lemma exec_step_download_page_keeps (step : dict) :
  keeps (exec_step_download_page env step).
Proof.
  unfold exec_step_download_page.
  set (mode := PyStr.lower _).
  apply keeps_bind; [keeps_step|intros cwd].
  apply keeps_bind; [keeps_step|intros _].
  destruct (negb _); [keeps_step|].
  set (ext := if String.eqb mode "html" then ".html" else ".txt").
  assert (clean_name ext = true) as Hext by (unfold ext; destruct (String.eqb mode "html"); reflexivity).
  assert (PyStr.lower ext = ext) as Hlow by (unfold ext; destruct (String.eqb mode "html"); reflexivity).
  apply keeps_bind_post with (post := page_name_ok ext).
  - repeat keeps_step.
  - intros h h' a.
    destruct (negb (truthy _)).
    + unfold bind, call_env, ret.
      destruct (respond env h PageUrlBasename) as [flt|base]; [discriminate|].
      intros E. injection E as <- _. split.
      * match goal with |- context [make_safe_filename ?n _ _] =>
          destruct (@make_safe_filename_is_clean n "page" ext eq_refl Hext) as [-> ->]
        end. reflexivity.
      * apply make_safe_filename_has_extension.
    + unfold lift. intros E. injection E as E _. split.
      * exact (@safe_filename_of_clean _ "page" ext a eq_refl Hext E).
      * exact (safe_filename_of_extension _ _ _ E).
  - intros name [Hc He]. rewrite Hlow in He.
    assert (forall dir content,
              orderly (Called (WriteFile dir name content)) = true) as Hw.
    { intros dir content.
      cbv [orderly acts_on_indexed named_safely page_named element_of
           file_written is_prompt reports_click_timeout].
      rewrite Hc. cbn [andb negb].
      unfold ext in He. destruct (String.eqb mode "html"); rewrite He;
        rewrite ?orb_true_r; reflexivity. }
    repeat first [apply step_sleep_keeps | apply keeps_call; apply Hw | keeps_step].
Qed.

End OrderlyDownloads.

(** The executors that neither recurse nor need more than their
    arguments. *)
Ltac keeps_executor :=
  first
    [ apply step_sleep_keeps | apply exec_step_click_keeps
    | apply exec_step_write_keeps | apply exec_step_scroll_keeps
    | apply exec_step_array_keeps | apply exec_step_download_from_link_keeps
    | apply exec_step_download_page_keeps | apply exec_step_use_last_tab_keeps
    | apply exec_step_goto_keeps | apply switch_to_frame_keeps ].

Section OrderlyGroups.

Variable env : runtime.

Section OrderlyGroupBody.

Variable budget : nat.
Variable exec_group : dict -> option frame_ref -> option locator -> M unit.
Hypothesis exec_group_keeps :
  forall d cf p, keeps (exec_group d cf p).

Lemma group_dispatch_keeps (tolerated : bool) (action : dict) (a_type : json)
    (lf : option frame_ref) (p : locator) :
  keeps (group_dispatch env budget exec_group tolerated action a_type lf p).
Proof.
  unfold group_dispatch, exec_step_frame, exec_step_main_frame,
    switch_to_main_frame.
  destruct (kind_of a_type);
    repeat first [apply exec_group_keeps | keeps_executor | keeps_step].
Qed.

Lemma group_nested_action_keeps (ignore_error : bool) (p : locator) (i j : Z)
    (action : json) (lf : option frame_ref) :
  keeps (group_nested_action env budget exec_group ignore_error p i j action lf).
Proof.
  unfold group_nested_action. destruct action;
    repeat first [apply group_dispatch_keeps | keeps_step].
Qed.

Lemma group_actions_loop_keeps (ignore_error : bool) (p : locator) (i : Z)
    (actions : list json) :
  forall (j : Z) (lf : option frame_ref),
    keeps (group_actions_loop env budget exec_group ignore_error p i j actions lf).
Proof.
  induction actions as [|a r IH]; intros j lf; [apply keeps_ret|].
  change (keeps (lf' <- group_nested_action env budget exec_group ignore_error
                          p i j a lf;;
                 group_actions_loop env budget exec_group ignore_error p i
                   (j + 1) r lf')).
  apply keeps_bind; [apply group_nested_action_keeps|intros lf'; apply IH].
Qed.

Lemma group_visit_keeps (parents : locator) (i : Z) (timeout : pyfloat) :
  (0 <=? i) = true -> keeps (group_visit env (Nth parents i) i timeout).
Proof.
  intros Hi. unfold group_visit. repeat keeps_step.
Qed.

Lemma group_parents_loop_keeps (ignore_error : bool) (timeout : pyfloat)
    (parents : locator) (cf : option frame_ref) (actions : list json)
    (parent_indices : list Z) :
  forallb (Z.leb 0) parent_indices = true ->
  keeps (group_parents_loop env budget exec_group ignore_error timeout parents
           cf actions parent_indices).
Proof.
  induction parent_indices as [|i r IH]; intros Hall; [apply keeps_ret|].
  simpl in Hall. apply andb_prop in Hall. destruct Hall as [Hi Hr].
  change (keeps (group_visit env (Nth parents i) i timeout;;
                 group_actions_loop env budget exec_group ignore_error
                   (Nth parents i) i 1 actions cf;;
                 group_parents_loop env budget exec_group ignore_error timeout
                   parents cf actions r)).
  apply keeps_bind; [now apply group_visit_keeps|intros _].
  apply keeps_bind; [apply group_actions_loop_keeps|intros _].
  now apply IH.
Qed.

Lemma group_body_keeps (step : dict) (cf : option frame_ref)
    (parent : option locator) :
  keeps (group_body env budget exec_group step cf parent).
Proof.
  unfold group_body.
  repeat first
    [ apply keeps_raise; apply no_parents_error_ok; reflexivity
    | match goal with
      | |- keeps (bind (select_parents _ _ _ _) _) =>
          apply keeps_bind_post
            with (post := fun selected =>
                            forall l, selected = Some l ->
                                      forallb (Z.leb 0) l = true);
          [ apply select_parents_keeps; reflexivity
          | intros ? ? ?; apply select_parents_indexed
          | intros ? ? ]
      | H : forall l, ?s = Some l -> forallb (Z.leb 0) l = true
        |- keeps (match ?s with Some _ => _ | None => _ end) =>
          destruct s; [specialize (H _ eq_refl)|]
      | |- keeps (group_parents_loop _ _ _ _ _ _ _ _ _) =>
          apply group_parents_loop_keeps; assumption
      end
    | keeps_executor
    | keeps_step ].
Qed.

End OrderlyGroupBody.

Lemma exec_step_group_action_keeps (fuel : nat) :
  forall (step : dict) (cf : option frame_ref) (parent : option locator),
    keeps (exec_step_group_action env fuel step cf parent).
Proof.
  induction fuel as [|n IH]; intros step cf parent; simpl.
  - apply keeps_raise. reflexivity.
  - apply group_body_keeps. exact IH.
Qed.

Lemma run_dispatch_keeps (fuel : nat) (ignore_error : bool) (step : dict)
    (stype : json) (cf : option frame_ref) :
  keeps (run_dispatch env fuel ignore_error step stype cf).
Proof.
  unfold run_dispatch, exec_step_frame, exec_step_main_frame,
    switch_to_main_frame.
  destruct (kind_of stype);
    repeat first
      [apply exec_step_group_action_keeps | keeps_executor | keeps_step].
Qed.

Lemma run_step_keeps (fuel : nat) (idx : Z) (cf : option frame_ref)
    (step : json) :
  keeps (run_step env fuel idx cf step).
Proof.
  unfold run_step. destruct step;
    repeat first [apply run_dispatch_keeps | keeps_step].
Qed.

Lemma run_loop_keeps (fuel : nat) (workflow : list json) :
  forall (idx : Z) (cf : option frame_ref),
    keeps (run_loop env fuel idx cf workflow).
Proof.
  induction workflow as [|s r IH]; intros idx cf; simpl; [apply keeps_ret|].
  apply keeps_bind; [apply run_step_keeps|intros cf'; apply IH].
Qed.

Lemma initial_goto_keeps (start_url : json) : keeps (initial_goto env start_url).
Proof.
  unfold initial_goto. repeat keeps_step.
Qed.

End OrderlyGroups.

Section WholeRuns.

Variable env : runtime.

(** A workflow document that is not a list is reported, and nothing is
    run. *)
Lemma main_load_failed (wf url : json) (h : history) :
  match wf with JList _ => False | _ => True end ->
  main env wf url h = (Ret 1, h ++ load_failed).
Proof.
  destruct wf; intros H; try contradiction;
    unfold main; run_monad; rewrite <- app_assoc; reflexivity.
Qed.

(** What [main] adds to the history: the orderly events of the initial
    navigation and of the step loop, then the closing lines. *)
Lemma main_trace (workflow : list json) (url : json) (h : history) :
  exists tr closing : history,
    snd (main env (JList workflow) url h) = h ++ tr ++ closing
    /\ forallb orderly tr = true
    /\ (closing = run_completed \/ exists e : exn, closing = run_aborted e).
Proof.
  rewrite main_unfold.
  destruct (initial_goto_keeps env url h) as (tr0 & Hs0 & Hp0 & _).
  destruct (initial_goto env url h) as [[[]|e] h0]; cbn [snd] in Hs0; subst h0.
  - destruct (run_loop_keeps env (S (json_depth (JList workflow))) workflow 1 None
                (h ++ tr0)) as (tr1 & Hs1 & Hp1 & _).
    destruct (run_loop env _ 1 None workflow (h ++ tr0)) as [[cf|e] h1];
      cbn [snd] in Hs1 |- *; subst h1;
      [exists (tr0 ++ tr1), run_completed|exists (tr0 ++ tr1), (run_aborted e)];
      rewrite <- !app_assoc, forallb_app, Hp0, Hp1; eauto.
  - exists tr0, (run_aborted e). cbn [snd]. rewrite <- app_assoc. eauto.
Qed.

(** A property of events that holds of the orderly ones and of every
    output holds of all that [main] does. *)
Lemma main_events (q : event -> bool) (wf url : json) (h : history) :
  (forall ev : event, orderly ev = true -> q ev = true) ->
  (forall o : output, q (Emitted o) = true) ->
  exists tr : history,
    snd (main env wf url h) = h ++ tr /\ forallb q tr = true.
Proof.
  intros Hq Ho.
  assert (forall l : list output, forallb q (map Emitted l) = true) as Hout.
  { induction l as [|o r IH]; simpl; [reflexivity|]. now rewrite Ho, IH. }
  destruct wf as [| | | |workflow|];
    try (exists load_failed; split; [now rewrite main_load_failed|];
         exact (Hout [Log LError "Failed to load workflow JSON:" [];
                      Print "[ERROR] Failed to load workflow JSON:" []])).
  destruct (main_trace workflow url h) as (tr & closing & Hs & Hp & Hc).
  exists (tr ++ closing). split; [exact Hs|].
  rewrite forallb_app, (@forallb_weaken _ orderly q tr Hq Hp).
  destruct Hc as [->|[e ->]].
  - exact (Hout [Log LInfo "=== Workflow completed successfully ===" [];
                 Print "Workflow completed successfully." [];
                 Input "Press Enter to close the browser..."]).
  - exact (Hout [Input "Press Enter to close the browser...";
                 Log LError "Run aborted:" [JStr (exn_text e)];
                 Print "[FATAL] Run aborted:" [JStr (exn_text e)]]).
Qed.

(** X20.  Whatever the workflow and whatever the page answers, every
    element a run waits for, scrolls to, reads an attribute of, clicks,
    clears or types into is a single element picked with [.nth(i)] for
    an index [i >= 0]: the run never acts on a whole match set and never
    on a negative index. *)
Theorem run_acts_on_indexed_elements :
  forall (wf url : json) (h : history),
    exists tr : history,
      snd (main env wf url h) = h ++ tr
      /\ forallb acts_on_indexed tr = true.
Proof.
  intros wf url h. apply main_events; [|reflexivity].
  intros ev H. unfold orderly in H.
  repeat (apply andb_prop in H; destruct H as [H ?]). exact H.
Qed.

(** X21.  Whatever the workflow and whatever the page answers, every
    file a run writes (a download saved, a page saved) has a name that
    is not empty and holds none of the characters a file name cannot
    hold, path separators among them; and a saved page has a name that
    ends in .html or .txt. *)
Theorem run_names_files_safely :
  forall (wf url : json) (h : history),
    exists tr : history,
      snd (main env wf url h) = h ++ tr
      /\ forallb (fun ev => named_safely ev && page_named ev) tr = true.
Proof.
  intros wf url h. apply main_events; [|reflexivity].
  intros ev H. unfold orderly in H.
  repeat (apply andb_prop in H; destruct H as [H ?]).
  apply andb_true_intro. split; assumption.
Qed.

(** X22.  The [except PWTimeout] handlers of the click step and of the
    child clicks of the array step are never entered: since
    [wait_and_click] turns every failure into its own [RuntimeError], no
    run of the step loop logs "Timeout waiting for element but
    ignoring:" or "Timeout waiting for child element but ignoring:",
    and none raises "Timeout waiting for element:" or "Timeout waiting
    for child element:". *)
Theorem click_timeout_handlers_never_run :
  forall (fuel : nat) (idx : Z) (cf : option frame_ref) (workflow : list json)
         (h : history),
    exists tr : history,
      snd (run_loop env fuel idx cf workflow h) = h ++ tr
      /\ forallb (fun ev => negb (reports_click_timeout ev)) tr = true
      /\ forall e : exn,
           fst (run_loop env fuel idx cf workflow h) = Raise e ->
           is_click_timeout_error e = false.
Proof.
  intros fuel idx cf workflow h.
  destruct (run_loop_keeps env fuel workflow idx cf h) as (tr & Hs & Hp & He).
  exists tr. split; [exact Hs|]. split; [|exact He].
  apply (@forallb_weaken _ orderly); [|exact Hp].
  intros ev H. unfold orderly in H.
  repeat (apply andb_prop in H; destruct H as [H ?]). assumption.
Qed.

(** X19.  A run waits for the operator exactly once: the closing prompt
    of [run], shown whether the workflow completed or failed.  No step
    ever prompts; and when the workflow document is not a list, nothing
    prompts. *)
Theorem run_prompts_operator_once :
  forall (wf url : json) (h : history),
    exists tr : history,
      snd (main env wf url h) = h ++ tr
      /\ filter is_prompt tr
         = match wf with
           | JList _ => [closing_prompt]
           | _ => []
           end.
Proof.
  intros wf url h.
  destruct wf as [| | | |workflow|];
    try (exists load_failed; split; [now rewrite main_load_failed|reflexivity]).
  destruct (main_trace workflow url h) as (tr & closing & Hs & Hp & Hc).
  exists (tr ++ closing). split; [exact Hs|].
  rewrite filter_app.
  assert (filter is_prompt tr = []) as ->.
  { clear Hs. induction tr as [|ev r IH]; [reflexivity|].
    simpl in Hp |- *. apply andb_prop in Hp. destruct Hp as [Hev Hr].
    unfold orderly in Hev.
    repeat (apply andb_prop in Hev; destruct Hev as [Hev ?]).
    destruct (is_prompt ev); [discriminate|]. now apply IH. }
  destruct Hc as [->|[e ->]]; reflexivity.
Qed.

End WholeRuns.

(* ================================================================== *)
(** ** Steps on an obliging page *)

Section ObligingPage.

Variable env : runtime.
Hypothesis Hob : obliging env.

Ltac oblige :=
  match goal with
  | |- context [respond env ?h (Count ?l)] =>
      let n := fresh "n" in
      let E := fresh "E" in
      destruct (proj1 Hob _ h (Count l)) as [n E];
      pose proof (proj2 Hob h l);
      rewrite E in *;
      destruct n as [|n]; [congruence|]
  | |- context [respond env ?h ?c] =>
      let r := fresh "r" in
      let E := fresh "E" in
      destruct (proj1 Hob _ h c) as [r E]; rewrite E
  end.

Lemma step_sleep_no_click (seconds : json) (h : history) :
  pauses env seconds ->
  exists tr : history,
    step_sleep env seconds h = (Ret tt, h ++ tr) /\ clicks_of tr = [].
Proof.
  intros Hp. specialize (Hp h).
  destruct (step_sleep_pauses env seconds h) as (tr & Hs & Htr).
  exists tr. split.
  - destruct (step_sleep env seconds h) as [o h1]. cbn [fst snd] in *.
    subst o h1. reflexivity.
  - destruct Htr as [->|[f ->]]; reflexivity.
Qed.

(** On an obliging page a click within range succeeds, and clicks the
    element once. *)
Lemma wait_and_click_succeeds (loc : locator) (timeout : pyfloat)
    (ignore_error : bool) (h : history) :
  exists tr : history,
    wait_and_click env loc 0 timeout ignore_error h = (Ret true, h ++ tr)
    /\ clicks_of tr = [(Nth loc 0, Some timeout)].
Proof.
  unfold wait_and_click. run_monad.
  oblige. cbn [Nat.eqb out_of_range Z.ltb Z.geb Z.compare Z.of_nat orb].
  replace (0 >=? Z.pos (Pos.of_succ_nat n)) with false by reflexivity.
  cbn [orb].
  repeat oblige.
  destruct (truthy _); [oblige|];
    rewrite <- !app_assoc; cbn [app]; eexists; split; reflexivity.
Qed.

Lemma array_child_click_succeeds (step : dict) (timeout : pyfloat)
    (p : locator) (j : Z) (child : json) (h : history) :
  py_float env (get_key step "timeout" [] (JNum 35000)) = Ret timeout ->
  resolvable_child env child = true ->
  child_pauses env child ->
  exists tr : history,
    array_child_click env step p j child h = (Ret tt, h ++ tr)
    /\ clicks_of tr = [(child_target env p child, Some timeout)].
Proof.
  intros Ht Hc Hz. destruct child as [| | | | |c]; try discriminate.
  unfold resolvable_child, child_target, selector_of, child_pauses in *.
  unfold array_child_click. rewrite Ht.
  destruct (build_css_selector env _ _ _ _) as [sel|e]; [|discriminate].
  destruct (has_text_suffix _) as [suffix|e]; [|discriminate].
  cbv [bind lift info emit try_except_timeout try_except ret].
  destruct (wait_and_click_succeeds
              (locate p sel (get_key c "text" [] JNull)) timeout
              (truthy (get_key c "ignore" [] (JBool false)))
              (h ++ [Emitted (Log LInfo "Child click" (JNum j :: JStr sel :: suffix))]))
    as (tr & -> & Hk).
  cbn [negb andb].
  destruct (@step_sleep_no_click (get_key c "sleep" [] JNull)
              ((h ++ [Emitted (Log LInfo "Child click"
                                 (JNum j :: JStr sel :: suffix))]) ++ tr) Hz)
    as (tr' & -> & Hk').
  eexists. split; [rewrite <- !app_assoc; reflexivity|].
  cbn [app clicks_of]. rewrite clicks_of_app, Hk, Hk'. reflexivity.
Qed.

Lemma array_children_loop_succeeds (step : dict) (timeout : pyfloat)
    (p : locator) (clicks : list json) :
  py_float env (get_key step "timeout" [] (JNum 35000)) = Ret timeout ->
  forallb (resolvable_child env) clicks = true ->
  Forall (child_pauses env) clicks ->
  forall (j : Z) (h : history),
    exists tr : history,
      array_children_loop env step p j clicks h = (Ret tt, h ++ tr)
      /\ clicks_of tr
         = map (fun child => (child_target env p child, Some timeout)) clicks.
Proof.
  intros Ht. induction clicks as [|c r IH]; intros Hall Hzz j h.
  - exists []. rewrite app_nil_r. split; reflexivity.
  - simpl in Hall. apply andb_prop in Hall. destruct Hall as [Hc Hr].
    inversion Hzz as [|c' r' Hz Hzr]; subst c' r'.
    cbn [array_children_loop]. unfold bind.
    destruct (@array_child_click_succeeds step timeout p j c h Ht Hc Hz)
      as (tr & -> & Hk).
    destruct (IH Hr Hzr (j + 1) (h ++ tr)) as (tr' & -> & Hk').
    exists (tr ++ tr'). rewrite app_assoc, clicks_of_app, Hk, Hk'.
    split; reflexivity.
Qed.

Lemma array_parents_loop_succeeds (step : dict) (timeout : pyfloat)
    (parents : locator) (clicks : list json) (parent_indices : list Z) :
  py_float env (get_key step "timeout" [] (JNum 35000)) = Ret timeout ->
  forallb (resolvable_child env) clicks = true ->
  Forall (child_pauses env) clicks ->
  forall h : history,
    exists tr : history,
      array_parents_loop env step parents clicks parent_indices h
      = (Ret tt, h ++ tr)
      /\ clicks_of tr = array_schedule env parents clicks timeout parent_indices.
Proof.
  intros Ht Hall Hzz. induction parent_indices as [|i r IH]; intros h.
  - exists []. rewrite app_nil_r. split; reflexivity.
  - cbn [array_parents_loop]. cbv [bind info emit].
    destruct (@array_children_loop_succeeds step timeout (Nth parents i) clicks Ht Hall
                Hzz 1
                (h ++ [Emitted (Log LInfo "Processing parent index" [JNum i])]))
      as (tr & -> & Hk).
    destruct (IH ((h ++ [Emitted (Log LInfo "Processing parent index" [JNum i])])
                  ++ tr)) as (tr' & -> & Hk').
    eexists. split; [rewrite <- !app_assoc; reflexivity|].
    cbn [app clicks_of]. rewrite clicks_of_app, Hk, Hk'. reflexivity.
Qed.

(** X13.  On a page where nothing fails and every locator matches, an
    array step without [array_select_one], whose pauses (its own and
    those of its child entries) can be made, clicks, for each of its
    [total] parents in ascending order, each entry of its child list in
    the order listed: [total * length clicks] clicks in parent-major
    order, each on element 0 of the child's locator under its parent,
    with the timeout of the array step.  Without the condition on the
    pauses the step can stop early: a child entry with [sleep]
    10000000000 raises [OverflowError] after its first click. *)
Theorem array_step_clicks_parent_major :
  forall (step : dict) (cf : option frame_ref) (parent : option locator)
         (sel : string) (total : nat) (clicks : list json)
         (timeout : pyfloat) (h : history),
    let parents := locate (get_locator_root cf parent) sel
                     (get_key step "if_find_text_inside" [] JNull) in
    selector_of env step = Ret sel ->
    respond env h (Count parents) = inr total ->
    to_int_or_none (get_key step "array_select_one" [] JNull) = None ->
    get_key step "click" [] (JList []) = JList clicks ->
    clicks <> [] ->
    forallb (resolvable_child env) clicks = true ->
    py_float env (get_key step "timeout" [] (JNum 35000)) = Ret timeout ->
    Forall (child_pauses env) clicks ->
    pauses env (get_key step "sleep" [] JNull) ->
    exists tr : history,
      exec_step_array env step cf parent h = (Ret tt, h ++ tr)
      /\ clicks_of tr = array_schedule env parents clicks timeout (range total)
      /\ length (clicks_of tr) = (total * length clicks)%nat.
Proof.
  intros step cf parent sel total clicks timeout h parents Hp Hn Hi Hc Hne Hall Ht
    Hzz Hz.
  unfold selector_of in Hp. unfold exec_step_array. rewrite Hi, Hc, Hp.
  pose proof (proj2 Hob h parents) as Hpos.
  subst parents.
  cbv [bind lift call_env]. rewrite Hn.
  rewrite Hn in Hpos.
  destruct total as [|n]; [congruence|]. cbn [Nat.eqb].
  cbv [info emit select_parents ret].
  destruct clicks as [|c cs]; [congruence|].
  match goal with
  | |- context [array_parents_loop env step ?ps ?cl ?ix ?h0] =>
      destruct (@array_parents_loop_succeeds step timeout ps cl ix Ht Hall Hzz h0)
        as (tr & -> & Hk)
  end.
  match goal with
  | |- context [step_sleep env ?s ?h0] =>
      destruct (@step_sleep_no_click s h0 Hz) as (tr' & -> & Hk')
  end.
  eexists. split; [rewrite <- !app_assoc; reflexivity|].
  cbn [app clicks_of]. rewrite !clicks_of_app, Hk, Hk', app_nil_r.
  split; [reflexivity|].
  assert (forall l : list Z,
            length (array_schedule env
                      (locate (get_locator_root cf parent) sel
                         (get_key step "if_find_text_inside" [] JNull))
                      (c :: cs) timeout l)
            = (length l * length (c :: cs))%nat) as Hlen.
  { induction l as [|i r IH]; [reflexivity|].
    unfold array_schedule in *. cbn [flat_map].
    rewrite length_app, length_map, IH. cbn [length]. lia. }
  rewrite Hlen. unfold range. rewrite length_map, length_seq. reflexivity.
Qed.

Lemma type_items_succeeds (element : locator) (items : list json) :
  forall h : history,
    exists tr : history,
      type_items env element items h = (Ret tt, h ++ tr)
      /\ keys_sent tr = map (pair element) items.
Proof.
  induction items as [|ch rest IH]; intros h.
  - exists []. rewrite app_nil_r. split; reflexivity.
  - destruct (type_items_keys env element (ch :: rest) h)
      as (o & tr & Hs & _ & Hr).
    exists tr. cbn [type_items] in Hs |- *.
    revert Hs. cbv [bind call_env emit ret].
    oblige. destruct (is_blank ch); repeat oblige;
      match goal with
      | |- context [type_items env element rest ?h0] =>
          destruct (IH h0) as (tr' & -> & _)
      end;
      intros Hs; injection Hs as <- Hh; rewrite Hh; split; auto.
Qed.

(** X10.  On a page where nothing fails and every locator matches, a
    write step types its text: the keys it sends are the characters of
    the text, in order, all to element 0 of what its selector matches. *)
Theorem write_step_types_its_text :
  forall (step : dict) (cf : option frame_ref) (parent : option locator)
         (text sel : string) (timeout : pyfloat) (h : history),
    let target := Nth (locate (get_locator_root cf parent) sel
                         (get_key step "text" [] JNull)) 0 in
    get_key step "write" ["value"; "text"] JNull = JStr text ->
    text <> "" ->
    selector_of env step = Ret sel ->
    to_int_or_none (get_key step "array_select_one" [] JNull) = None ->
    py_float env (get_key step "timeout" [] (JNum 35000)) = Ret timeout ->
    exists tr : history,
      exec_step_write env step cf parent h = (Ret tt, h ++ tr)
      /\ keys_sent tr = map (pair target) (chars_of text)
      /\ text_of_keys (map snd (keys_sent tr)) = text.
Proof.
  intros step cf parent text sel timeout h target Hw Hne Hs Hi Ht.
  subst target. unfold selector_of in Hs.
  unfold exec_step_write, human_type. rewrite Hw, Hs, Hi, Ht.
  destruct text as [|c0 text']; [congruence|].
  cbn [truthy PyStr.is_empty negb iter_items].
  cbv [bind lift info emit try_except call_env ret].
  oblige. cbn [Nat.eqb].
  replace (out_of_range 0 (S n)) with false by reflexivity.
  repeat oblige.
  assert (forall h0 : history,
            keys_sent h0 = [] -> 
            forall m : M unit,
            (exists tr, m h0 = (Ret tt, h0 ++ tr)
               /\ keys_sent tr = map (pair (Nth (locate (get_locator_root cf parent) sel
                         (get_key step "text" [] JNull)) 0))
                                   (chars_of (String c0 text'))) ->
            True) as _ by auto.
  destruct (truthy (get_key step "clear" [] (JBool true))); [oblige|];
    match goal with
    | |- context [type_items env ?el ?items ?h0] =>
        destruct (type_items_succeeds el items h0) as (tr & -> & Hk)
    end;
    (eexists; split; [rewrite <- !app_assoc; reflexivity|]);
    cbn [app keys_sent]; rewrite Hk;
    (split; [reflexivity|]);
    rewrite map_map; cbn [snd]; rewrite map_id; apply text_of_chars.
Qed.

End ObligingPage.

(* ================================================================== *)
(** ** Nested groups *)

Section NestedGroups.

Variable env : runtime.
Variable count : locator -> nat.
Hypothesis Hst : steady env count.

(** A plain click, with or without a parent, clicks element 0 of what
    its selector matches, once. *)
Lemma primary_click_succeeds (a : dict) (cf : option frame_ref)
    (parent : option locator) (h : history) :
  plain_click env a ->
  exists tr : history,
    primary_click env a cf parent h = (Ret tt, h ++ tr)
    /\ clicks_of tr
       = [(child_target env (get_locator_root cf parent) (JObj a),
           click_timeout env a)].
Proof.
  intros (_ & Hr & Hi & Ht & Hz).
  unfold resolvable_child, child_target, selector_of, click_timeout in *.
  unfold primary_click. rewrite Hi.
  destruct (build_css_selector env _ _ _ _) as [sel|e]; [|discriminate].
  destruct (has_text_suffix _) as [suffix|e]; [|discriminate].
  destruct (py_float env (get_key a "timeout" [] (JNum 45000))) as [t|e];
    [|congruence].
  cbv [bind lift info emit try_except_timeout try_except ret].
  destruct (wait_and_click_succeeds (proj1 Hst)
              (locate (get_locator_root cf parent) sel (get_key a "text" [] JNull))
              t (truthy (get_key a "ignore" [] (JBool false)))
              (h ++ [Emitted (Log LInfo "Click selector:" (JStr sel :: suffix))]))
    as (tr & -> & Hk).
  cbn [negb andb].
  destruct (@step_sleep_no_click env (get_key a "sleep" [] JNull)
              ((h ++ [Emitted (Log LInfo "Click selector:" (JStr sel :: suffix))])
                 ++ tr) Hz)
    as (tr' & -> & Hk').
  eexists. split; [rewrite <- !app_assoc; reflexivity|].
  cbn [app clicks_of]. rewrite clicks_of_app, Hk, Hk'. reflexivity.
Qed.

(** Visiting a parent clicks nothing. *)
Lemma group_visit_no_click (p : locator) (i : Z) (timeout : pyfloat)
    (h : history) :
  exists tr : history,
    group_visit env p i timeout h = (Ret tt, h ++ tr) /\ clicks_of tr = [].
Proof.
  unfold group_visit. run_monad.
  destruct (proj1 (proj1 Hst) _
              (h ++ [Emitted (Log LInfo "[group_action] Processing parent index"
                                [JNum i])])
              (WaitVisible p timeout)) as [[] ->].
  match goal with
  | |- context [respond env ?h0 (ScrollIntoView p)] =>
      destruct (proj1 (proj1 Hst) _ h0 (ScrollIntoView p)) as [[] ->]
  end.
  rewrite <- !app_assoc. cbn [app]. eexists. split; reflexivity.
Qed.

Section OneLevel.

Variable budget : nat.
Variable exec_group : dict -> option frame_ref -> option locator -> M unit.

(** The nested groups, supposed to follow their schedule. *)
Hypothesis exec_group_scheduled :
  forall (a : dict) (cf : option frame_ref) (parent : option locator)
         (h : history),
    plain_group env budget a ->
    exists tr : history,
      exec_group a cf parent h = (Ret tt, h ++ tr)
      /\ clicks_of tr
         = group_schedule env count budget a (get_locator_root cf parent).

Lemma group_nested_action_scheduled (ignore_error : bool) (p : locator)
    (i j : Z) (action : json) (lf : option frame_ref) (h : history) :
  plain_action env (plain_group env budget) budget action ->
  exists tr : history,
    group_nested_action env budget exec_group ignore_error p i j action lf h
    = (Ret lf, h ++ tr)
    /\ clicks_of tr
       = action_schedule env (group_schedule env count budget) p action.
Proof.
  destruct action as [| | | | |a]; try contradiction.
  unfold plain_action, action_schedule, group_nested_action.
  destruct (kind_of (get_key a "type" [] JNull)) eqn:Hk; try contradiction;
    rewrite (kind_of_supported_truthy (get_key a "type" [] JNull))
      by (rewrite Hk; discriminate);
    cbv [negb]; unfold group_dispatch; rewrite Hk;
    cbv [bind info emit try_except ret].
  - intros [Hb Hc]. destruct budget as [|n]; [congruence|].
    rewrite unconditional_click_is_primary by exact (proj1 Hc).
    match goal with
    | |- context [primary_click env a lf (Some p) ?h0] =>
        destruct (@primary_click_succeeds a lf (Some p) h0 Hc) as (tr & -> & Hc')
    end.
    eexists. split; [rewrite <- !app_assoc; reflexivity|].
    cbn [app clicks_of]. exact Hc'.
  - intros Hg.
    match goal with
    | |- context [exec_group a lf (Some p) ?h0] =>
        destruct (exec_group_scheduled a lf (Some p) h0 Hg) as (tr & -> & Hc')
    end.
    eexists. split; [rewrite <- !app_assoc; reflexivity|].
    cbn [app clicks_of]. exact Hc'.
Qed.

Lemma group_actions_loop_scheduled (ignore_error : bool) (p : locator) (i : Z)
    (lf : option frame_ref) (actions : list json) :
  Forall (plain_action env (plain_group env budget) budget) actions ->
  forall (j : Z) (h : history),
    exists tr : history,
      group_actions_loop env budget exec_group ignore_error p i j actions lf h
      = (Ret lf, h ++ tr)
      /\ clicks_of tr
         = flat_map (action_schedule env (group_schedule env count budget) p)
             actions.
Proof.
  induction 1 as [|x rest Hx Hrest IH]; intros j h.
  - exists []. rewrite app_nil_r. split; reflexivity.
  - rewrite group_actions_loop_cons.
    destruct (@group_nested_action_scheduled ignore_error p i j x lf h Hx)
      as (tr & -> & Hc).
    destruct (IH (j + 1) (h ++ tr)) as (tr' & -> & Hc').
    exists (tr ++ tr'). rewrite app_assoc, clicks_of_app, Hc, Hc'.
    split; reflexivity.
Qed.

Lemma group_parents_loop_scheduled (ignore_error : bool) (timeout : pyfloat)
    (parents : locator) (cf : option frame_ref) (actions : list json)
    (indices : list Z) :
  Forall (plain_action env (plain_group env budget) budget) actions ->
  forall h : history,
    exists tr : history,
      group_parents_loop env budget exec_group ignore_error timeout parents cf
        actions indices h
      = (Ret tt, h ++ tr)
      /\ clicks_of tr
         = flat_map
             (fun i : Z =>
                flat_map
                  (action_schedule env (group_schedule env count budget)
                     (Nth parents i))
                  actions)
             indices.
Proof.
  intros Hall. induction indices as [|i rest IH]; intros h.
  - exists []. rewrite app_nil_r. split; reflexivity.
  - rewrite group_parents_loop_cons.
    destruct (group_visit_no_click (Nth parents i) i timeout h)
      as (tr0 & -> & Hc0).
    cbn [snd].
    destruct (@group_actions_loop_scheduled ignore_error (Nth parents i) i cf
                actions Hall 1 (h ++ tr0)) as (tr & -> & Hc).
    destruct (IH ((h ++ tr0) ++ tr)) as (tr' & -> & Hc').
    exists (tr0 ++ tr ++ tr'). split; [rewrite !app_assoc; reflexivity|].
    rewrite !clicks_of_app, Hc0, Hc, Hc'. reflexivity.
Qed.

Lemma group_body_scheduled (g : dict) (cf : option frame_ref)
    (parent : option locator) (h : history) :
  plain_group env (S budget) g ->
  exists tr : history,
    group_body env budget exec_group g cf parent h = (Ret tt, h ++ tr)
    /\ clicks_of tr
       = group_schedule env count (S budget) g (get_locator_root cf parent).
Proof.
  cbn [plain_group group_schedule].
  intros ((sel & Hs) & (t & Ht) & Hi & Hz & Ha). rewrite Hs.
  unfold selector_of in Hs. unfold group_body. rewrite Ht, Hs, Hi.
  cbv [bind lift call_env]. rewrite (proj2 Hst).
  pose proof (proj2 (proj1 Hst) h
                (locate (get_locator_root cf parent) sel
                   (get_key g "if_find_text_inside" [] JNull))) as Hpos.
  rewrite (proj2 Hst) in Hpos.
  destruct (count (locate (get_locator_root cf parent) sel
                     (get_key g "if_find_text_inside" [] JNull)))
    as [|total] eqn:Hcount; [congruence|].
  cbn [Nat.eqb]. cbv [info emit select_parents ret].
  destruct (get_key g "actions" ["steps"] (JList []))
    as [| | | |[|a rest]|]; try contradiction.
  match goal with
  | |- context [group_parents_loop env budget exec_group ?ie ?t0 ?ps ?c ?acts
                  ?ix ?h0] =>
      destruct (@group_parents_loop_scheduled ie t0 ps c acts ix Ha h0)
        as (tr & -> & Hc)
  end.
  match goal with
  | |- context [step_sleep env ?s ?h0] =>
      destruct (@step_sleep_no_click env s h0 Hz) as (tr' & -> & Hc')
  end.
  eexists. split; [rewrite <- !app_assoc; reflexivity|].
  cbn [app clicks_of as_list]. rewrite !clicks_of_app, Hc, Hc', app_nil_r.
  reflexivity.
Qed.

End OneLevel.

(** A plain group follows its schedule. *)
Lemma exec_step_group_action_scheduled (fuel : nat) :
  forall (g : dict) (cf : option frame_ref) (parent : option locator)
         (h : history),
    plain_group env fuel g ->
    exists tr : history,
      exec_step_group_action env fuel g cf parent h = (Ret tt, h ++ tr)
      /\ clicks_of tr
         = group_schedule env count fuel g (get_locator_root cf parent).
Proof.
  induction fuel as [|n IH]; intros g cf parent h Hg; [contradiction|].
  cbn [exec_step_group_action]. apply group_body_scheduled; assumption.
Qed.

(** The schedule of a group of one action whose selector matches two
    parents wherever it is resolved: the action under parent 0, then the
    action under parent 1. *)
Lemma group_schedule_two (n : nat) (g : dict) (x : json) (root : locator) :
  (exists sel : string, selector_of env g = Ret sel) ->
  get_key g "actions" ["steps"] (JList []) = JList [x] ->
  count (parents_of env g root) = 2%nat ->
  group_schedule env count (S n) g root
  = action_schedule env (group_schedule env count n)
      (Nth (parents_of env g root) 0) x
    ++ action_schedule env (group_schedule env count n)
         (Nth (parents_of env g root) 1) x.
Proof.
  intros [sel Hs] Ha Hc.
  unfold parents_of in *. cbn [group_schedule]. rewrite Hs in *.
  rewrite Ha, Hc. cbn [as_list]. 
  change (range 2) with [0; 1]. cbn [flat_map]. rewrite !app_nil_r.
  reflexivity.
Qed.


End NestedGroups.

(* ================================================================== *)
(** ** The recursion budget *)

Section BudgetBound.

Variable env : runtime.

(** X23.  The recursion of the interpreter (the alternate clicks of a
    condition, the nested actions of a group) descends into the records
    nested in the step at hand, so it is bounded by the nesting depth of
    the workflow: the step loop gives the same result with every
    recursion budget that is at least that depth. *)
Theorem run_budget_is_enough :
  forall (workflow : list json) (n : nat) (idx : Z) (cf : option frame_ref)
         (h : history),
    (json_depth (JList workflow) <= n)%nat ->
    run_loop env n idx cf workflow h
    = run_loop env (json_depth (JList workflow)) idx cf workflow h.
Proof.
  intros workflow n idx cf h Hn.
  induction n as [|n IH].
  - replace (json_depth (JList workflow)) with 0%nat by lia. reflexivity.
  - destruct (Nat.eq_dec (json_depth (JList workflow)) (S n)) as [->|Hneq];
      [reflexivity|].
    rewrite <- IH by lia. symmetry. apply run_loop_budget. lia.
Qed.

End BudgetBound.

(* ================================================================== *)
(** ** The properties above on concrete inputs *)

(** The plain surface with a positive count is obliging. *)
Lemma plain_env_obliging (n : nat) (frames : list frame) :
  obliging (plain_env (always (S n)) frames).
Proof.
  split.
  - intros R h c. destruct c; eexists; reflexivity.
  - intros h l. discriminate.
Qed.

(** The record [{"tag": "a"}], nested and at the top level. *)
Lemma nested_missing_type_is_skipped_witness :
  group_nested_action (plain_env (always 1%nat) []) 0
    (fun _ _ _ => ret tt) false (Locate Page "li") 0 1
    (JObj [("tag", JStr "a")]) None []
  = (Ret None,
     [] ++ [Emitted (Log LWarning
                       "[group_action] Missing 'type' in nested action, skipping." [])])
  /\ fst (run_step (plain_env (always 1%nat) []) 1 1 None
            (JObj [("tag", JStr "a")]) [])
     = Raise (RuntimeError "Missing type in step." []).
Proof.
  exact (@nested_missing_type_is_skipped (plain_env (always 1%nat) []) 0
           (fun _ _ _ => ret tt) false (Locate Page "li") 0 1
           [("tag", JStr "a")] None 1%nat 1 [] eq_refl eq_refl).
Defined.

(** A tolerant group over two parents whose nested click finds nothing
    and whose nested group fails. *)
Lemma tolerant_group_covers_nested_actions_witness :
  exists h' : history,
    group_parents_loop (plain_env (only_missing "a") []) 1
      (fun _ _ _ => raise (PyError "KeyError")) true (FInt 35000)
      (Locate Page "li") None
      [JObj [("type", JStr "click"); ("tag", JStr "a")];
       JObj [("type", JStr "group_action")]]
      [0; 1] []
    = (Ret tt, h').
Proof.
  exact (@tolerant_group_covers_nested_actions (plain_env (only_missing "a") []) 1
           (fun _ _ _ => raise (PyError "KeyError")) (FInt 35000)
           (Locate Page "li") None
           [JObj [("type", JStr "click"); ("tag", JStr "a")];
            JObj [("type", JStr "group_action")]]
           [0; 1] [] eq_refl).
Defined.

(** A frame step by selector sets the frame. *)
Lemma run_step_frame_context_witness :
  Some (FrameLocator (JStr "#pay")) = (None : option frame_ref)
  \/ exists f : frame_ref, Some (FrameLocator (JStr "#pay")) = Some f.
Proof.
  exact (@run_step_frame_context (plain_env (always 1%nat) []) 1 1 None
           (Some (FrameLocator (JStr "#pay")))
           [("type", JStr "frame"); ("selector", JStr "#pay")] []
           [Emitted (Log LInfo "--- Step" [JNum 1; JStr "Step #1"]);
            Emitted (Print "[Step" [JNum 1; JStr "Step #1"]);
            Emitted (Log LInfo "Switching to frame by selector:" [JStr "#pay"])]
           eq_refl).
Defined.

(** Three list items, two child clicks each, with pauses of one and two
    seconds: six clicks. *)
Lemma array_step_clicks_parent_major_witness :
  exists tr : history,
    exec_step_array (plain_env (always 3%nat) []) two_clicks_per_item None None []
    = (Ret tt, [] ++ tr)
    /\ clicks_of tr
       = array_schedule (plain_env (always 3%nat) []) (Locate Page "li")
           [JObj [("tag", JStr "a")];
            JObj [("tag", JStr "button"); ("text", JStr "Ok"); ("sleep", JNum 2)]]
           (FInt 35000) (range 3)
    /\ length (clicks_of tr) = (3 * 2)%nat.
Proof.
  refine (@array_step_clicks_parent_major (plain_env (always 3%nat) [])
            (plain_env_obliging 2 []) two_clicks_per_item None None "li" 3%nat
            [JObj [("tag", JStr "a")];
             JObj [("tag", JStr "button"); ("text", JStr "Ok"); ("sleep", JNum 2)]]
            (FInt 35000) [] eq_refl eq_refl eq_refl eq_refl _ eq_refl eq_refl _ _).
  - discriminate.
  - repeat constructor.
  - intros h. reflexivity.
Defined.

(** The pause of the first child entry cannot be made: the step fails
    with [OverflowError] after one click. *)
Lemma array_step_stops_at_overlong_pause :
  fst (exec_step_array (plain_env (always 3%nat) []) overlong_pause_per_item
         None None [])
  = Raise (PyError "OverflowError")
  /\ clicks_of (snd (exec_step_array (plain_env (always 3%nat) [])
                       overlong_pause_per_item None None []))
     = [(Nth (Locate (Nth (Locate Page "li") 0) "a") 0, Some (FInt 35000))].
Proof.
  split; vm_compute; reflexivity.
Qed.

(** Typing "hi there" into the input. *)
Lemma write_step_types_its_text_witness :
  exists tr : history,
    exec_step_write (plain_env (always 1%nat) []) write_hello None None []
    = (Ret tt, [] ++ tr)
    /\ keys_sent tr
       = map (pair (Nth (Locate Page "input") 0)) (chars_of "hi there")
    /\ text_of_keys (map snd (keys_sent tr)) = "hi there".
Proof.
  refine (@write_step_types_its_text (plain_env (always 1%nat) [])
            (plain_env_obliging 0 []) write_hello None None "hi there" "input"
            (FInt 35000) [] eq_refl _ eq_refl eq_refl eq_refl).
  discriminate.
Defined.

(** Three nested groups, run with a budget of 9 and with the depth of
    the workflow. *)
Lemma run_budget_is_enough_witness :
  run_loop (plain_env (always 2%nat) []) 9 1 None [JObj level1] []
  = run_loop (plain_env (always 2%nat) []) (json_depth (JList [JObj level1])) 1
      None [JObj level1] [].
Proof.
  refine (@run_budget_is_enough (plain_env (always 2%nat) []) [JObj level1]
            9%nat 1 None [] _).
  vm_compute. repeat constructor.
Defined.

(** The plain surface is steady. *)
Lemma plain_env_steady (n : nat) (frames : list frame) :
  steady (plain_env (always (S n)) frames) (fun _ => S n).
Proof.
  split; [apply plain_env_obliging|reflexivity].
Qed.

(** Three levels around a click, with a budget of four levels, make a
    plain group. *)
Lemma level1_plain (n : nat) :
  plain_group (plain_env (always (S n)) []) 4 level1.
Proof.
  assert (forall s : json, s = JNull -> pauses (plain_env (always (S n)) []) s)
    as Hz by (intros s -> h; reflexivity).
  cbn [plain_group].
  repeat first
    [ apply Hz; reflexivity
    | split
    | eexists; reflexivity
    | reflexivity
    | discriminate
    | apply Forall_cons
    | apply Forall_nil ].
Qed.


(** Two list items, two [div]s in each: under each item in turn the
    first click, the click of the nested group under each [div] in turn,
    then the last click. *)
Lemma mixed_group_clicks_in_order :
  clicks_of (snd (exec_step_group_action (plain_env (always 2%nat) []) 3
                    mixed_group None None []))
  = let item (i : Z) := Nth (Locate Page "li") i in
    let click_in (p : locator) (tag : string) :=
      (Nth (Locate p tag) 0, Some (FInt 45000)) in
    [click_in (item 0) "a";
     click_in (Nth (Locate (item 0) "div") 0) "b";
     click_in (Nth (Locate (item 0) "div") 1) "b";
     click_in (item 0) "c";
     click_in (item 1) "a";
     click_in (Nth (Locate (item 1) "div") 0) "b";
     click_in (Nth (Locate (item 1) "div") 1) "b";
     click_in (item 1) "c"].
Proof.
  vm_compute. reflexivity.
Qed.
